(** * Chat front-end: API client, conversation registry, chat session

    A shallow embedding of the state and request-lifecycle layer of the
    workplace-assistant front-end:

    - [src/services/api.ts]       the API client ([ApiService.request] and
                                  the per-endpoint operations),
    - [hooks/useConversations]    the conversation registry,
    - [hooks/useChat]             the chat session,
    - [App.tsx]                   [extractContext], [renderMessage] and
                                  the handlers of the page.

    Strings are [string]s whose characters stand for code units below 256.
    The body of a response is a JSON value ([Json.Value]), whatever the
    type the client declares for it; the hooks and the page are typed as
    the source is, and a value is read at its declared type where the
    client hands it on ([ApiService.declared]).
    Asynchronous functions are programs of a small resumption monad
    ([Prog]): state updates, clock reads and outputs run to completion,
    a [Fetch] suspends the program until the transport answers. *)

From Stdlib Require Import Bool Arith ZArith Lia List String Ascii.
From Stdlib Require Import DecimalString.
Import ListNotations.
Open Scope string_scope.

Set Implicit Arguments.

(* ================================================================= *)
(** ** JavaScript strings *)

Module Js.

(** [WhiteSpace] and [LineTerminator] code units below 256: TAB, LF, VT,
    FF, CR, SP and NBSP. *)
Definition is_white_space (c : ascii) : bool :=
  match nat_of_ascii c with
  | 9 | 10 | 11 | 12 | 13 | 32 | 160 => true
  | _ => false
  end.

Fixpoint trimStart (s : string) : string :=
  match s with
  | String c s' => if is_white_space c then trimStart s' else s
  | EmptyString => EmptyString
  end.

(** [trimEnd] keeps a character when it is not white space or when
    something is left after it. *)
Fixpoint trimEnd (s : string) : string :=
  match s with
  | String c s' =>
      match trimEnd s' with
      | EmptyString => if is_white_space c then EmptyString else String c EmptyString
      | t => String c t
      end
  | EmptyString => EmptyString
  end.

(** [String.prototype.trim]. *)
Definition trim (s : string) : string := trimEnd (trimStart s).

(** Truthiness of a string: every string but the empty one. *)
Definition truthy (s : string) : bool :=
  match s with EmptyString => false | _ => true end.

(** [a || b] on an optional string property ([undefined] when [None]). *)
Definition or_else (a : option string) (b : string) : string :=
  match a with
  | Some s => if truthy s then s else b
  | None => b
  end.

(** Decimal rendering of numbers inside template literals. *)
Definition of_nat (n : nat) : string := NilZero.string_of_uint (Nat.to_uint n).
Definition of_Z (z : Z) : string := NilZero.string_of_int (Z.to_int z).

Definition all_white (s : string) : Prop :=
  forall c, In c (list_ascii_of_string s) -> is_white_space c = true.

End Js.

(* ================================================================= *)
(** ** JSON values *)

Module Json.

(** What [response.json()] makes of a body.  Numbers are the integral
    ones; they are tested for zero and printed, never computed with.  An
    object is given as it was parsed, with one entry for each of its
    keys. *)
#[warnings="-register-all"] Inductive Value : Type :=
| Null
| Bool (b : bool)
| Number (n : Z)
| Str (s : string)
| Array (items : list Value)
| Object (props : list (string * Value)).

(** Truthiness: what [||] and [? :] test. *)
Definition truthy (v : Value) : bool :=
  match v with
  | Null => false
  | Bool b => b
  | Number n => negb (n =? 0)%Z
  | Str s => Js.truthy s
  | Array _ => true
  | Object _ => true
  end.

(** [String(v)], which [super(message)] applies to the message of an
    error: an array is its elements joined by commas, a [null] among them
    giving nothing; every plain object is [[object Object]]. *)
Fixpoint to_string (v : Value) : string :=
  match v with
  | Null => "null"
  | Bool b => if b then "true" else "false"
  | Number n => Js.of_Z n
  | Str s => s
  | Array items =>
      (fix join (l : list Value) : string :=
         match l with
         | [] => ""
         | x :: rest =>
             let here := match x with Null => "" | _ => to_string x end in
             match rest with
             | [] => here
             | _ :: _ => here ++ "," ++ join rest
             end
         end) items
  | Object _ => "[object Object]"
  end.

Fixpoint assoc (key : string) (props : list (string * Value)) : option Value :=
  match props with
  | [] => None
  | (k, v) :: rest => if String.eqb k key then Some v else assoc key rest
  end.

(** The elements of an array, or the characters of a string, under their
    indices. *)
Definition indexed (l : list Value) : list (string * Value) :=
  combine (map Js.of_nat (seq 0 (List.length l))) l.

Definition chars (s : string) : list Value :=
  map (fun c => Str (String c EmptyString)) (list_ascii_of_string s).

(** [{...v}]: the own enumerable properties of [v]; [null], a boolean
    and a number have none. *)
Definition spread (v : Value) : list (string * Value) :=
  match v with
  | Object props => props
  | Array items => indexed items
  | Str s => indexed (chars s)
  | _ => []
  end.

(** The own properties of [v]: those that [spread] copies and, of an
    array or a string, [length]. *)
Definition own (v : Value) : list (string * Value) :=
  match v with
  | Array items =>
      indexed items ++ [("length", Number (Z.of_nat (List.length items)))]
  | Str s =>
      indexed (chars s) ++ [("length", Number (Z.of_nat (String.length s)))]
  | _ => spread v
  end.

(** [v.key], for a [v] that is not [null] and a [key] that no prototype
    defines ([message], [code], [timestamp] and the names of the fields of
    the payloads); [None] is [undefined]. *)
Definition lookup (key : string) (v : Value) : option Value := assoc key (own v).

(** [a || b], where [a] is [undefined] when [None]. *)
Definition or_else (a : option Value) (b : Value) : Value :=
  match a with
  | Some v => if truthy v then v else b
  | None => b
  end.

(** [v === s] for the string [s]. *)
Definition is_string (s : string) (v : Value) : bool :=
  match v with
  | Str t => String.eqb t s
  | _ => false
  end.

End Json.

(* ================================================================= *)
(** ** Regular expressions

    The fragment of ECMAScript regular expressions used by [App.tsx]:
    character classes, sequence, alternation, a greedy optional group,
    greedy [+] and lazy [*?] over a class, and capture groups.  The
    matcher is the backtracking matcher of the language: a pattern is run
    against the rest of the input with a continuation for what follows,
    and the first alternative that lets the continuation succeed wins. *)

Module Regex.

Inductive regex : Type :=
| Class (p : ascii -> bool)
| Seq (r1 r2 : regex)
| Alt (r1 r2 : regex)
| Empty
| Opt (r : regex)
| Plus (p : ascii -> bool)
| StarLazy (p : ascii -> bool)
| Group (n : nat) (r : regex).

(** Captures: the text of the groups that took part in the match, the most
    recent binding first. *)
Definition captures := list (nat * string).

Fixpoint capture (n : nat) (caps : captures) : option string :=
  match caps with
  | [] => None
  | (m, s) :: rest => if Nat.eqb n m then Some s else capture n rest
  end.

(** The text consumed between input [s] and its suffix [s']. *)
Definition consumed (s s' : string) : string :=
  substring 0 (String.length s - String.length s') s.

Section Matcher.
Variable R : Type.

Fixpoint plus_greedy (p : ascii -> bool) (s : string)
         (k : string -> option R) : option R :=
  match s with
  | String c s' =>
      if p c then
        match plus_greedy p s' k with
        | Some r => Some r
        | None => k s'
        end
      else None
  | EmptyString => None
  end.

Fixpoint star_lazy (p : ascii -> bool) (s : string)
         (k : string -> option R) : option R :=
  match k s with
  | Some r => Some r
  | None =>
      match s with
      | String c s' => if p c then star_lazy p s' k else None
      | EmptyString => None
      end
  end.

Fixpoint run (r : regex) (s : string) (caps : captures)
         (k : string -> captures -> option R) : option R :=
  match r with
  | Class p =>
      match s with
      | String c s' => if p c then k s' caps else None
      | EmptyString => None
      end
  | Seq r1 r2 => run r1 s caps (fun s1 caps1 => run r2 s1 caps1 k)
  | Alt r1 r2 =>
      match run r1 s caps k with
      | Some x => Some x
      | None => run r2 s caps k
      end
  | Empty => k s caps
  | Opt r1 =>
      (* one iteration first (an empty iteration is refused), then none *)
      match run r1 s caps
                (fun s1 caps1 =>
                   if Nat.eqb (String.length s1) (String.length s)
                   then None else k s1 caps1) with
      | Some x => Some x
      | None => k s caps
      end
  | Plus p => plus_greedy p s (fun s1 => k s1 caps)
  | StarLazy p => star_lazy p s (fun s1 => k s1 caps)
  | Group n r1 =>
      run r1 s caps (fun s1 caps1 => k s1 ((n, consumed s s1) :: caps1))
  end.
End Matcher.

(** The result of [String.prototype.match] with a pattern without the
    [g] flag: the index of the match, the matched text and the groups. *)
Record match_result : Type := MatchResult {
  index : nat;
  matched : string;
  groups : captures
}.

Definition match_here (r : regex) (i : nat) (s : string) : option match_result :=
  run r s [] (fun s' caps => Some (MatchResult i (consumed s s') caps)).

(** The leftmost start index at which the pattern matches. *)
Fixpoint match_from (r : regex) (i : nat) (s : string) : option match_result :=
  match match_here r i s with
  | Some m => Some m
  | None =>
      match s with
      | String _ s' => match_from r (S i) s'
      | EmptyString => None
      end
  end.

Definition str_match (s : string) (r : regex) : option match_result :=
  match_from r 0 s.

(** *** Pattern atoms *)

Definition char (c : ascii) : regex := Class (Ascii.eqb c).

(** [Canonicalize] under the [i] flag, on the code units the patterns of
    this program name: ASCII letters are compared by their upper case; a
    code unit above 127 never canonicalizes to an ASCII one. *)
Definition canonicalize (c : ascii) : ascii :=
  let n := nat_of_ascii c in
  if ((97 <=? n) && (n <=? 122))%nat then ascii_of_nat (n - 32) else c.

Definition char_i (c : ascii) : regex :=
  Class (fun x => Ascii.eqb (canonicalize x) (canonicalize c)).

Fixpoint lit_with (atom : ascii -> regex) (s : string) : regex :=
  match s with
  | EmptyString => Empty
  | String c s' => Seq (atom c) (lit_with atom s')
  end.

Definition lit : string -> regex := lit_with char.
Definition lit_i : string -> regex := lit_with char_i.

(** [\w]: ASCII letters, digits and the underscore. *)
Definition word_char (c : ascii) : bool :=
  let n := nat_of_ascii c in
  (((97 <=? n) && (n <=? 122)) || ((65 <=? n) && (n <=? 90))
   || ((48 <=? n) && (n <=? 57)) || (n =? 95))%nat.

(** [[\s\S]]: any code unit. *)
Definition any_char (c : ascii) : bool := true.

Definition newline : ascii := ascii_of_nat 10.

End Regex.

(* ================================================================= *)
(** ** [App.tsx]: context extraction *)

Module App.
Import Regex.

(** The [context] object ([const context: any = {}]): its own properties
    in insertion order; a value is a string or [undefined] ([None]). *)
Definition JsObject := list (string * option string).

Fixpoint set_prop (key : string) (v : option string) (o : JsObject) : JsObject :=
  match o with
  | [] => [(key, v)]
  | (k, w) :: rest =>
      if String.eqb k key then (k, v) :: rest else (k, w) :: set_prop key v rest
  end.

Fixpoint get_prop (key : string) (o : JsObject) : option (option string) :=
  match o with
  | [] => None
  | (k, w) :: rest => if String.eqb k key then Some w else get_prop key rest
  end.

Definition has_prop (key : string) (o : JsObject) : bool :=
  match get_prop key o with Some _ => true | None => false end.

(** [Object.keys]. *)
Definition keys (o : JsObject) : list string := map fst o.

(** The pattern [```(\w+)?\n([\s\S]*?)```]. *)
Definition code_block_pattern : regex :=
  Seq (lit "```")
      (Seq (Opt (Group 1 (Plus word_char)))
           (Seq (char newline)
                (Seq (Group 2 (StarLazy any_char))
                     (lit "```")))).

Definition error_keywords : list string :=
  ["error"; "exception"; "failed"; "undefined"; "null"; "cannot"].

(** The pattern [(error|exception|failed|undefined|null|cannot)] with the
    [i] flag. *)
Definition error_pattern : regex :=
  Group 1
    (Alt (lit_i "error")
    (Alt (lit_i "exception")
    (Alt (lit_i "failed")
    (Alt (lit_i "undefined")
    (Alt (lit_i "null")
         (lit_i "cannot")))))).

Definition extractContext (message category : string) : option JsObject :=
  let context : JsObject := [] in
  (* Extract code snippets (basic detection) *)
  let codeMatch := str_match message code_block_pattern in
  let context :=
    match codeMatch with
    | Some m =>
        let context :=
          set_prop "language"
                   (Some (Js.or_else (capture 1 (groups m)) "javascript")) context in
        set_prop "codeSnippet" (capture 2 (groups m)) context
    | None => context
    end in
  (* Extract error messages *)
  let errorMatch := str_match message error_pattern in
  let context :=
    match errorMatch with
    | Some _ =>
        if String.eqb category "bug-fix"
        then set_prop "errorMessage" (Some message) context
        else context
    | None => context
    end in
  if (0 <? List.length (keys context))%nat then Some context else None.

End App.

(* ================================================================= *)
(** ** [types/api.ts] *)

Module Types.

Inductive Category : Type := BugFix | Learning | General.

Definition category_name (c : Category) : string :=
  match c with
  | BugFix => "bug-fix"
  | Learning => "learning"
  | General => "general"
  end.

Inductive Sender : Type := User | Ai.

(** JSON numbers are stored and handed on, never computed with. *)
Definition number := Z.

(** A [Date] object: made by [new Date()] from a clock reading, or by
    [new Date(s)] from a string (its time value is then [Date.parse(s)]). *)
Inductive Date : Type :=
| DateOfTime (t : Z)
| DateOfString (s : string).

Record ResponseMetadata : Type := {
  model : string;
  tokens : number;
  processingTime : number;
  confidence : option number
}.

(** The [metadata] of a message: every property is optional. *)
Record MessageMetadata : Type := {
  m_model : option string;
  m_tokens : option number;
  m_processingTime : option number
}.

(** The metadata of a response, at the type of the metadata of a message
    ([metadata: response.metadata]). *)
Definition as_MessageMetadata (m : ResponseMetadata) : MessageMetadata :=
  {| m_model := Some (model m);
     m_tokens := Some (tokens m);
     m_processingTime := Some (processingTime m) |}.

(** [type?: 'text' | 'code' | 'file'] *)
Inductive MessageType : Type := TextType | CodeType | FileType.

(** A chat message; [TS] is the type of its timestamp: an optional string
    on the wire, a [Date] in the session. *)
Record Message (TS : Type) : Type := {
  id : string;
  content : string;
  sender : Sender;
  timestamp : TS;
  type : option MessageType;
  category : option Category;
  metadata : option MessageMetadata
}.

Definition WireMessage := Message (option string).
Definition ChatMessage := Message Date.

Record ChatRequest : Type := {
  message : string;
  conversationId : string;
  req_category : Category;
  context : option App.JsObject
}.

Record CodeExample : Type := {
  ce_language : string;
  ce_code : string;
  ce_explanation : string
}.

Record ChatResponse : Type := {
  res_id : string;
  res_content : string;
  res_timestamp : string;
  res_metadata : ResponseMetadata;
  suggestions : option (list string);
  codeExamples : option (list CodeExample)
}.

Record ConversationSummary : Type := {
  conv_id : string;
  title : string;
  lastMessage : string;
  conv_category : Category;
  messageCount : number;
  createdAt : string;
  updatedAt : string
}.

End Types.

(* ================================================================= *)
(** ** Objects the client builds *)

Module Obj.

(** What a property of an object literal of the client holds: a value of
    the body, a [Date], or [undefined]. *)
Inductive Field : Type :=
| Plain (v : Json.Value)
| DateValue (d : Types.Date)
| Undefined.

(** An object by its own properties, in insertion order. *)
Definition Object := list (string * Field).

Fixpoint get (key : string) (o : Object) : option Field :=
  match o with
  | [] => None
  | (k, f) :: rest => if String.eqb k key then Some f else get key rest
  end.

(** [{...o, key: f}]: a property that is there keeps its place. *)
Fixpoint set (key : string) (f : Field) (o : Object) : Object :=
  match o with
  | [] => [(key, f)]
  | (k, g) :: rest =>
      if String.eqb k key then (k, f) :: rest else (k, g) :: set key f rest
  end.

Definition of_props (props : list (string * Json.Value)) : Object :=
  map (fun kv => (fst kv, Plain (snd kv))) props.

(** [{...v}] *)
Definition spread (v : Json.Value) : Object := of_props (Json.spread v).

(** The value of a property that was read ([undefined] when [None]). *)
Definition of_property (p : option Json.Value) : Field :=
  match p with
  | Some v => Plain v
  | None => Undefined
  end.

End Obj.

(* ================================================================= *)
(** ** Values at their declared types

    The types of [types/api.ts] are erased when the client runs: a body is
    whatever JSON the backend sent.  The functions below read a value at
    the type the source declares for it, and give [None] for a value that
    is not of that type.  A property that the type does not name is
    allowed and not read. *)

Module Declared.
Import Types.

Definition and_then {A B : Type} (a : option A) (f : A -> option B) : option B :=
  match a with
  | Some x => f x
  | None => None
  end.

Local Notation "x <-? a ;; b" := (and_then a (fun x => b))
  (at level 61, a at next level, right associativity).

Fixpoint traverse {A B : Type} (f : A -> option B) (l : list A)
  : option (list B) :=
  match l with
  | [] => Some []
  | a :: l' => b <-? f a ;; bs <-? traverse f l' ;; Some (b :: bs)
  end.

Definition a_string (v : Json.Value) : option string :=
  match v with
  | Json.Str s => Some s
  | _ => None
  end.

Definition as_string (f : option Obj.Field) : option string :=
  match f with
  | Some (Obj.Plain v) => a_string v
  | _ => None
  end.

Definition as_number (f : option Obj.Field) : option number :=
  match f with
  | Some (Obj.Plain (Json.Number n)) => Some n
  | _ => None
  end.

Definition as_Date (f : option Obj.Field) : option Date :=
  match f with
  | Some (Obj.DateValue d) => Some d
  | _ => None
  end.

Definition as_object (f : option Obj.Field) : option Obj.Object :=
  match f with
  | Some (Obj.Plain (Json.Object props)) => Some (Obj.of_props props)
  | _ => None
  end.

Definition as_array {A : Type} (item : Json.Value -> option A)
           (f : option Obj.Field) : option (list A) :=
  match f with
  | Some (Obj.Plain (Json.Array items)) => traverse item items
  | _ => None
  end.

(** [key?: A]: the property is not there, or is [undefined], or is an
    [A]. *)
Definition optional {A : Type} (as_A : option Obj.Field -> option A)
           (f : option Obj.Field) : option (option A) :=
  match f with
  | None => Some None
  | Some Obj.Undefined => Some None
  | Some _ => a <-? as_A f ;; Some (Some a)
  end.

Definition Category_of_name (s : string) : option Category :=
  if String.eqb s "bug-fix" then Some BugFix
  else if String.eqb s "learning" then Some Learning
  else if String.eqb s "general" then Some General
  else None.

Definition Sender_of_name (s : string) : option Sender :=
  if String.eqb s "user" then Some User
  else if String.eqb s "ai" then Some Ai
  else None.

Definition MessageType_of_name (s : string) : option MessageType :=
  if String.eqb s "text" then Some TextType
  else if String.eqb s "code" then Some CodeType
  else if String.eqb s "file" then Some FileType
  else None.

Definition as_Category (f : option Obj.Field) : option Category :=
  s <-? as_string f ;; Category_of_name s.

Definition as_Sender (f : option Obj.Field) : option Sender :=
  s <-? as_string f ;; Sender_of_name s.

Definition as_MessageType (f : option Obj.Field) : option MessageType :=
  s <-? as_string f ;; MessageType_of_name s.

Definition as_ResponseMetadata (f : option Obj.Field) : option ResponseMetadata :=
  o <-? as_object f ;;
  model <-? as_string (Obj.get "model" o) ;;
  tokens <-? as_number (Obj.get "tokens" o) ;;
  processingTime <-? as_number (Obj.get "processingTime" o) ;;
  confidence <-? optional as_number (Obj.get "confidence" o) ;;
  Some {| model := model; tokens := tokens;
          processingTime := processingTime; confidence := confidence |}.

Definition as_MessageMetadata (f : option Obj.Field) : option MessageMetadata :=
  o <-? as_object f ;;
  model <-? optional as_string (Obj.get "model" o) ;;
  tokens <-? optional as_number (Obj.get "tokens" o) ;;
  processingTime <-? optional as_number (Obj.get "processingTime" o) ;;
  Some {| m_model := model; m_tokens := tokens;
          m_processingTime := processingTime |}.

Definition a_CodeExample (v : Json.Value) : option CodeExample :=
  match v with
  | Json.Object props =>
      let o := Obj.of_props props in
      language <-? as_string (Obj.get "language" o) ;;
      code <-? as_string (Obj.get "code" o) ;;
      explanation <-? as_string (Obj.get "explanation" o) ;;
      Some {| ce_language := language; ce_code := code;
              ce_explanation := explanation |}
  | _ => None
  end.

Definition as_ChatResponse (o : Obj.Object) : option ChatResponse :=
  id <-? as_string (Obj.get "id" o) ;;
  content <-? as_string (Obj.get "content" o) ;;
  timestamp <-? as_string (Obj.get "timestamp" o) ;;
  metadata <-? as_ResponseMetadata (Obj.get "metadata" o) ;;
  suggestions <-? optional (as_array a_string) (Obj.get "suggestions" o) ;;
  codeExamples <-? optional (as_array a_CodeExample) (Obj.get "codeExamples" o) ;;
  Some {| res_id := id; res_content := content; res_timestamp := timestamp;
          res_metadata := metadata; suggestions := suggestions;
          codeExamples := codeExamples |}.

Definition as_ChatMessage (o : Obj.Object) : option ChatMessage :=
  id <-? as_string (Obj.get "id" o) ;;
  content <-? as_string (Obj.get "content" o) ;;
  sender <-? as_Sender (Obj.get "sender" o) ;;
  timestamp <-? as_Date (Obj.get "timestamp" o) ;;
  type <-? optional as_MessageType (Obj.get "type" o) ;;
  category <-? optional as_Category (Obj.get "category" o) ;;
  metadata <-? optional as_MessageMetadata (Obj.get "metadata" o) ;;
  Some {| id := id; content := content; sender := sender;
          timestamp := timestamp; type := type; category := category;
          metadata := metadata |}.

Definition as_ConversationSummary (o : Obj.Object) : option ConversationSummary :=
  id <-? as_string (Obj.get "id" o) ;;
  title <-? as_string (Obj.get "title" o) ;;
  lastMessage <-? as_string (Obj.get "lastMessage" o) ;;
  category <-? as_Category (Obj.get "category" o) ;;
  messageCount <-? as_number (Obj.get "messageCount" o) ;;
  createdAt <-? as_string (Obj.get "createdAt" o) ;;
  updatedAt <-? as_string (Obj.get "updatedAt" o) ;;
  Some {| conv_id := id; title := title; lastMessage := lastMessage;
          conv_category := category; messageCount := messageCount;
          createdAt := createdAt; updatedAt := updatedAt |}.

(** A body at the type of a record: only an object has the properties. *)
Definition a_ConversationSummary (v : Json.Value) : option ConversationSummary :=
  match v with
  | Json.Object props => as_ConversationSummary (Obj.of_props props)
  | _ => None
  end.

(** A body at the type [ConversationSummary[]]. *)
Definition a_ConversationSummary_list (v : Json.Value)
  : option (list ConversationSummary) :=
  match v with
  | Json.Array items => traverse a_ConversationSummary items
  | _ => None
  end.

(** A body at the type [{ status: string; models: string[] }]. *)
Definition a_Health (v : Json.Value) : option (string * list string) :=
  match v with
  | Json.Object props =>
      let o := Obj.of_props props in
      status <-? as_string (Obj.get "status" o) ;;
      models <-? as_array a_string (Obj.get "models" o) ;;
      Some (status, models)
  | _ => None
  end.

(** A body at the type [void]: any value, which nothing reads. *)
Definition a_void (v : Json.Value) : option unit := Some tt.

End Declared.

(* ================================================================= *)
(** ** Asynchronous programs *)

Module Async.

(** The [details] of an [ApiError]: the body of the error response, or
    the error that was caught, named by its class. *)
Inductive ErrorDetails : Type :=
| DetailsBody (errorData : Json.Value)
| DetailsCause (name : string).

(** [class ApiError extends Error].  The message is a string, whatever
    the constructor was given; the code is the value it was given. *)
Record ApiError : Type := {
  message : string;
  code : Json.Value;
  details : ErrorDetails
}.

(** [new ApiError(message, code, details)]: [super(message)] stores
    [String(message)]. *)
Definition new_ApiError (message code : Json.Value) (details : ErrorDetails)
  : ApiError :=
  {| message := Json.to_string message; code := code; details := details |}.

(** What a [throw] carries: an [ApiError], or an error of the runtime
    named by its class. *)
Inductive Exn : Type :=
| ExnApi (e : ApiError)
| ExnOther (name : string).

Inductive Body : Type :=
| JsonChatRequest (r : Types.ChatRequest)
| JsonCreate (title category : string).

Record RequestInit : Type := {
  method : option string;
  headers : option (list (string * string));
  body : option Body
}.

Record Request : Type := { url : string; config : RequestInit }.

(** A [Response]: [json] is what [response.json()] resolves to, [None]
    when it rejects (a body that is not JSON, or no body). *)
Record Response : Type := {
  ok : bool;
  status : nat;
  statusText : string;
  json : option Json.Value
}.

(** What becomes of [fetch(url, config)]: the promise is rejected with an
    error of the class [name], or resolves to a response. *)
Inductive FetchResult : Type :=
| FetchRejected (name : string)
| FetchResolved (r : Response).

Inductive Output : Type :=
| ConsoleError (label : string) (e : Exn)
| OnError (e : ApiError).

Section Programs.
(** [St]: the state of the hook.  The programs are typed as the source
    is; [Mistyped] is a program into which a value has come that is not of
    the type the source declares for it: what the code does from there is
    outside this model, and nothing is said of it. *)
Variable St : Type.

Inductive Prog (R : Type) : Type :=
| Ret (r : R)
| Throw (e : Exn)
| Mistyped
| Upd (f : St -> St) (k : Prog R)
| Read (k : St -> Prog R)
| Now (k : Z -> Prog R)
| Emit (o : Output) (k : Prog R)
| Fetch (rq : Request) (k : FetchResult -> Prog R)
| Spawn (p : Prog unit) (k : Prog R).

Arguments Throw {R} e.
Arguments Mistyped {R}.

Fixpoint bind {A B : Type} (p : Prog A) (f : A -> Prog B) : Prog B :=
  match p with
  | Ret r => f r
  | Throw e => Throw e
  | Mistyped => Mistyped
  | Upd g k => Upd g (bind k f)
  | Read k => Read (fun s => bind (k s) f)
  | Now k => Now (fun t => bind (k t) f)
  | Emit o k => Emit o (bind k f)
  | Fetch rq k => Fetch rq (fun o => bind (k o) f)
  | Spawn p' k => Spawn p' (bind k f)
  end.

(** [try { p } catch (error) { h error }] *)
Fixpoint try_catch {A : Type} (p : Prog A) (h : Exn -> Prog A) : Prog A :=
  match p with
  | Ret r => Ret r
  | Throw e => h e
  | Mistyped => Mistyped
  | Upd g k => Upd g (try_catch k h)
  | Read k => Read (fun s => try_catch (k s) h)
  | Now k => Now (fun t => try_catch (k t) h)
  | Emit o k => Emit o (try_catch k h)
  | Fetch rq k => Fetch rq (fun o => try_catch (k o) h)
  | Spawn p' k => Spawn p' (try_catch k h)
  end.

(** [try { p } finally { c }] *)
Fixpoint try_finally {A : Type} (p : Prog A) (c : Prog unit) : Prog A :=
  match p with
  | Ret r => bind c (fun _ => Ret r)
  | Throw e => bind c (fun _ => Throw e)
  | Mistyped => Mistyped
  | Upd g k => Upd g (try_finally k c)
  | Read k => Read (fun s => try_finally (k s) c)
  | Now k => Now (fun t => try_finally (k t) c)
  | Emit o k => Emit o (try_finally k c)
  | Fetch rq k => Fetch rq (fun o => try_finally (k o) c)
  | Spawn p' k => Spawn p' (try_finally k c)
  end.

Definition update (f : St -> St) : Prog unit := Upd f (Ret tt).
Definition read : Prog St := Read (fun s => Ret s).
Definition emit (o : Output) : Prog unit := Emit o (Ret tt).
(** [Date.now()] and the time value of [new Date()]. *)
Definition now : Prog Z := Now (fun t => Ret t).
(** [await fetch(url, config)]: the response, or a rejection thrown. *)
Definition fetch (url : string) (config : RequestInit) : Prog Response :=
  Fetch {| url := url; config := config |}
        (fun o =>
           match o with
           | FetchRejected name => Throw (ExnOther name)
           | FetchResolved r => Ret r
           end).
(** A call of an async function whose promise is dropped. *)
Definition spawn (p : Prog unit) : Prog unit := Spawn p (Ret tt).

(** *** Running a program *)

Definition Task : Type := (Request * (FetchResult -> Prog unit))%type.

Record World : Type := {
  hook : St;                 (* the state of the hook *)
  clock : nat -> Z;          (* the readings of the clock, in order *)
  reads : nat;               (* how many were taken *)
  outputs : list Output;
  pending : list Task        (* dropped promises waiting for a response *)
}.

(** How far a run got: to the end, to a [throw] that nothing caught, to a
    request that waits for its response, or out of the model. *)
Inductive Status (R : Type) : Type :=
| Finished (r : R)
| Failed (e : Exn)
| Suspended (rq : Request) (k : FetchResult -> Prog R)
| Untyped.

Arguments Failed {R} e.
Arguments Untyped {R}.

Definition set_hook (f : St -> St) (w : World) : World :=
  {| hook := f (hook w); clock := clock w; reads := reads w;
     outputs := outputs w; pending := pending w |}.
Definition tick (w : World) : World :=
  {| hook := hook w; clock := clock w; reads := S (reads w);
     outputs := outputs w; pending := pending w |}.
Definition add_output (o : Output) (w : World) : World :=
  {| hook := hook w; clock := clock w; reads := reads w;
     outputs := outputs w ++ [o]; pending := pending w |}.
Definition add_pending (t : Task) (w : World) : World :=
  {| hook := hook w; clock := clock w; reads := reads w;
     outputs := outputs w; pending := pending w ++ [t] |}.

(** [n] more readings of the clock. *)
Definition advance (n : nat) (w : World) : World :=
  {| hook := hook w; clock := clock w; reads := reads w + n;
     outputs := outputs w; pending := pending w |}.

(** Runs [p] to its end or to its next [Fetch]. *)
Fixpoint run {R : Type} (p : Prog R) (w : World) : World * Status R :=
  match p with
  | Ret r => (w, Finished r)
  | Throw e => (w, Failed e)
  | Mistyped => (w, Untyped)
  | Upd f k => run k (set_hook f w)
  | Read k => run (k (hook w)) w
  | Now k => run (k (clock w (reads w))) (tick w)
  | Emit o k => run k (add_output o w)
  | Fetch rq k => (w, Suspended rq k)
  | Spawn p' k =>
      let (w1, s) := run p' w in
      match s with
      | Suspended rq k' => run k (add_pending (rq, k') w1)
      | Untyped => (w1, Untyped)
      | _ => run k w1
      end
  end.

(** The response [o] arrives for a suspended program, in world [w]. *)
Definition resume {R : Type} (s : Status R) (o : FetchResult) (w : World)
  : World * Status R :=
  match s with
  | Suspended _ k => run (k o) w
  | _ => (w, s)
  end.

(** The rest of a program that starts with a request, once the transport
    has answered it with [o]. *)
Definition answer {R : Type} (p : Prog R) (o : FetchResult) : Prog R :=
  match p with
  | Fetch _ k => k o
  | _ => p
  end.

(** [p] is called in world [w] and suspends on its request; the response
    [o] arrives when the world has become [w1]. *)
Definition answered {R : Type} (p : Prog R) (w : World) (o : FetchResult)
           (w1 : World) : World * Status R :=
  resume (snd (run p w)) o w1.

Definition issued {R : Type} (s : Status R) : option Request :=
  match s with
  | Suspended rq _ => Some rq
  | _ => None
  end.

End Programs.

Arguments Ret {St R} r.
Arguments Throw {St R} e.
Arguments Mistyped {St R}.
Arguments Upd {St R} f k.
Arguments Read {St R} k.
Arguments Now {St R} k.
Arguments Emit {St R} o k.
Arguments Fetch {St R} rq k.
Arguments Spawn {St R} p k.
Arguments update {St} f.
Arguments read {St}.
Arguments emit {St} o.
Arguments now {St}.
Arguments fetch {St} url config.
Arguments spawn {St} p.
Arguments answer {St R} p o.
Arguments answered {St R} p w o w1.
Arguments Finished {St R} r.
Arguments Failed {St R} e.
Arguments Suspended {St R} rq k.
Arguments Untyped {St R}.

Declare Scope prog_scope.
Delimit Scope prog_scope with prog.
Notation "x <- p ;; q" := (bind p (fun x => q))
  (at level 61, p at next level, right associativity) : prog_scope.
Notation "p ;; q" := (bind p (fun _ => q))
  (at level 61, right associativity) : prog_scope.

End Async.

(* ================================================================= *)
(** ** [services/api.ts]: the API client *)

Module ApiService.
Import Types Async.
Local Open Scope prog_scope.

(** [URLSearchParams.prototype.toString] for one pair: the
    application/x-www-form-urlencoded serializer. *)
Definition hex_digit (n : nat) : ascii :=
  ascii_of_nat (if (n <? 10)%nat then 48 + n else 55 + n).

Definition percent_byte (n : nat) : string :=
  String "%" (String (hex_digit (n / 16)) (String (hex_digit (n mod 16)) EmptyString)).

Definition form_unreserved (c : ascii) : bool :=
  let n := nat_of_ascii c in
  (((97 <=? n) && (n <=? 122)) || ((65 <=? n) && (n <=? 90))
   || ((48 <=? n) && (n <=? 57))
   || (n =? 42) || (n =? 45) || (n =? 46) || (n =? 95))%nat.

Definition form_encode_char (c : ascii) : string :=
  let n := nat_of_ascii c in
  if form_unreserved c then String c EmptyString
  else if (n =? 32)%nat then "+"
  else if (n <? 128)%nat then percent_byte n
  else percent_byte (192 + n / 64) ++ percent_byte (128 + n mod 64).

Fixpoint form_encode (s : string) : string :=
  match s with
  | EmptyString => EmptyString
  | String c s' => form_encode_char c ++ form_encode s'
  end.

Definition URLSearchParams (key value : string) : string :=
  form_encode key ++ "=" ++ form_encode value.

Definition no_options : RequestInit :=
  {| method := None; headers := None; body := None |}.

Definition NETWORK_MESSAGE : string :=
  "Failed to connect to the AI service. Please check your connection.".

Definition exn_name (e : Exn) : string :=
  match e with
  | ExnApi _ => "ApiError"
  | ExnOther n => n
  end.

Section Service.
Variable St : Type.
(** [import.meta.env.VITE_API_URL || ''] *)
Variable API_BASE_URL : string.

(** [await response.json()] *)
Definition response_json (response : Response) : Prog St Json.Value :=
  match json response with
  | Some v => Ret v
  | None => Throw (ExnOther "SyntaxError")
  end.

(** [v.key]: reading a property of [null] throws. *)
Definition get_prop (key : string) (v : Json.Value)
  : Prog St (option Json.Value) :=
  match v with
  | Json.Null => Throw (ExnOther "TypeError")
  | _ => Ret (Json.lookup key v)
  end.

(** [request<T>]: the [T] is erased, and what is returned is the body
    whatever it is. *)
Definition request (endpoint : string) (options : RequestInit)
  : Prog St Json.Value :=
  let url := API_BASE_URL ++ endpoint in
  let config : RequestInit :=
    {| headers :=
         match headers options with
         | Some h => Some h
         | None => Some [("Content-Type", "application/json")]
         end;
       method := method options;
       body := body options |} in
  try_catch
    (response <- fetch url config ;;
     if negb (ok response) then
       errorData <- try_catch (response_json response)
                              (fun _ => Ret (Json.Object [])) ;;
       m <- get_prop "message" errorData ;;
       c <- get_prop "code" errorData ;;
       Throw (ExnApi (new_ApiError
                        (Json.or_else m
                           (Json.Str ("HTTP " ++ Js.of_nat (status response)
                                        ++ ": " ++ statusText response)))
                        (Json.or_else c (Json.Str "HTTP_ERROR"))
                        (DetailsBody errorData)))
     else
       response_json response)
    (fun error =>
       match error with
       | ExnApi _ => Throw error
       | _ =>
           (* Network or parsing errors *)
           Throw (ExnApi (new_ApiError (Json.Str NETWORK_MESSAGE)
                                       (Json.Str "NETWORK_ERROR")
                                       (DetailsCause (exn_name error))))
       end).

(** A value handed on at the type the function declares for it
    ([Promise<ChatResponse>], [as ChatResponse], ...). *)
Definition declared {A B : Type} (as_B : A -> option B) (v : A) : Prog St B :=
  match as_B v with
  | Some b => Ret b
  | None => Mistyped
  end.

Definition sendMessage (req : ChatRequest) : Prog St ChatResponse :=
  res <- request "/api/chat"
                 {| method := Some "POST"; headers := None;
                    body := Some (JsonChatRequest req) |} ;;
  (* Normalize timestamp to Date for UI *)
  timestamp <- get_prop "timestamp" res ;;
  declared Declared.as_ChatResponse
           (Obj.set "timestamp" (Obj.of_property timestamp) (Obj.spread res)).

Definition getConversations : Prog St (list ConversationSummary) :=
  raw <- request "/api/conversations" no_options ;;
  declared Declared.a_ConversationSummary_list raw.

(** [new Date(v)]: a string is parsed, a number is the time value, and
    an array or an object is parsed as its text. *)
Definition new_Date (v : Json.Value) : Date :=
  match v with
  | Json.Str s => DateOfString s
  | Json.Number n => DateOfTime n
  | Json.Bool b => DateOfTime (if b then 1 else 0)
  | Json.Null => DateOfTime 0
  | _ => DateOfString (Json.to_string v)
  end.

(** The callback of [raw.map]:
    [{...m, timestamp: m.timestamp ? new Date(m.timestamp) : new Date()}] *)
Definition with_timestamp (m : Json.Value) : Prog St Obj.Object :=
  timestamp <- get_prop "timestamp" m ;;
  date <- match timestamp with
          | Some v =>
              if Json.truthy v then Ret (new_Date v)
              else t <- now ;; Ret (DateOfTime t)
          | None => t <- now ;; Ret (DateOfTime t)
          end ;;
  Ret (Obj.set "timestamp" (Obj.DateValue date) (Obj.spread m)).

Fixpoint map_prog {A B : Type} (f : A -> Prog St B) (l : list A)
  : Prog St (list B) :=
  match l with
  | [] => Ret []
  | a :: l' => b <- f a ;; bs <- map_prog f l' ;; Ret (b :: bs)
  end.

(** [raw.map(f)]: of the values of JSON only an array has a [map]. *)
Definition array_map {B : Type} (f : Json.Value -> Prog St B) (raw : Json.Value)
  : Prog St (list B) :=
  match raw with
  | Json.Array items => map_prog f items
  | _ => Throw (ExnOther "TypeError")
  end.

Definition getConversation (id : string) : Prog St (list ChatMessage) :=
  raw <- request ("/api/conversations/" ++ id ++ "/messages") no_options ;;
  (* Ensure timestamps are Date instances for UI rendering *)
  messages <- array_map with_timestamp raw ;;
  declared (Declared.traverse Declared.as_ChatMessage) messages.

Definition createConversation (title category : string)
  : Prog St ConversationSummary :=
  raw <- request "/api/conversations"
                 {| method := Some "POST"; headers := None;
                    body := Some (JsonCreate title category) |} ;;
  declared Declared.a_ConversationSummary raw.

Definition deleteConversation (id : string) : Prog St unit :=
  raw <- request ("/api/conversations/" ++ id)
                 {| method := Some "DELETE"; headers := None; body := None |} ;;
  declared Declared.a_void raw.

Definition searchConversations (query : string)
  : Prog St (list ConversationSummary) :=
  let params := URLSearchParams "q" query in
  raw <- request ("/api/conversations/search?" ++ params) no_options ;;
  declared Declared.a_ConversationSummary_list raw.

Definition healthCheck : Prog St (string * list string) :=
  raw <- request "/api/health" no_options ;;
  declared Declared.a_Health raw.

End Service.

End ApiService.

(* ================================================================= *)
(** ** [hooks/useConversations]: the conversation registry *)

Module UseConversations.
Import Types Async.
Local Open Scope prog_scope.

Record State : Type := {
  conversations : list ConversationSummary;
  isLoading : bool;
  error : option string
}.

(** [useState([])], [useState(false)], [useState(null)] *)
Definition initial : State :=
  {| conversations := []; isLoading := false; error := None |}.

Section Hook.
Variable API_BASE_URL : string.

Definition setConversations
           (f : list ConversationSummary -> list ConversationSummary)
  : Prog State unit :=
  update (fun s => {| conversations := f (conversations s);
                      isLoading := isLoading s; error := error s |}).

Definition setIsLoading (b : bool) : Prog State unit :=
  update (fun s => {| conversations := conversations s;
                      isLoading := b; error := error s |}).

Definition setError (e : option string) : Prog State unit :=
  update (fun s => {| conversations := conversations s;
                      isLoading := isLoading s; error := e |}).
End Hook.


Section Operations.
Variable API_BASE_URL : string.

Definition loadConversations : Prog State unit :=
  try_finally
    (try_catch
       (setIsLoading true ;;
        setError None ;;
        data <- ApiService.getConversations State API_BASE_URL ;;
        setConversations (fun _ => data))
       (fun err =>
          emit (ConsoleError "Failed to load conversations:" err) ;;
          match err with
          | ExnApi e => setError (Some (message e))
          | _ => setError (Some "Failed to load conversations")
          end))
    (setIsLoading false).

Definition createConversation (title : string) (category : Category)
  : Prog State ConversationSummary :=
  try_catch
    (newConversation <-
       ApiService.createConversation State API_BASE_URL title
                                     (category_name category) ;;
     setConversations (fun prev => newConversation :: prev) ;;
     Ret newConversation)
    (fun err =>
       emit (ConsoleError "Failed to create conversation:" err) ;;
       match err with
       | ExnApi e => setError (Some (message e))
       | _ => Ret tt
       end ;;
       Throw err).

Definition deleteConversation (id : string) : Prog State unit :=
  try_catch
    (ApiService.deleteConversation State API_BASE_URL id ;;
     setConversations
       (fun prev => filter (fun conv => negb (String.eqb (conv_id conv) id)) prev))
    (fun err =>
       emit (ConsoleError "Failed to delete conversation:" err) ;;
       match err with
       | ExnApi e => setError (Some (message e))
       | _ => Ret tt
       end).

Definition searchConversations (query : string)
  : Prog State unit :=
  if negb (Js.truthy (Js.trim query)) then
    spawn loadConversations ;;
    Ret tt
  else
    try_finally
      (try_catch
         (setIsLoading true ;;
          results <- ApiService.searchConversations State API_BASE_URL query ;;
          setConversations (fun _ => results))
         (fun err =>
            emit (ConsoleError "Failed to search conversations:" err) ;;
            match err with
            | ExnApi e => setError (Some (message e))
            | _ => Ret tt
            end))
      (setIsLoading false).

(** [useEffect(() => { loadConversations(); }, [loadConversations])] *)
Definition on_mount : Prog State unit :=
  spawn loadConversations.

End Operations.

End UseConversations.

(* ================================================================= *)
(** ** [hooks/useChat]: the chat session *)

Module UseChat.
Import Types Async.
Local Open Scope prog_scope.

(** The state of the hook: the three [useState] cells, the
    [abortControllerRef] cell, and the [AbortController] objects made so
    far, each by the [aborted] flag of its signal. *)
Record State : Type := {
  messages : list ChatMessage;
  isLoading : bool;
  isConnected : bool;
  abortControllerRef : option nat;
  controllers : list bool
}.

Definition initial : State :=
  {| messages := []; isLoading := false; isConnected := true;
     abortControllerRef := None; controllers := [] |}.

Record UseChatOptions : Type := {
  conversationId : string;
  onError : bool            (* whether an [onError] handler is given *)
}.

Section Setters.

Definition setMessages (f : list ChatMessage -> list ChatMessage)
  : Prog State unit :=
  update (fun s => {| messages := f (messages s); isLoading := isLoading s;
                      isConnected := isConnected s;
                      abortControllerRef := abortControllerRef s;
                      controllers := controllers s |}).

Definition setIsLoading (b : bool) : Prog State unit :=
  update (fun s => {| messages := messages s; isLoading := b;
                      isConnected := isConnected s;
                      abortControllerRef := abortControllerRef s;
                      controllers := controllers s |}).

Definition setIsConnected (b : bool) : Prog State unit :=
  update (fun s => {| messages := messages s; isLoading := isLoading s;
                      isConnected := b;
                      abortControllerRef := abortControllerRef s;
                      controllers := controllers s |}).

(** [abortControllerRef.current = c] *)
Definition set_abortControllerRef (c : option nat) : Prog State unit :=
  update (fun s => {| messages := messages s; isLoading := isLoading s;
                      isConnected := isConnected s;
                      abortControllerRef := c;
                      controllers := controllers s |}).

Fixpoint set_flag (n : nat) (l : list bool) : list bool :=
  match l, n with
  | [], _ => []
  | _ :: l', O => true :: l'
  | b :: l', S n' => b :: set_flag n' l'
  end.

(** [controller.abort()] *)
Definition abort (c : nat) : Prog State unit :=
  update (fun s => {| messages := messages s; isLoading := isLoading s;
                      isConnected := isConnected s;
                      abortControllerRef := abortControllerRef s;
                      controllers := set_flag c (controllers s) |}).

(** [new AbortController()] *)
Definition new_AbortController : Prog State nat :=
  s <- read ;;
  update (fun s => {| messages := messages s; isLoading := isLoading s;
                      isConnected := isConnected s;
                      abortControllerRef := abortControllerRef s;
                      controllers := controllers s ++ [false] |}) ;;
  Ret (List.length (controllers s)).

(** [onError?.(error)] *)
Definition call_onError (options : UseChatOptions) (e : ApiError)
  : Prog State unit :=
  if onError options then emit (OnError e) else Ret tt.
End Setters.


Section Hook.
Variable API_BASE_URL : string.
Variable options : UseChatOptions.

(** The callback [sendMessage] of a render in which [isLoading] had the
    value [isLoading_]; [category] and [context] are optional. *)
Definition sendMessage (isLoading_ : bool)
           (content : string) (category : option Category)
           (context : option App.JsObject)
  : Prog State unit :=
  let category := match category with Some c => c | None => General end in
  if negb (Js.truthy (Js.trim content)) || isLoading_ then Ret tt
  else
    (* Add user message immediately *)
    t_id <- now ;;
    t_ts <- now ;;
    let userMessage : ChatMessage :=
      {| id := "user-" ++ Js.of_Z t_id;
         content := content;
         sender := User;
         timestamp := DateOfTime t_ts;
         type := None;
         category := Some category;
         metadata := None |} in
    setMessages (fun prev => (prev ++ [userMessage])%list) ;;
    setIsLoading true ;;
    (* Cancel any ongoing request *)
    s <- read ;;
    match abortControllerRef s with
    | Some c => abort c
    | None => Ret tt
    end ;;
    c <- new_AbortController ;;
    set_abortControllerRef (Some c) ;;
    try_finally
      (try_catch
         (let request : ChatRequest :=
            {| Types.message := content;
               Types.conversationId := conversationId options;
               req_category := category;
               context := context |} in
          response <- ApiService.sendMessage State API_BASE_URL request ;;
          let aiMessage : ChatMessage :=
            {| id := res_id response;
               content := res_content response;
               sender := Ai;
               timestamp := DateOfString (res_timestamp response);
               type := None;
               category := Some category;
               metadata := Some (as_MessageMetadata (res_metadata response)) |} in
          setMessages (fun prev => (prev ++ [aiMessage])%list) ;;
          setIsConnected true)
         (fun error =>
            emit (ConsoleError "Failed to send message:" error) ;;
            match error with
            | ExnApi e =>
                setIsConnected (negb (Json.is_string "NETWORK_ERROR" (code e))) ;;
                call_onError options e ;;
                (* Add error message to chat *)
                t_id <- now ;;
                t_ts <- now ;;
                let errorMessage : ChatMessage :=
                  {| id := "error-" ++ Js.of_Z t_id;
                     content := "Sorry, I encountered an error: "
                                  ++ Async.message e ++ ". Please try again.";
                     sender := Ai;
                     timestamp := DateOfTime t_ts;
                     type := None;
                     category := Some General;
                     metadata := None |} in
                setMessages (fun prev => (prev ++ [errorMessage])%list)
            | _ => Ret tt
            end))
      (setIsLoading false ;;
       set_abortControllerRef None).

Definition loadConversation (id : string)
  : Prog State unit :=
  try_finally
    (try_catch
       (setIsLoading true ;;
        conversationMessages <-
          ApiService.getConversation State API_BASE_URL id ;;
        setMessages (fun _ => conversationMessages) ;;
        setIsConnected true)
       (fun error =>
          emit (ConsoleError "Failed to load conversation:" error) ;;
          match error with
          | ExnApi e =>
              setIsConnected (negb (Json.is_string "NETWORK_ERROR" (code e))) ;;
              call_onError options e
          | _ => Ret tt
          end))
    (setIsLoading false).

Definition clearMessages : Prog State unit :=
  setMessages (fun _ => []).

(** What a render of the hook in state [s] returns: the state cells and
    the callbacks closed over them. *)
Record Rendered : Type := {
  r_messages : list ChatMessage;
  r_isLoading : bool;
  r_isConnected : bool;
  r_sendMessage : string -> option Category -> option App.JsObject ->
                  Prog State unit;
  r_loadConversation : string -> Prog State unit;
  r_clearMessages : Prog State unit
}.

Definition useChat (s : State) : Rendered :=
  {| r_messages := messages s;
     r_isLoading := isLoading s;
     r_isConnected := isConnected s;
     r_sendMessage := sendMessage (isLoading s);
     r_loadConversation := loadConversation;
     r_clearMessages := clearMessages |}.

End Hook.

End UseChat.

(* ================================================================= *)
(** ** [App.tsx]: the parts of a rendered message *)

Module Render.
Import Regex.

(** [s.slice(n)] with [n] within the string. *)
Fixpoint skip (n : nat) (s : string) : string :=
  match n, s with
  | O, _ => s
  | S n', String _ s' => skip n' s'
  | S _, EmptyString => EmptyString
  end.

(** [s.slice(from, to)] for indices that are not negative. *)
Definition slice (s : string) (from to : nat) : string :=
  substring from (to - from) s.

(** [RegExp.prototype.exec] of a pattern with the [g] flag whose
    [lastIndex] is [lastIndex]: the leftmost match that starts there or
    later ([None] for [null]); the new [lastIndex] is the end of the match. *)
Definition exec (r : regex) (s : string) (lastIndex : nat) : option match_result :=
  if (String.length s <? lastIndex)%nat then None
  else match_from r lastIndex (skip lastIndex s).

(** An element of [parts]. *)
Inductive Part : Type :=
| TextPart (content : string)
| CodePart (language : string) (content : option string).

(** The [while] loop of [renderMessage]; [fuel] bounds its iterations. *)
Fixpoint render_loop (fuel : nat) (content : string) (lastIndex : nat)
         (parts : list Part) : option (nat * list Part) :=
  match fuel with
  | O => None
  | S fuel' =>
      match exec App.code_block_pattern content lastIndex with
      | Some m =>
          (* Add text before code block *)
          let parts :=
            if (lastIndex <? index m)%nat
            then (parts ++ [TextPart (slice content lastIndex (index m))])%list
            else parts in
          (* Add code block *)
          let parts :=
            (parts ++ [CodePart (Js.or_else (capture 1 (groups m)) "javascript")
                                (capture 2 (groups m))])%list in
          render_loop fuel' content (index m + String.length (matched m)) parts
      | None => Some (lastIndex, parts)
      end
  end.

(** The [parts] that [renderMessage] maps to elements, for a message with
    the content [content]. *)
Definition message_parts (fuel : nat) (content : string) : option (list Part) :=
  match render_loop fuel content 0 [] with
  | None => None
  | Some (lastIndex, parts) =>
      (* Add remaining text *)
      let parts :=
        if (lastIndex <? String.length content)%nat
        then (parts ++ [TextPart (skip lastIndex content)])%list
        else parts in
      (* If no code blocks found, treat as plain text *)
      let parts :=
        if (List.length parts =? 0)%nat
        then (parts ++ [TextPart content])%list
        else parts in
      Some parts
  end.

Definition renderMessage (message : Types.ChatMessage) : option (list Part) :=
  message_parts (S (String.length (Types.content message)))
                (Types.content message).

End Render.

(* ================================================================= *)
(** ** [App.tsx]: the handlers of the page *)

Module Page.
Import Types Async.
Local Open Scope prog_scope.

(** The [useState] cells of [App]. *)
Record AppState : Type := {
  inputMessage : string;
  activeConversation : option string;
  searchQuery : string;
  error : option string;
  selectedCategory : Category
}.

(** The state of the page: the cells of [App] and of its two hooks. *)
Record State : Type := {
  app : AppState;
  registry : UseConversations.State;
  chat : UseChat.State
}.

Section Lift.
Variables S St : Type.
Variable get : S -> St.
Variable put : St -> S -> S.

(** A program of a hook, run on the part of the page that is its state. *)
Fixpoint lift {R : Type} (p : Prog St R) : Prog S R :=
  match p with
  | Ret r => Ret r
  | Throw e => Throw e
  | Mistyped => Mistyped
  | Upd f k => Upd (fun s => put (f (get s)) s) (lift k)
  | Read k => Read (fun s => lift (k (get s)))
  | Now k => Now (fun t => lift (k t))
  | Emit o k => Emit o (lift k)
  | Fetch rq k => Fetch rq (fun o => lift (k o))
  | Spawn p' k => Spawn (lift p') (lift k)
  end.
End Lift.

Definition in_registry {R : Type} (p : Prog UseConversations.State R)
  : Prog State R :=
  lift registry
       (fun r s => {| app := app s; registry := r; chat := chat s |}) p.

Definition in_chat {R : Type} (p : Prog UseChat.State R) : Prog State R :=
  lift chat
       (fun c s => {| app := app s; registry := registry s; chat := c |}) p.

Definition setActiveConversation (a : option string)
  : Prog State unit :=
  update (fun s =>
            {| app := {| inputMessage := inputMessage (app s);
                         activeConversation := a;
                         searchQuery := searchQuery (app s);
                         error := error (app s);
                         selectedCategory := selectedCategory (app s) |};
               registry := registry s; chat := chat s |}).

Definition setError (e : option string) : Prog State unit :=
  update (fun s =>
            {| app := {| inputMessage := inputMessage (app s);
                         activeConversation := activeConversation (app s);
                         searchQuery := searchQuery (app s);
                         error := e;
                         selectedCategory := selectedCategory (app s) |};
               registry := registry s; chat := chat s |}).

(** [activeConversation === id] *)
Definition is_active (activeConversation_ : option string) (id : string) : bool :=
  match activeConversation_ with
  | Some a => String.eqb a id
  | None => false
  end.

Section Handlers.
Variable API_BASE_URL : string.

Definition handleNewConversation : Prog State unit :=
  try_catch
    (newConv <- in_registry
                  (UseConversations.createConversation
                     API_BASE_URL "New Conversation" General) ;;
     setActiveConversation (Some (conv_id newConv)) ;;
     in_chat UseChat.clearMessages)
    (fun err => setError (Some "Failed to create new conversation")).

(** The handler of a render in which [activeConversation] and
    [conversations] had the values [activeConversation_] and
    [conversations_] (its [e.stopPropagation()] is a matter of the DOM). *)
Definition handleDeleteConversation (activeConversation_ : option string)
           (conversations_ : list ConversationSummary) (id : string)
  : Prog State unit :=
  try_catch
    (in_registry (UseConversations.deleteConversation API_BASE_URL id) ;;
     if is_active activeConversation_ id then
       next <- (if (1 <? List.length conversations_)%nat then
                  match conversations_ with
                  | c :: _ => Ret (Some (conv_id c))
                  | [] => Throw (ExnOther "TypeError")
                  end
                else Ret None) ;;
       setActiveConversation next
     else Ret tt)
    (fun err => setError (Some "Failed to delete conversation")).

End Handlers.

End Page.

(* ================================================================= *)
(** ** Vocabulary of the statements *)

Module Text.

(** ASCII lower case of a code unit. *)
Definition lower_char (c : ascii) : ascii :=
  let n := nat_of_ascii c in
  if ((65 <=? n) && (n <=? 90))%nat then ascii_of_nat (n + 32) else c.

Fixpoint lower (s : string) : string :=
  match s with
  | EmptyString => EmptyString
  | String c s' => String (lower_char c) (lower s')
  end.

(** [s] contains [kw]. *)
Definition contains (kw s : string) : Prop :=
  exists pre post, s = pre ++ kw ++ post.

(** [s] contains the lower-case word [kw], letter case apart. *)
Definition contains_ci (kw s : string) : Prop := contains kw (lower s).

(** [s] without a leading occurrence of [kw], letter case apart as the
    [i] flag has it. *)
Fixpoint strip_ci (kw s : string) : option string :=
  match kw with
  | EmptyString => Some s
  | String a kw' =>
      match s with
      | String b s' =>
          if Ascii.eqb (Regex.canonicalize b) (Regex.canonicalize a)
          then strip_ci kw' s' else None
      | EmptyString => None
      end
  end.

Definition is_lower_letter (c : ascii) : bool :=
  let n := nat_of_ascii c in ((97 <=? n) && (n <=? 122))%nat.

Fixpoint all_lower (s : string) : bool :=
  match s with
  | EmptyString => true
  | String c s' => is_lower_letter c && all_lower s'
  end.

Definition all_ascii : list ascii := map ascii_of_nat (seq 0 256).

(** The line feed, as a string. *)
Definition LF : string := String Regex.newline EmptyString.

(** A message of the body whose timestamp is absent or falsy (the empty
    string, [null], zero, [false]). *)
Definition no_timestamp (m : Json.Value) : bool :=
  match Json.lookup "timestamp" m with
  | Some v => negb (Json.truthy v)
  | None => true
  end.

(** How many of the first [i] messages of the body have no timestamp. *)
Definition stamps_before (i : nat) (raw : list Json.Value) : nat :=
  List.length (filter no_timestamp (firstn i raw)).

(** The timestamp of the converted [i]-th message [m] of [raw]: the date
    its wire timestamp denotes, or the reading of the clock taken for
    it. *)
Definition converted_timestamp {St : Type} (w : Async.World St)
           (raw : list Json.Value) (i : nat) (m : Json.Value)
  : Types.Date :=
  match Json.lookup "timestamp" m with
  | Some v =>
      if Json.truthy v then ApiService.new_Date v
      else Types.DateOfTime
             (Async.clock w (Async.reads w + stamps_before i raw))
  | None =>
      Types.DateOfTime (Async.clock w (Async.reads w + stamps_before i raw))
  end.

(** The object the client makes of the [i]-th message [m] of [raw]. *)
Definition stamped {St : Type} (w : Async.World St)
           (raw : list Json.Value) (i : nat) (m : Json.Value) : Obj.Object :=
  Obj.set "timestamp" (Obj.DateValue (converted_timestamp w raw i m))
          (Obj.spread m).

(** *** The JSON of the values of [types/api.ts] *)

(** An optional property: left out when there is no value. *)
Definition opt_prop {A : Type} (key : string) (json : A -> Json.Value)
           (a : option A) : list (string * Json.Value) :=
  match a with
  | Some x => [(key, json x)]
  | None => []
  end.

Definition sender_name (s : Types.Sender) : string :=
  match s with
  | Types.User => "user"
  | Types.Ai => "ai"
  end.

Definition type_name (t : Types.MessageType) : string :=
  match t with
  | Types.TextType => "text"
  | Types.CodeType => "code"
  | Types.FileType => "file"
  end.

Definition strings_json (l : list string) : Json.Value :=
  Json.Array (map Json.Str l).

Definition ResponseMetadata_json (m : Types.ResponseMetadata) : Json.Value :=
  Json.Object
    ([("model", Json.Str (Types.model m));
      ("tokens", Json.Number (Types.tokens m));
      ("processingTime", Json.Number (Types.processingTime m))]
     ++ opt_prop "confidence" Json.Number (Types.confidence m)).

Definition MessageMetadata_json (m : Types.MessageMetadata) : Json.Value :=
  Json.Object
    (opt_prop "model" Json.Str (Types.m_model m)
     ++ opt_prop "tokens" Json.Number (Types.m_tokens m)
     ++ opt_prop "processingTime" Json.Number (Types.m_processingTime m)).

Definition CodeExample_json (c : Types.CodeExample) : Json.Value :=
  Json.Object
    [("language", Json.Str (Types.ce_language c));
     ("code", Json.Str (Types.ce_code c));
     ("explanation", Json.Str (Types.ce_explanation c))].

Definition ChatResponse_json (r : Types.ChatResponse) : Json.Value :=
  Json.Object
    ([("id", Json.Str (Types.res_id r));
      ("content", Json.Str (Types.res_content r));
      ("timestamp", Json.Str (Types.res_timestamp r));
      ("metadata", ResponseMetadata_json (Types.res_metadata r))]
     ++ opt_prop "suggestions" strings_json (Types.suggestions r)
     ++ opt_prop "codeExamples"
                 (fun l => Json.Array (map CodeExample_json l))
                 (Types.codeExamples r)).

Definition ConversationSummary_json (c : Types.ConversationSummary) : Json.Value :=
  Json.Object
    [("id", Json.Str (Types.conv_id c));
     ("title", Json.Str (Types.title c));
     ("lastMessage", Json.Str (Types.lastMessage c));
     ("category", Json.Str (Types.category_name (Types.conv_category c)));
     ("messageCount", Json.Number (Types.messageCount c));
     ("createdAt", Json.Str (Types.createdAt c));
     ("updatedAt", Json.Str (Types.updatedAt c))].

Definition ConversationSummary_list_json (l : list Types.ConversationSummary)
  : Json.Value :=
  Json.Array (map ConversationSummary_json l).

(** A message as the backend sends it: the timestamp is a string, or is
    left out. *)
Definition WireMessage_json (m : Types.WireMessage) : Json.Value :=
  Json.Object
    ([("id", Json.Str (Types.id m));
      ("content", Json.Str (Types.content m));
      ("sender", Json.Str (sender_name (Types.sender m)))]
     ++ opt_prop "timestamp" Json.Str (Types.timestamp m)
     ++ opt_prop "type" (fun t => Json.Str (type_name t)) (Types.type m)
     ++ opt_prop "category" (fun c => Json.Str (Types.category_name c))
                 (Types.category m)
     ++ opt_prop "metadata" MessageMetadata_json (Types.metadata m)).

(** The message [m] of the backend with the date [d] for its
    timestamp. *)
Definition at_date (m : Types.WireMessage) (d : Types.Date) : Types.ChatMessage :=
  {| Types.id := Types.id m;
     Types.content := Types.content m;
     Types.sender := Types.sender m;
     Types.timestamp := d;
     Types.type := Types.type m;
     Types.category := Types.category m;
     Types.metadata := Types.metadata m |}.

(** The fields of the message [m'] of the session, but for its timestamp,
    are those of the message [m] of the body. *)
Definition same_fields (m : Json.Value) (m' : Types.ChatMessage) : Prop :=
  Json.lookup "id" m = Some (Json.Str (Types.id m'))
  /\ Json.lookup "content" m = Some (Json.Str (Types.content m'))
  /\ Json.lookup "sender" m = Some (Json.Str (sender_name (Types.sender m')))
  /\ Json.lookup "type" m
     = option_map (fun t => Json.Str (type_name t)) (Types.type m')
  /\ Json.lookup "category" m
     = option_map (fun c => Json.Str (Types.category_name c)) (Types.category m')
  /\ match Types.metadata m' with
     | None => Json.lookup "metadata" m = None
     | Some d =>
         exists props,
           Json.lookup "metadata" m = Some (Json.Object props)
           /\ Json.assoc "model" props = option_map Json.Str (Types.m_model d)
           /\ Json.assoc "tokens" props
              = option_map Json.Number (Types.m_tokens d)
           /\ Json.assoc "processingTime" props
              = option_map Json.Number (Types.m_processingTime d)
     end.

(** The request [sendMessage] of the session builds. *)
Definition request_of (options : UseChat.UseChatOptions) (content : string)
           (category : option Types.Category) (context : option App.JsObject)
  : Types.ChatRequest :=
  {| Types.message := content;
     Types.conversationId := UseChat.conversationId options;
     Types.req_category :=
       match category with Some c => c | None => Types.General end;
     Types.context := context |}.

(** A world for examples: the session as the hook makes it, a clock that
    reads 1000, 1001, ..., nothing written and nothing pending. *)
Definition fresh_world {St : Type} (s : St) : Async.World St :=
  {| Async.hook := s;
     Async.clock := fun n => (1000 + Z.of_nat n)%Z;
     Async.reads := 0;
     Async.outputs := [];
     Async.pending := [] |}.

(** The message [sendMessage] adds for the user at once. *)
Definition userMessage_of (content : string) (category : option Types.Category)
           (t_id t_ts : Z) : Types.ChatMessage :=
  {| Types.id := "user-" ++ Js.of_Z t_id;
     Types.content := content;
     Types.sender := Types.User;
     Types.timestamp := Types.DateOfTime t_ts;
     Types.type := None;
     Types.category :=
       Some (match category with Some c => c | None => Types.General end);
     Types.metadata := None |}.

(** Two sends through the callback of one render (in which [isLoading] was
    false), the second before the first request is answered; then the
    response [o2] of the second request arrives, and after it the response
    [o1] of the first. *)
Definition second_send_then_late_first_response
           (API_BASE_URL : string) (options : UseChat.UseChatOptions)
           (first second : string)
           (o1 o2 : Async.FetchResult)
           (w : Async.World UseChat.State)
  : Async.World UseChat.State :=
  let callback := UseChat.r_sendMessage
                    (UseChat.useChat API_BASE_URL options (Async.hook w)) in
  let (w1, s1) := Async.run (callback first None None) w in
  let (w2, s2) := Async.run (callback second None None) w1 in
  let (w3, _) := Async.resume s2 o2 w2 in
  fst (Async.resume s1 o1 w3).

Definition summary (id title : string) : Types.ConversationSummary :=
  {| Types.conv_id := id;
     Types.title := title;
     Types.lastMessage := "";
     Types.conv_category := Types.General;
     Types.messageCount := 0%Z;
     Types.createdAt := "2024-05-01T09:00:00Z";
     Types.updatedAt := "2024-05-01T09:00:00Z" |}.

(** A registry that holds the conversations [l]. *)
Definition registry_with (l : list Types.ConversationSummary)
  : UseConversations.State :=
  {| UseConversations.conversations := l;
     UseConversations.isLoading := false;
     UseConversations.error := None |}.

(** What [loadConversations] does before it waits: the loading flag is
    set, the error string is cleared, the full list is requested. *)
Definition load_started
           (w : Async.World UseConversations.State)
  : Async.World UseConversations.State :=
  Async.set_hook
    (fun s => {| UseConversations.conversations := UseConversations.conversations s;
                 UseConversations.isLoading := true;
                 UseConversations.error := None |}) w.

Definition load_request (API_BASE_URL : string) : Async.Request :=
  {| Async.url := API_BASE_URL ++ "/api/conversations";
     Async.config :=
       {| Async.method := None;
          Async.headers := Some [("Content-Type", "application/json")];
          Async.body := None |} |}.


(** The message of a failure whose error body supplies none. *)
Definition http_message (status : nat) (statusText : string) : string :=
  "HTTP " ++ Js.of_nat status ++ ": " ++ statusText.

(** The body of an error with [message] and [code]. *)
Definition error_body (message code : string) : Json.Value :=
  Json.Object [("message", Json.Str message); ("code", Json.Str code)].

(** A response with the status [status] and an error body with [message]
    and [code]. *)
Definition error_response (status : nat) (message code : string)
  : Async.FetchResult :=
  Async.FetchResolved
    {| Async.ok := false; Async.status := status; Async.statusText := "";
       Async.json := Some (error_body message code) |}.

(** A response with status 200 and the body [v]. *)
Definition ok_response (v : Json.Value) : Async.FetchResult :=
  Async.FetchResolved
    {| Async.ok := true; Async.status := 200; Async.statusText := "OK";
       Async.json := Some v |}.

Definition reply (id content : string) : Types.ChatResponse :=
  {| Types.res_id := id;
     Types.res_content := content;
     Types.res_timestamp := "2024-05-01T10:00:00Z";
     Types.res_metadata :=
       {| Types.model := "llama3.1"; Types.tokens := 12%Z;
          Types.processingTime := 340%Z; Types.confidence := None |};
     Types.suggestions := None;
     Types.codeExamples := None |}.

(** The message a successful response adds, and the message a failure
    adds. *)
Definition aiMessage_of (category : option Types.Category)
           (response : Types.ChatResponse) : Types.ChatMessage :=
  {| Types.id := Types.res_id response;
     Types.content := Types.res_content response;
     Types.sender := Types.Ai;
     Types.timestamp := Types.DateOfString (Types.res_timestamp response);
     Types.type := None;
     Types.category := Some (match category with Some c => c | None => Types.General end);
     Types.metadata := Some (Types.as_MessageMetadata (Types.res_metadata response)) |}.

Definition error_reply (e : Async.ApiError) (t_id t_ts : Z)
  : Types.ChatMessage :=
  {| Types.id := "error-" ++ Js.of_Z t_id;
     Types.content := "Sorry, I encountered an error: " ++ Async.message e
                  ++ ". Please try again.";
     Types.sender := Types.Ai;
     Types.timestamp := Types.DateOfTime t_ts;
     Types.type := None;
     Types.category := Some Types.General;
     Types.metadata := None |}.

(** The [errorMessage] property of what [extractContext] returns. *)
Definition errorMessage_of (r : option App.JsObject) : option (option string) :=
  match r with
  | Some ctx => App.get_prop "errorMessage" ctx
  | None => None
  end.

(** A fenced code block with the tag [tag] (empty when there is none) and
    the body [snippet]. *)
Definition fenced (tag snippet : string) : string :=
  "```" ++ tag ++ LF ++ snippet ++ "```".

Fixpoint all_chars (p : ascii -> bool) (s : string) : bool :=
  match s with
  | EmptyString => true
  | String c s' => p c && all_chars p s'
  end.

(** The groups of a match of the code block pattern whose tag is [tag]
    and whose body is [snippet]. *)
Definition fence_groups (tag snippet : string) : Regex.captures :=
  match tag with
  | EmptyString => [(2, snippet)]
  | _ => [(2, snippet); (1, tag)]
  end.

(** The language [renderMessage] and [extractContext] give a block with
    the tag [tag]. *)
Definition language_of (tag : string) : string :=
  match tag with
  | EmptyString => "javascript"
  | _ => tag
  end.

(** The text of the message that a part stands for. *)
Definition part_source (p : Render.Part) (src : string) : Prop :=
  match p with
  | Render.TextPart content => src = content
  | Render.CodePart language content =>
      exists tag snippet,
        src = fenced tag snippet
        /\ language = language_of tag
        /\ content = Some snippet
  end.

Definition is_code_part (p : Render.Part) : bool :=
  match p with
  | Render.CodePart _ _ => true
  | Render.TextPart _ => false
  end.

(** The texts [l] one after the other. *)
Definition join (l : list string) : string := fold_right append "" l.

(** [s] has a fenced code block in it: a fence, a tag of word characters
    (or none), a line feed, and a closing fence further on. *)
Definition has_code_block (s : string) : Prop :=
  exists pre tag snippet post,
    all_chars Regex.word_char tag = true
    /\ s = pre ++ fenced tag snippet ++ post.

(** What [renderMessage] promises of a part: a text part is not empty; a
    code part has a language and a body without a fence in it. *)
Definition well_formed_part (p : Render.Part) : Prop :=
  match p with
  | Render.TextPart content => content <> ""
  | Render.CodePart language content =>
      language <> ""
      /\ exists snippet, content = Some snippet /\ ~ contains "```" snippet
  end.

(** The request [sendMessage] of the session issues. *)
Definition chat_request (API_BASE_URL : string) (options : UseChat.UseChatOptions)
           (content : string) (category : option Types.Category)
           (context : option App.JsObject) : Async.Request :=
  {| Async.url := API_BASE_URL ++ "/api/chat";
     Async.config :=
       {| Async.method := Some "POST";
          Async.headers := Some [("Content-Type", "application/json")];
          Async.body :=
            Some (Async.JsonChatRequest
                    (request_of options content category context)) |} |}.

(** The session once [sendMessage] waits for the response: the message of
    the user is there, the session is loading, the controller of an
    earlier request is aborted and the handle is a new controller. *)
Definition send_started (content : string) (category : option Types.Category)
           (w : Async.World UseChat.State)
  : Async.World UseChat.State :=
  let s := Async.hook w in
  {| Async.hook :=
       {| UseChat.messages :=
            (UseChat.messages s
             ++ [userMessage_of content category
                                (Async.clock w (Async.reads w))
                                (Async.clock w (S (Async.reads w)))])%list;
          UseChat.isLoading := true;
          UseChat.isConnected := UseChat.isConnected s;
          UseChat.abortControllerRef := Some (List.length (UseChat.controllers s));
          UseChat.controllers :=
            (match UseChat.abortControllerRef s with
             | Some c => UseChat.set_flag c (UseChat.controllers s)
             | None => UseChat.controllers s
             end ++ [false])%list |};
     Async.clock := Async.clock w;
     Async.reads := S (S (Async.reads w));
     Async.outputs := Async.outputs w;
     Async.pending := Async.pending w |}.

(** *** The requests of the session *)

(** The request for the messages of the conversation [id]. *)
Definition messages_request (API_BASE_URL id : string) : Async.Request :=
  {| Async.url := API_BASE_URL ++ "/api/conversations/" ++ id ++ "/messages";
     Async.config :=
       {| Async.method := None;
          Async.headers := Some [("Content-Type", "application/json")];
          Async.body := None |} |}.

(** The session once a load waits for the response: the loading flag is
    set, and nothing else has changed. *)
Definition chat_loading (w : Async.World UseChat.State)
  : Async.World UseChat.State :=
  Async.set_hook
    (fun s => {| UseChat.messages := UseChat.messages s;
                 UseChat.isLoading := true;
                 UseChat.isConnected := UseChat.isConnected s;
                 UseChat.abortControllerRef := UseChat.abortControllerRef s;
                 UseChat.controllers := UseChat.controllers s |}) w.

(** *** The requests of the registry *)

Definition get_config : Async.RequestInit :=
  {| Async.method := None;
     Async.headers := Some [("Content-Type", "application/json")];
     Async.body := None |}.

(** The request of a create: the title and the name of the category. *)
Definition create_request (API_BASE_URL title : string)
           (category : Types.Category) : Async.Request :=
  {| Async.url := API_BASE_URL ++ "/api/conversations";
     Async.config :=
       {| Async.method := Some "POST";
          Async.headers := Some [("Content-Type", "application/json")];
          Async.body :=
            Some (Async.JsonCreate title (Types.category_name category)) |} |}.

Definition delete_request (API_BASE_URL id : string) : Async.Request :=
  {| Async.url := API_BASE_URL ++ "/api/conversations/" ++ id;
     Async.config :=
       {| Async.method := Some "DELETE";
          Async.headers := Some [("Content-Type", "application/json")];
          Async.body := None |} |}.

(** The request of a search whose query, form-encoded, is [encoded]. *)
Definition search_request (API_BASE_URL encoded : string) : Async.Request :=
  {| Async.url := API_BASE_URL ++ "/api/conversations/search?q=" ++ encoded;
     Async.config := get_config |}.

(** What a search does before it waits: the loading flag is set. *)
Definition search_started (w : Async.World UseConversations.State)
  : Async.World UseConversations.State :=
  Async.set_hook
    (fun s => {| UseConversations.conversations := UseConversations.conversations s;
                 UseConversations.isLoading := true;
                 UseConversations.error := UseConversations.error s |}) w.

(** *** Form decoding

    What the backend reads out of a query string: [+] is a space, [%XY]
    the byte with the hexadecimal digits [X] and [Y], and the bytes are
    the UTF-8 of the text. *)

Definition hex_value (c : ascii) : option nat :=
  let n := nat_of_ascii c in
  if ((48 <=? n) && (n <=? 57))%nat then Some (n - 48)
  else if ((65 <=? n) && (n <=? 70))%nat then Some (n - 55)
  else None.

Fixpoint form_bytes (s : string) : option (list nat) :=
  match s with
  | EmptyString => Some []
  | String c rest =>
      if Ascii.eqb c "%" then
        match rest with
        | String x (String y rest') =>
            match hex_value x, hex_value y, form_bytes rest' with
            | Some a, Some b, Some bytes => Some ((16 * a + b) :: bytes)
            | _, _, _ => None
            end
        | _ => None
        end
      else
        match form_bytes rest with
        | Some bytes =>
            Some ((if Ascii.eqb c "+" then 32 else nat_of_ascii c) :: bytes)
        | None => None
        end
  end.

(** The text, of code units below 256, whose UTF-8 the bytes are. *)
Fixpoint utf8_text (bytes : list nat) : option string :=
  match bytes with
  | [] => Some EmptyString
  | b :: rest =>
      if (b <? 128)%nat then
        option_map (String (ascii_of_nat b)) (utf8_text rest)
      else
        match rest with
        | b' :: rest' =>
            if ((194 <=? b) && (b <=? 195) && (128 <=? b') && (b' <=? 191))%nat
            then option_map (String (ascii_of_nat ((b - 192) * 64 + (b' - 128))))
                            (utf8_text rest')
            else None
        | [] => None
        end
  end.

Definition form_decode (s : string) : option string :=
  match form_bytes s with
  | Some bytes => utf8_text bytes
  | None => None
  end.

(** The UTF-8 of a code unit below 256. *)
Definition utf8_bytes (c : ascii) : list nat :=
  let n := nat_of_ascii c in
  if (n <? 128)%nat then [n] else [192 + n / 64; 128 + n mod 64].

(** *** The operations of the client *)

(** A call of an operation of the client. *)
Inductive Call : Type :=
| SendMessage (request : Types.ChatRequest)
| GetConversations
| GetConversation (id : string)
| CreateConversation (title category : string)
| DeleteConversation (id : string)
| SearchConversations (query : string)
| HealthCheck.

(** What a run ended with, when it ended with a [throw]. *)
Definition thrown {St R : Type} (r : Async.World St * Async.Status St R)
  : option Async.Exn :=
  match snd r with
  | Async.Failed e => Some e
  | _ => None
  end.

(** What the call [c] throws, when the transport answers its request with
    [o] in the world [w] and the call fails. *)
Definition failure (St : Type) (API_BASE_URL : string) (c : Call)
           (o : Async.FetchResult) (w : Async.World St) : option Async.Exn :=
  match c with
  | SendMessage request =>
      thrown (Async.run (Async.answer
                (ApiService.sendMessage St API_BASE_URL request) o) w)
  | GetConversations =>
      thrown (Async.run (Async.answer
                (ApiService.getConversations St API_BASE_URL) o) w)
  | GetConversation id =>
      thrown (Async.run (Async.answer
                (ApiService.getConversation St API_BASE_URL id) o) w)
  | CreateConversation title category =>
      thrown (Async.run (Async.answer
                (ApiService.createConversation St API_BASE_URL title category)
                o) w)
  | DeleteConversation id =>
      thrown (Async.run (Async.answer
                (ApiService.deleteConversation St API_BASE_URL id) o) w)
  | SearchConversations query =>
      thrown (Async.run (Async.answer
                (ApiService.searchConversations St API_BASE_URL query) o) w)
  | HealthCheck =>
      thrown (Async.run (Async.answer
                (ApiService.healthCheck St API_BASE_URL) o) w)
  end.


(** A success response with the body [body]. *)
Definition success (status : nat) (statusText : string) (body : Json.Value)
  : Async.FetchResult :=
  Async.FetchResolved
    {| Async.ok := true; Async.status := status;
       Async.statusText := statusText; Async.json := Some body |}.

End Text.

(* ================================================================= *)
(** * Properties *)

Unset Implicit Arguments.

(** ** Strings *)

Module JsFacts.
Import Js.

Lemma trimStart_white (s : string) : all_white s -> trimStart s = "".
Proof.
  induction s as [|c s IH]; intros H; simpl; [reflexivity|].
  rewrite (H c (or_introl eq_refl)).
  apply IH. intros d Hd. apply H. right. exact Hd.
Qed.

Lemma trimEnd_empty (s : string) : trimEnd s = "" -> all_white s.
Proof.
  induction s as [|c s IH]; simpl; intros H d Hd; [contradiction|].
  destruct (trimEnd s) eqn:E; [|discriminate].
  destruct (is_white_space c) eqn:W; [|discriminate].
  destruct Hd as [<-|Hd]; [exact W|]. apply IH; [reflexivity|exact Hd].
Qed.

Lemma trimStart_head (s : string) :
  match trimStart s with
  | String c _ => is_white_space c = false
  | EmptyString => all_white s
  end.
Proof.
  induction s as [|c s IH]; simpl.
  - intros d [].
  - destruct (is_white_space c) eqn:W.
    + destruct (trimStart s); [|exact IH].
      intros d [<-|Hd]; [exact W|apply IH; exact Hd].
    + exact W.
Qed.

(** [trim] leaves nothing exactly of the strings made of white space. *)
Lemma trim_empty_iff (s : string) : trim s = "" <-> all_white s.
Proof.
  unfold trim. split.
  - intros H. pose proof (trimStart_head s) as Hh.
    destruct (trimStart s) as [|c t] eqn:E; [exact Hh|].
    apply trimEnd_empty in H.
    rewrite (H c (or_introl eq_refl)) in Hh. discriminate.
  - intros H. rewrite (trimStart_white s H). reflexivity.
Qed.

Lemma truthy_trim (s : string) : truthy (trim s) = false <-> all_white s.
Proof.
  rewrite <- trim_empty_iff. destruct (trim s); simpl; split; congruence.
Qed.

End JsFacts.

(** ** Regular expressions *)

Module RegexFacts.
Import Regex Text.

Lemma star_lazy_sound (R : Type) (p : ascii -> bool) (s : string)
      (k : string -> option R) (y : R) :
  star_lazy p s k = Some y -> exists s', k s' = Some y.
Proof.
  induction s as [|c s IH]; simpl.
  - destruct (k "") eqn:E; [|discriminate]. intros [= <-]. eauto.
  - destruct (k (String c s)) eqn:E.
    + intros [= <-]. eauto.
    + destruct (p c); [exact IH|discriminate].
Qed.

Lemma star_lazy_any_complete (R : Type) (body tail : string)
      (k : string -> option R) (x : R) :
  k tail = Some x -> exists y, star_lazy any_char (body ++ tail) k = Some y.
Proof.
  intros Hk. induction body as [|c body IH]; simpl.
  - destruct tail; simpl; rewrite Hk; eauto.
  - destruct (k (String c (body ++ tail))); [eauto|exact IH].
Qed.

Lemma run_lit_i (R : Type) (kw s : string) (caps : captures)
      (k : string -> captures -> option R) :
  run (lit_i kw) s caps k =
  match strip_ci kw s with
  | Some t => k t caps
  | None => None
  end.
Proof.
  revert s. induction kw as [|a kw IH]; intros s; simpl; [reflexivity|].
  destruct s as [|b s]; [reflexivity|].
  destruct (Ascii.eqb (canonicalize b) (canonicalize a)); [apply IH|reflexivity].
Qed.

Lemma in_all_ascii (c : ascii) : In c all_ascii.
Proof.
  unfold all_ascii. rewrite <- (ascii_nat_embedding c).
  apply in_map. apply in_seq. pose proof (nat_ascii_bounded c). lia.
Qed.

Lemma forall_ascii (P : ascii -> bool) :
  forallb P all_ascii = true -> forall c, P c = true.
Proof.
  intros H c. rewrite forallb_forall in H. apply H. apply in_all_ascii.
Qed.

(** Against a lower-case letter, comparing canonical forms is comparing
    with the lower case of the input. *)
Lemma canonicalize_lower (a b : ascii) :
  is_lower_letter a = true ->
  Ascii.eqb (canonicalize b) (canonicalize a) = Ascii.eqb (lower_char b) a.
Proof.
  revert a b.
  assert (H : forall a, (fun a => forallb (fun b =>
             implb (is_lower_letter a)
                   (Bool.eqb (Ascii.eqb (canonicalize b) (canonicalize a))
                             (Ascii.eqb (lower_char b) a))) all_ascii) a = true).
  { apply forall_ascii. vm_compute. reflexivity. }
  intros a b Ha. specialize (H a). cbv beta in H.
  rewrite forallb_forall in H. specialize (H b (in_all_ascii b)).
  rewrite Ha in H. simpl in H. apply Bool.eqb_prop in H. exact H.
Qed.

Lemma strip_ci_lower (kw s : string) :
  all_lower kw = true ->
  (strip_ci kw s <> None <-> exists post, lower s = kw ++ post).
Proof.
  revert s. induction kw as [|a kw IH]; intros s Hkw; simpl.
  - split; [intros _; exists (lower s); reflexivity|discriminate].
  - simpl in Hkw. apply andb_prop in Hkw. destruct Hkw as [Ha Hkw].
    destruct s as [|b s]; simpl.
    + split; [congruence|intros [post H]; discriminate].
    + rewrite (canonicalize_lower a b Ha).
      destruct (Ascii.eqb_spec (lower_char b) a) as [->|Hne].
      * rewrite (IH s Hkw). split; intros [post H]; exists post.
        -- rewrite H. reflexivity.
        -- congruence.
      * split; [congruence|]. intros [post H]. congruence.
Qed.

Lemma lower_app (s t : string) : lower (s ++ t) = lower s ++ lower t.
Proof. induction s as [|c s IH]; simpl; [reflexivity|]. rewrite IH. reflexivity. Qed.

(** A factor of [lower s] comes from a factor of [s]. *)
Lemma lower_split (s pre rest : string) :
  lower s = pre ++ rest ->
  exists s1 s2, s = s1 ++ s2 /\ lower s1 = pre /\ lower s2 = rest.
Proof.
  revert s. induction pre as [|a pre IH]; intros s H; simpl in H.
  - exists "", s. auto.
  - destruct s as [|b s]; simpl in H; [discriminate|].
    injection H as Hb Hs. destruct (IH s Hs) as (s1 & s2 & -> & H1 & H2).
    exists (String b s1), s2. simpl. rewrite Hb, H1. auto.
Qed.

End RegexFacts.

(** ** Context extraction *)

Module AppFacts.
Import Regex Text App RegexFacts.

Lemma run_lit_sound (R : Type) (w s : string) (caps : captures)
      (k : string -> captures -> option R) (y : R) :
  run (lit w) s caps k = Some y -> exists t, k t caps = Some y.
Proof.
  revert s. induction w as [|a w IH]; intros s; simpl.
  - eauto.
  - destruct s as [|b s]; [discriminate|].
    destruct (Ascii.eqb a b); [apply IH|discriminate].
Qed.

Lemma run_lit_prefix (R : Type) (w s : string) (caps : captures)
      (k : string -> captures -> option R) :
  run (lit w) (w ++ s) caps k = k s caps.
Proof.
  induction w as [|a w IH]; simpl; [reflexivity|].
  rewrite Ascii.eqb_refl. exact IH.
Qed.

Lemma match_from_here (r : regex) (i : nat) (s : string) (m : match_result) :
  match_here r i s = Some m -> match_from r i s = Some m.
Proof. intros H. destruct s; simpl; rewrite H; reflexivity. Qed.

Lemma run_seq (R : Type) (r1 r2 : regex) (s : string) (caps : captures)
      (k : string -> captures -> option R) :
  run (Seq r1 r2) s caps k = run r1 s caps (fun s1 caps1 => run r2 s1 caps1 k).
Proof. reflexivity. Qed.

Lemma run_char (R : Type) (c : ascii) (s : string) (caps : captures)
      (k : string -> captures -> option R) :
  run (char c) (String c s) caps k = k s caps.
Proof. simpl. rewrite Ascii.eqb_refl. reflexivity. Qed.

Lemma run_tag_absent (R : Type) (c : ascii) (s : string) (caps : captures)
      (k : string -> captures -> option R) :
  word_char c = false ->
  run (Opt (Group 1 (Plus word_char))) (String c s) caps k = k (String c s) caps.
Proof. intros H. cbn [run plus_greedy]. rewrite H. reflexivity. Qed.

Lemma run_group_star (R : Type) (n : nat) (p : ascii -> bool) (s : string)
      (caps : captures) (k : string -> captures -> option R) :
  run (Group n (StarLazy p)) s caps k =
  star_lazy p s (fun s1 => k s1 ((n, consumed s s1) :: caps)).
Proof. reflexivity. Qed.

(** What follows the opening fence when it carries no tag: the line feed,
    the lazy body and the closing fence. *)
Lemma fence_body (R : Type) (body rest : string) (caps : captures)
      (k : string -> captures -> option R) :
  (forall snippet, k rest ((2, snippet) :: caps) <> None) ->
  exists y snippet t,
    run (Seq (Opt (Group 1 (Plus word_char)))
             (Seq (char newline)
                  (Seq (Group 2 (StarLazy any_char)) (lit "```"))))
        (LF ++ body ++ "```" ++ rest) caps k = Some y
    /\ k t ((2, snippet) :: caps) = Some y.
Proof.
  intros Hk. unfold LF. cbn [append].
  rewrite run_seq, run_tag_absent by reflexivity.
  rewrite run_seq, run_char, run_seq, run_group_star.
  set (K := fun s1 => run (lit "```") s1
                          ((2, consumed (body ++ "```" ++ rest) s1) :: caps) k).
  destruct (K ("```" ++ rest)) as [x|] eqn:Hx.
  - destruct (star_lazy_any_complete R body ("```" ++ rest) K x Hx) as [y Hy].
    exists y. destruct (star_lazy_sound _ _ _ _ _ Hy) as [s' Hs'].
    apply run_lit_sound in Hs'. destruct Hs' as [t Ht].
    exists (consumed (body ++ "```" ++ rest) s'), t. split; [exact Hy|exact Ht].
  - exfalso. unfold K in Hx. rewrite run_lit_prefix in Hx. exact (Hk _ Hx).
Qed.

Lemma code_block_untagged (body rest : string) :
  exists m,
    str_match ("```" ++ LF ++ body ++ "```" ++ rest) code_block_pattern = Some m
    /\ capture 1 (groups m) = None
    /\ exists snippet, capture 2 (groups m) = Some snippet.
Proof.
  unfold str_match.
  set (msg := "```" ++ LF ++ body ++ "```" ++ rest).
  destruct (fence_body match_result body rest []
              (fun s' caps => Some (MatchResult 0 (consumed msg s') caps)))
    as (y & snippet & t & Hy & Ht); [discriminate|].
  exists y. split.
  - apply match_from_here. unfold match_here, code_block_pattern.
    rewrite run_seq. unfold msg. rewrite run_lit_prefix. exact Hy.
  - injection Ht as <-. simpl. eauto.
Qed.

(** The keyword pattern matches at the head of [s] when one of the
    keywords starts it, letter case apart. *)
Lemma error_match_here (i : nat) (s : string) :
  match_here error_pattern i s <> None <->
  exists kw, In kw error_keywords /\ strip_ci kw s <> None.
Proof.
  unfold match_here, error_pattern. cbn [run]. rewrite !run_lit_i.
  unfold error_keywords. split.
  - intros H.
    destruct (strip_ci "error" s) eqn:E1;
      [exists "error"; split; [simpl; tauto|rewrite E1; discriminate]|].
    destruct (strip_ci "exception" s) eqn:E2;
      [exists "exception"; split; [simpl; tauto|rewrite E2; discriminate]|].
    destruct (strip_ci "failed" s) eqn:E3;
      [exists "failed"; split; [simpl; tauto|rewrite E3; discriminate]|].
    destruct (strip_ci "undefined" s) eqn:E4;
      [exists "undefined"; split; [simpl; tauto|rewrite E4; discriminate]|].
    destruct (strip_ci "null" s) eqn:E5;
      [exists "null"; split; [simpl; tauto|rewrite E5; discriminate]|].
    destruct (strip_ci "cannot" s) eqn:E6;
      [exists "cannot"; split; [simpl; tauto|rewrite E6; discriminate]|].
    congruence.
  - intros (kw & Hin & Hkw).
    destruct (strip_ci "error" s) eqn:E1; [discriminate|].
    destruct (strip_ci "exception" s) eqn:E2; [discriminate|].
    destruct (strip_ci "failed" s) eqn:E3; [discriminate|].
    destruct (strip_ci "undefined" s) eqn:E4; [discriminate|].
    destruct (strip_ci "null" s) eqn:E5; [discriminate|].
    destruct (strip_ci "cannot" s) eqn:E6; [discriminate|].
    simpl in Hin. intuition (subst; congruence).
Qed.

Lemma error_match_from (i : nat) (s : string) :
  match_from error_pattern i s <> None <->
  exists pre t kw, s = pre ++ t /\ In kw error_keywords /\ strip_ci kw t <> None.
Proof.
  revert i. induction s as [|c s IH]; intros i.
  - cbn [match_from]. destruct (match_here error_pattern i "") eqn:E.
    + split; [intros _|discriminate].
      assert (H : match_here error_pattern i "" <> None) by congruence.
      apply error_match_here in H. destruct H as (kw & Hin & Hkw).
      exists "", "", kw. auto.
    + split; [congruence|]. intros (pre & t & kw & Hs & Hin & Hkw).
      destruct pre; [|discriminate]. simpl in Hs. subst t.
      assert (H : match_here error_pattern i "" <> None)
        by (apply error_match_here; eauto).
      congruence.
  - cbn [match_from]. destruct (match_here error_pattern i (String c s)) eqn:E.
    + split; [intros _|discriminate].
      assert (H : match_here error_pattern i (String c s) <> None) by congruence.
      apply error_match_here in H. destruct H as (kw & Hin & Hkw).
      exists "", (String c s), kw. auto.
    + rewrite IH. split.
      * intros (pre & t & kw & -> & Hin & Hkw).
        exists (String c pre), t, kw. auto.
      * intros (pre & t & kw & Hs & Hin & Hkw).
        destruct pre as [|d pre]; simpl in Hs.
        -- subst t.
           assert (H : match_here error_pattern i (String c s) <> None)
             by (apply error_match_here; eauto).
           congruence.
        -- injection Hs as _ ->. exists pre, t, kw. auto.
Qed.

Lemma error_keywords_lower (kw : string) :
  In kw error_keywords -> all_lower kw = true.
Proof. simpl. intuition (subst; reflexivity). Qed.

(** [message.match(/(error|...|cannot)/i)] finds something exactly in the
    messages that contain a keyword, letter case apart. *)
Lemma error_match_iff (message : string) :
  str_match message error_pattern <> None <->
  exists kw, In kw error_keywords /\ contains_ci kw message.
Proof.
  unfold str_match. rewrite error_match_from. split.
  - intros (pre & t & kw & -> & Hin & Hkw).
    apply (strip_ci_lower kw t (error_keywords_lower kw Hin)) in Hkw.
    destruct Hkw as [post Hpost].
    exists kw. split; [exact Hin|].
    exists (lower pre), post. rewrite lower_app, Hpost. reflexivity.
  - intros (kw & Hin & pre & post & H).
    destruct (lower_split message pre (kw ++ post) H) as (s1 & s2 & -> & _ & H2).
    exists s1, s2, kw. split; [reflexivity|]. split; [exact Hin|].
    apply (strip_ci_lower kw s2 (error_keywords_lower kw Hin)). eauto.
Qed.

(** The [errorMessage] property of the result, from the two tests of
    [extractContext]. *)
Lemma errorMessage_of_extractContext (message category : string) :
  errorMessage_of (extractContext message category) =
  match str_match message error_pattern with
  | Some _ => if String.eqb category "bug-fix" then Some (Some message) else None
  | None => None
  end.
Proof.
  unfold extractContext.
  destruct (str_match message code_block_pattern) as [m|];
    destruct (str_match message error_pattern) as [e|];
    destruct (String.eqb category "bug-fix"); reflexivity.
Qed.

(** C3. Context extraction: a fenced python block with category general
    gives the language python and the code snippet and no errorMessage; a
    bug-fix message with a keyword gives the errorMessage, the whole
    message; hello gives no context object at all.  In general the
    errorMessage is there exactly when the category is bug-fix and the
    message contains one of error, exception, failed, undefined, null,
    cannot, letter case apart, and it is then the whole message. *)
Theorem extractContext_errorMessage_exactly :
  extractContext ("```python" ++ LF ++ "x=1" ++ LF ++ "```") "general"
    = Some [("language", Some "python"); ("codeSnippet", Some ("x=1" ++ LF))]
  /\ has_prop "errorMessage"
       [("language", Some "python"); ("codeSnippet", Some ("x=1" ++ LF))] = false
  /\ extractContext "it failed with undefined" "bug-fix"
      = Some [("errorMessage", Some "it failed with undefined")]
  /\ extractContext "hello" "general" = None
  /\ forall message category : string,
       (errorMessage_of (extractContext message category) <> None <->
        category = "bug-fix" /\
        exists kw, In kw error_keywords /\ contains_ci kw message)
       /\ (errorMessage_of (extractContext message category) = None \/
           errorMessage_of (extractContext message category) = Some (Some message)).
Proof.
  split; [vm_compute; reflexivity|].
  split; [reflexivity|].
  split; [vm_compute; reflexivity|].
  split; [vm_compute; reflexivity|].
  intros message category. rewrite errorMessage_of_extractContext.
  pose proof (error_match_iff message) as Hm.
  destruct (str_match message error_pattern) as [e|].
  - destruct (String.eqb_spec category "bug-fix") as [->|Hne].
    + split; [|right; reflexivity].
      split; [intros _|discriminate].
      split; [reflexivity|]. apply Hm. discriminate.
    + split; [|left; reflexivity].
      split; [congruence|]. intros [Hc _]. contradiction.
  - split; [|left; reflexivity].
    split; [congruence|]. intros [_ Hk]. apply Hm in Hk. congruence.
Qed.

(** C10. A fenced code block whose opening fence carries no language tag
    gives the language javascript, not an absent language. *)
Theorem extractContext_untagged_fence_javascript :
  forall body rest category : string,
  exists ctx,
    extractContext ("```" ++ LF ++ body ++ "```" ++ rest) category = Some ctx
    /\ get_prop "language" ctx = Some (Some "javascript")
    /\ exists snippet, get_prop "codeSnippet" ctx = Some (Some snippet).
Proof.
  intros body rest category. unfold extractContext.
  destruct (code_block_untagged body rest) as (m & -> & H1 & snippet & H2).
  rewrite H1, H2. cbn [Js.or_else set_prop String.eqb Ascii.eqb Bool.eqb].
  destruct (str_match _ error_pattern) as [e|];
    [destruct (String.eqb category "bug-fix")|];
    eexists; (split; [reflexivity|split; [reflexivity|exists snippet; reflexivity]]).
Qed.

End AppFacts.

(** ** Running programs *)

Module AsyncFacts.
Import Async.

Section Run.
Variable St : Type.

Lemma run_bind (A B : Type) (p : Prog St A) (f : A -> Prog St B)
      (w : World St) :
  run (bind p f) w =
  match run p w with
  | (w1, Finished r) => run (f r) w1
  | (w1, Failed e) => (w1, Failed e)
  | (w1, Suspended rq k) => (w1, Suspended rq (fun o => bind (k o) f))
  | (w1, Untyped) => (w1, Untyped)
  end.
Proof.
  revert B f w.
  induction p as [A r|A e|A|A g k IH|A k IH|A k IH|A o k IH|A rq k IH|A p' IHp k IH];
    intros B f w; simpl; try reflexivity; try apply IH.
  destruct (run p' w) as [w1 [r|e|rq k'|]]; try apply IH; reflexivity.
Qed.

Lemma run_try_catch (A : Type) (p : Prog St A) (h : Exn -> Prog St A)
      (w : World St) :
  run (try_catch p h) w =
  match run p w with
  | (w1, Finished r) => (w1, Finished r)
  | (w1, Failed e) => run (h e) w1
  | (w1, Suspended rq k) => (w1, Suspended rq (fun o => try_catch (k o) h))
  | (w1, Untyped) => (w1, Untyped)
  end.
Proof.
  revert h w.
  induction p as [A r|A e|A|A g k IH|A k IH|A k IH|A o k IH|A rq k IH|A p' IHp k IH];
    intros h w; simpl; try reflexivity; try apply IH.
  destruct (run p' w) as [w1 [r|e|rq k'|]]; try apply IH; reflexivity.
Qed.

Lemma run_try_finally (A : Type) (p : Prog St A) (c : Prog St unit)
      (w : World St) :
  run (try_finally p c) w =
  match run p w with
  | (w1, Finished r) => run (bind c (fun _ => Ret r)) w1
  | (w1, Failed e) => run (bind c (fun _ => Throw e)) w1
  | (w1, Suspended rq k) => (w1, Suspended rq (fun o => try_finally (k o) c))
  | (w1, Untyped) => (w1, Untyped)
  end.
Proof.
  revert c w.
  induction p as [A r|A e|A|A g k IH|A k IH|A k IH|A o k IH|A rq k IH|A p' IHp k IH];
    intros c w; simpl; try reflexivity; try apply IH.
  destruct (run p' w) as [w1 [r|e|rq k'|]]; try apply IH; reflexivity.
Qed.

End Run.

End AsyncFacts.

(** ** JSON values and objects *)

Module JsonFacts.

Lemma null_or_not (v : Json.Value) : v = Json.Null \/ v <> Json.Null.
Proof. destruct v; [left; reflexivity|right; discriminate..]. Qed.

Lemma assoc_app_other (key other : string) (v : Json.Value)
      (props : list (string * Json.Value)) :
  key <> other ->
  Json.assoc key (props ++ [(other, v)]) = Json.assoc key props.
Proof.
  intros Hk. induction props as [|[k x] props IH]; simpl.
  - destruct (String.eqb_spec other key) as [E|E]; [congruence|reflexivity].
  - destruct (String.eqb k key); [reflexivity|exact IH].
Qed.

(** A property other than [length] is read from what [spread] copies. *)
Lemma lookup_spread (key : string) (v : Json.Value) :
  key <> "length" -> Json.lookup key v = Json.assoc key (Json.spread v).
Proof.
  intros Hk. unfold Json.lookup.
  destruct v; simpl; try reflexivity; apply assoc_app_other; exact Hk.
Qed.

Lemma get_of_props (key : string) (props : list (string * Json.Value)) :
  Obj.get key (Obj.of_props props)
  = option_map Obj.Plain (Json.assoc key props).
Proof.
  induction props as [|[k x] props IH]; simpl; [reflexivity|].
  destruct (String.eqb k key); [reflexivity|exact IH].
Qed.

Lemma get_set_same (key : string) (f : Obj.Field) (o : Obj.Object) :
  Obj.get key (Obj.set key f o) = Some f.
Proof.
  induction o as [|[k g] o IH]; simpl.
  - rewrite String.eqb_refl. reflexivity.
  - destruct (String.eqb k key) eqn:E; simpl; rewrite E; [reflexivity|exact IH].
Qed.

Lemma get_set_other (key other : string) (f : Obj.Field) (o : Obj.Object) :
  key <> other ->
  Obj.get key (Obj.set other f o) = Obj.get key o.
Proof.
  intros Hk. induction o as [|[k g] o IH]; simpl.
  - destruct (String.eqb_spec other key) as [E|E]; [congruence|reflexivity].
  - destruct (String.eqb_spec k other) as [E|E]; simpl.
    + subst k. destruct (String.eqb_spec other key) as [E'|E'];
        [congruence|reflexivity].
    + destruct (String.eqb k key); [reflexivity|exact IH].
Qed.

(** A property of the object [{...m, key: f}] other than [key] is the
    property of [m]. *)
Lemma get_spread_set (key other : string) (f : Obj.Field) (m : Json.Value) :
  key <> other -> key <> "length" ->
  Obj.get key (Obj.set other f (Obj.spread m))
  = option_map Obj.Plain (Json.lookup key m).
Proof.
  intros Hk Hl. rewrite (get_set_other _ _ _ _ Hk).
  unfold Obj.spread. rewrite get_of_props, (lookup_spread _ _ Hl).
  reflexivity.
Qed.

End JsonFacts.

(** ** The API client *)

Module ApiFacts.
Import Types Async ApiService AsyncFacts.

(** Splits a response of the transport into the cases [request] tells
    apart: a rejection; a success response whose body parses, or not; an
    error response whose body parses, or not. *)
Ltac outcome_cases o :=
  let name := fresh "name" in
  let ok_ := fresh "ok_" in
  let status_ := fresh "status_" in
  let text_ := fresh "statusText_" in
  let json_ := fresh "json_" in
  let v := fresh "payload" in
  destruct o as [name | [ok_ status_ text_ json_]];
  [ | destruct ok_; destruct json_ as [v|] ].

(** Every operation of the client starts with its request.  For a
    hypothesis [H : answer call o = ...], the tactic names the rest of
    [call] after the request, in [H] and in the goal, so that what the
    caller does with the result can be computed. *)
Ltac abstract_call H :=
  match type of H with
  | context [answer ?call _] =>
      let rq := fresh "rq" in
      let k := fresh "k" in
      let E := fresh "E" in
      assert (E : exists rq k, call = Fetch rq k)
        by (eexists; eexists; reflexivity);
      destruct E as (rq & k & E); rewrite E in *; clear E;
      cbn [answer] in H
  end.

Section Request.
Variable St : Type.
Variable API_BASE_URL : string.
Variables (endpoint : string) (options : RequestInit).

Let call := request St API_BASE_URL endpoint options.

Lemma request_rejected (name : string) :
  answer call (FetchRejected name)
  = Throw (ExnApi (new_ApiError (Json.Str NETWORK_MESSAGE)
                                (Json.Str "NETWORK_ERROR") (DetailsCause name))).
Proof. reflexivity. Qed.

Lemma request_ok (status : nat) (statusText : string) (body : Json.Value) :
  answer call (FetchResolved {| ok := true; status := status;
                                statusText := statusText; json := Some body |})
  = Ret body.
Proof. reflexivity. Qed.

Lemma request_ok_unparsed (status : nat) (statusText : string) :
  answer call (FetchResolved {| ok := true; status := status;
                                statusText := statusText; json := None |})
  = Throw (ExnApi (new_ApiError (Json.Str NETWORK_MESSAGE)
                                (Json.Str "NETWORK_ERROR")
                                (DetailsCause "SyntaxError"))).
Proof. reflexivity. Qed.

Lemma request_error_unparsed (status : nat) (statusText : string) :
  answer call (FetchResolved {| ok := false; status := status;
                                statusText := statusText; json := None |})
  = Throw (ExnApi (new_ApiError
                     (Json.Str (Text.http_message status statusText))
                     (Json.Str "HTTP_ERROR") (DetailsBody (Json.Object [])))).
Proof. reflexivity. Qed.

Lemma request_error_null (status : nat) (statusText : string) :
  answer call (FetchResolved {| ok := false; status := status;
                                statusText := statusText;
                                json := Some Json.Null |})
  = Throw (ExnApi (new_ApiError (Json.Str NETWORK_MESSAGE)
                                (Json.Str "NETWORK_ERROR")
                                (DetailsCause "TypeError"))).
Proof. reflexivity. Qed.

Lemma request_error_body (status : nat) (statusText : string)
      (body : Json.Value) :
  body <> Json.Null ->
  answer call (FetchResolved {| ok := false; status := status;
                                statusText := statusText; json := Some body |})
  = Throw (ExnApi (new_ApiError
                     (Json.or_else (Json.lookup "message" body)
                        (Json.Str (Text.http_message status statusText)))
                     (Json.or_else (Json.lookup "code" body)
                        (Json.Str "HTTP_ERROR"))
                     (DetailsBody body))).
Proof. intros H. destruct body; try reflexivity. contradiction. Qed.

(** [request] settles as soon as the transport has answered: with the
    body, or with an [ApiError]. *)
Lemma request_settles (o : FetchResult) :
  (exists v, answer call o = Ret v)
  \/ (exists e, answer call o = Throw (ExnApi e)).
Proof.
  outcome_cases o; try (right; eexists; reflexivity).
  - left. eexists. reflexivity.
  - destruct payload; right; eexists; reflexivity.
Qed.






End Request.

(** *** Values read at their types *)

Lemma and_then_some (A B : Type) (a : option A) (f : A -> option B) (b : B) :
  Declared.and_then a f = Some b -> exists x, a = Some x /\ f x = Some b.
Proof. destruct a as [x|]; simpl; [eauto|discriminate]. Qed.

Lemma traverse_nth (A B : Type) (f : A -> option B) (l : list A) :
  forall r, Declared.traverse f l = Some r ->
    List.length r = List.length l
    /\ forall i a, nth_error l i = Some a ->
         exists b, nth_error r i = Some b /\ f a = Some b.
Proof.
  induction l as [|a l IH]; intros r H; simpl in H.
  - injection H as <-. split; [reflexivity|]. intros [|i] a Ha; discriminate.
  - apply and_then_some in H. destruct H as (b & Hb & H).
    apply and_then_some in H. destruct H as (bs & Hbs & H).
    injection H as <-. destruct (IH bs Hbs) as [Hlen Hnth].
    split; [simpl; congruence|].
    intros [|i] x Hx; simpl in Hx.
    + injection Hx as <-. exists b. split; [reflexivity|exact Hb].
    + exact (Hnth i x Hx).
Qed.

Lemma traverse_total (A B : Type) (f : A -> option B) (l : list A) :
  (forall a, In a l -> exists b, f a = Some b) ->
  exists r, Declared.traverse f l = Some r.
Proof.
  induction l as [|a l IH]; intros H; simpl.
  - eexists. reflexivity.
  - destruct (H a (or_introl eq_refl)) as [b ->].
    destruct IH as [r ->]; [intros x Hx; apply H; right; exact Hx|].
    simpl. eexists. reflexivity.
Qed.

Section Operations.
Variable St : Type.
Variable API_BASE_URL : string.

Lemma request_returns (endpoint : string) (options : RequestInit)
      (o : FetchResult) (v : Json.Value) :
  answer (request St API_BASE_URL endpoint options) o = Ret v ->
  exists status statusText, o = Text.success status statusText v.
Proof.
  outcome_cases o; try discriminate.
  - rewrite request_ok. intros [= <-]. eexists. eexists. reflexivity.
  - destruct payload; discriminate.
Qed.

Lemma run_declared (A B : Type) (as_B : A -> option B) (v : A) (w : World St) :
  run (declared St as_B v) w
  = (w, match as_B v with Some b => Finished b | None => Untyped end).
Proof. unfold declared. destruct (as_B v); reflexivity. Qed.




Lemma answer_operation (R : Type) (endpoint endpoint' : string)
      (options options' : RequestInit) (post : Json.Value -> Prog St R)
      (o : FetchResult) :
  answer (bind (request St API_BASE_URL endpoint options) post) o
  = bind (answer (request St API_BASE_URL endpoint' options') o) post.
Proof. reflexivity. Qed.

(** An operation that hands the body on at its type returns, or fails
    with a classified error, or has a body that is not of the type. *)
Lemma declared_operation_settles (B : Type) (endpoint : string)
      (options : RequestInit) (as_B : Json.Value -> option B)
      (o : FetchResult) :
  let call := bind (request St API_BASE_URL endpoint options)
                   (declared St as_B) in
  (exists v, answer call o = Ret v)
  \/ (exists e, answer call o = Throw (ExnApi e))
  \/ answer call o = Mistyped.
Proof.
  intros call. unfold call.
  rewrite (answer_operation _ endpoint endpoint options options).
  destruct (request_settles St API_BASE_URL endpoint options o)
    as [[v ->]|[e ->]].
  - cbn [bind]. unfold declared. destruct (as_B v) as [b|].
    + left. exists b. reflexivity.
    + right. right. reflexivity.
  - right. left. exists e. reflexivity.
Qed.

Lemma sendMessage_answer (req : ChatRequest) (status : nat)
      (statusText : string) (body : Json.Value) :
  answer (sendMessage St API_BASE_URL req)
         (Text.success status statusText body)
  = bind (get_prop St "timestamp" body)
         (fun timestamp =>
            declared St Declared.as_ChatResponse
                     (Obj.set "timestamp" (Obj.of_property timestamp)
                              (Obj.spread body))).
Proof. reflexivity. Qed.

Lemma get_prop_not_null (key : string) (v : Json.Value) :
  v <> Json.Null -> get_prop St key v = Ret (Json.lookup key v).
Proof. intros H. destruct v; try reflexivity. contradiction. Qed.

(** *** The conversion of the messages of a conversation *)

Lemma advance_tick (n : nat) (w : World St) :
  advance n (tick w) = advance (S n) w.
Proof. unfold advance, tick. simpl. f_equal. lia. Qed.

Lemma advance_0 (w : World St) : advance 0 w = w.
Proof. destruct w. unfold advance. simpl. f_equal. lia. Qed.

Lemma with_timestamp_null (w : World St) :
  run (with_timestamp St Json.Null) w = (w, Failed (ExnOther "TypeError")).
Proof. reflexivity. Qed.

Lemma with_timestamp_run (m : Json.Value) (w : World St) :
  m <> Json.Null ->
  run (with_timestamp St m) w
  = (if Text.no_timestamp m then tick w else w,
     Finished (Text.stamped w [m] 0 m)).
Proof.
  intros Hm. unfold with_timestamp, Text.stamped, Text.converted_timestamp,
    Text.no_timestamp, Text.stamps_before.
  cbn [firstn filter List.length]. rewrite Nat.add_0_r.
  assert (Hg : get_prop St "timestamp" m = Ret (Json.lookup "timestamp" m)).
  { destruct m; try reflexivity. contradiction. }
  rewrite Hg. cbn [bind].
  destruct (Json.lookup "timestamp" m) as [v|]; [|reflexivity].
  destruct (Json.truthy v); reflexivity.
Qed.

Lemma stamped_tail (w : World St) (a m : Json.Value) (raw : list Json.Value)
      (i : nat) :
  Text.stamped w (a :: raw) (S i) m
  = Text.stamped (if Text.no_timestamp a then tick w else w) raw i m.
Proof.
  unfold Text.stamped, Text.converted_timestamp, Text.stamps_before.
  cbn [firstn filter].
  destruct (Text.no_timestamp a); cbn [List.length tick reads clock];
    rewrite ?Nat.add_succ_r; reflexivity.
Qed.

Lemma stamps_before_cons (a : Json.Value) (raw : list Json.Value) (n : nat)
      (w : World St) :
  advance (Text.stamps_before n raw)
          (if Text.no_timestamp a then tick w else w)
  = advance (Text.stamps_before (S n) (a :: raw)) w.
Proof.
  unfold Text.stamps_before. cbn [firstn filter].
  destruct (Text.no_timestamp a); [apply advance_tick|reflexivity].
Qed.

(** The callback runs on the messages in order: a [null] among them
    stops the conversion with a TypeError; otherwise every message is
    converted, and the clock is read once for each message without a
    timestamp. *)
Lemma map_with_timestamp (raw : list Json.Value) :
  forall w : World St,
    (In Json.Null raw ->
     exists n, run (map_prog (with_timestamp St) raw) w
               = (advance n w, Failed (ExnOther "TypeError")))
    /\ (~ In Json.Null raw ->
        exists objs,
          run (map_prog (with_timestamp St) raw) w
          = (advance (Text.stamps_before (List.length raw) raw) w, Finished objs)
          /\ List.length objs = List.length raw
          /\ forall i m, nth_error raw i = Some m ->
               nth_error objs i = Some (Text.stamped w raw i m)).
Proof.
  induction raw as [|a raw IH]; intros w.
  - split; [intros []|]. intros _. exists []. simpl. rewrite advance_0.
    split; [reflexivity|]. split; [reflexivity|].
    intros [|i] m H; discriminate.
  - cbn [map_prog]. rewrite run_bind.
    destruct (JsonFacts.null_or_not a) as [->|Ha].
    + rewrite with_timestamp_null. split.
      * intros _. exists 0. rewrite advance_0. reflexivity.
      * intros H. exfalso. apply H. left. reflexivity.
    + rewrite (with_timestamp_run a w Ha). rewrite run_bind.
      destruct (IH (if Text.no_timestamp a then tick w else w)) as [Hnull Hok].
      split.
      * intros [H|H]; [congruence|].
        destruct (Hnull H) as [n ->].
        destruct (Text.no_timestamp a);
          [exists (S n); rewrite advance_tick|exists n]; reflexivity.
      * intros H.
        destruct Hok as (objs & -> & Hlen & Hnth);
          [intros H'; apply H; right; exact H'|].
        cbn [run]. rewrite stamps_before_cons.
        eexists. split; [reflexivity|]. split; [simpl; congruence|].
        intros [|i] m Hm; simpl in Hm.
        -- injection Hm as <-. reflexivity.
        -- simpl. rewrite stamped_tail. exact (Hnth i m Hm).
Qed.

End Operations.

(** *** What the operations throw *)

Lemma null_in_or_not (l : list Json.Value) :
  In Json.Null l \/ ~ In Json.Null l.
Proof.
  induction l as [|a l [IH|IH]].
  - right. intros [].
  - left. right. exact IH.
  - destruct (JsonFacts.null_or_not a) as [->|Ha].
    + left. left. reflexivity.
    + right. intros [H|H]; [congruence|contradiction].
Qed.





(** *** The messages of a conversation at their type *)

Lemma as_string_plain (x : option Json.Value) (s : string) :
  Declared.as_string (option_map Obj.Plain x) = Some s ->
  x = Some (Json.Str s).
Proof.
  destruct x as [[]|]; simpl; try discriminate. intros [= <-]. reflexivity.
Qed.

Lemma as_number_plain (x : option Json.Value) (n : number) :
  Declared.as_number (option_map Obj.Plain x) = Some n ->
  x = Some (Json.Number n).
Proof.
  destruct x as [[]|]; simpl; try discriminate. intros [= <-]. reflexivity.
Qed.

Lemma Sender_of_name_inv (s : string) (a : Sender) :
  Declared.Sender_of_name s = Some a -> s = Text.sender_name a.
Proof.
  unfold Declared.Sender_of_name.
  destruct (String.eqb_spec s "user") as [->|_]; [intros [= <-]; reflexivity|].
  destruct (String.eqb_spec s "ai") as [->|_]; [intros [= <-]; reflexivity|].
  discriminate.
Qed.

Lemma Category_of_name_inv (s : string) (a : Category) :
  Declared.Category_of_name s = Some a -> s = category_name a.
Proof.
  unfold Declared.Category_of_name.
  destruct (String.eqb_spec s "bug-fix") as [->|_];
    [intros [= <-]; reflexivity|].
  destruct (String.eqb_spec s "learning") as [->|_];
    [intros [= <-]; reflexivity|].
  destruct (String.eqb_spec s "general") as [->|_];
    [intros [= <-]; reflexivity|].
  discriminate.
Qed.

Lemma MessageType_of_name_inv (s : string) (a : MessageType) :
  Declared.MessageType_of_name s = Some a -> s = Text.type_name a.
Proof.
  unfold Declared.MessageType_of_name.
  destruct (String.eqb_spec s "text") as [->|_]; [intros [= <-]; reflexivity|].
  destruct (String.eqb_spec s "code") as [->|_]; [intros [= <-]; reflexivity|].
  destruct (String.eqb_spec s "file") as [->|_]; [intros [= <-]; reflexivity|].
  discriminate.
Qed.

(** An optional property that was read at its type holds the JSON of
    what was read, or is not there. *)
Lemma optional_plain (A : Type) (as_A : option Obj.Field -> option A)
      (json : A -> Json.Value) (x : option Json.Value) (a : option A) :
  (forall y b, as_A (option_map Obj.Plain y) = Some b -> y = Some (json b)) ->
  Declared.optional as_A (option_map Obj.Plain x) = Some a ->
  x = option_map json a.
Proof.
  intros Hinv. destruct x as [v|]; simpl.
  - intros H. apply and_then_some in H. destruct H as (b & Hb & [= <-]).
    exact (Hinv (Some v) b Hb).
  - intros [= <-]. reflexivity.
Qed.

Lemma as_Sender_plain (x : option Json.Value) (a : Sender) :
  Declared.as_Sender (option_map Obj.Plain x) = Some a ->
  x = Some (Json.Str (Text.sender_name a)).
Proof.
  intros H. apply and_then_some in H. destruct H as (s & Hs & H).
  apply as_string_plain in Hs. apply Sender_of_name_inv in H. congruence.
Qed.

Lemma as_Category_plain (x : option Json.Value) (a : Category) :
  Declared.as_Category (option_map Obj.Plain x) = Some a ->
  x = Some (Json.Str (category_name a)).
Proof.
  intros H. apply and_then_some in H. destruct H as (s & Hs & H).
  apply as_string_plain in Hs. apply Category_of_name_inv in H. congruence.
Qed.

Lemma as_MessageType_plain (x : option Json.Value) (a : MessageType) :
  Declared.as_MessageType (option_map Obj.Plain x) = Some a ->
  x = Some (Json.Str (Text.type_name a)).
Proof.
  intros H. apply and_then_some in H. destruct H as (s & Hs & H).
  apply as_string_plain in Hs. apply MessageType_of_name_inv in H. congruence.
Qed.

Lemma as_MessageMetadata_plain (x : option Json.Value) (d : MessageMetadata) :
  Declared.as_MessageMetadata (option_map Obj.Plain x) = Some d ->
  exists props,
    x = Some (Json.Object props)
    /\ Json.assoc "model" props = option_map Json.Str (m_model d)
    /\ Json.assoc "tokens" props = option_map Json.Number (m_tokens d)
    /\ Json.assoc "processingTime" props
       = option_map Json.Number (m_processingTime d).
Proof.
  intros H. apply and_then_some in H. destruct H as (o & Ho & H).
  destruct x as [[| | | | |props]|]; try discriminate.
  injection Ho as <-. exists props. split; [reflexivity|].
  rewrite !JsonFacts.get_of_props in H.
  apply and_then_some in H. destruct H as (model & Hmodel & H).
  apply and_then_some in H. destruct H as (tokens & Htokens & H).
  apply and_then_some in H. destruct H as (time & Htime & H).
  injection H as <-. cbn [m_model m_tokens m_processingTime].
  split; [|split].
  - exact (optional_plain _ _ Json.Str _ _ as_string_plain Hmodel).
  - exact (optional_plain _ _ Json.Number _ _ as_number_plain Htokens).
  - exact (optional_plain _ _ Json.Number _ _ as_number_plain Htime).
Qed.

(** The object [{...m, timestamp: d}] read as a message of the session:
    its timestamp is [d], and its other fields are those of [m]. *)
Lemma as_ChatMessage_stamped (m : Json.Value) (d : Date) (m' : ChatMessage) :
  Declared.as_ChatMessage
    (Obj.set "timestamp" (Obj.DateValue d) (Obj.spread m)) = Some m' ->
  timestamp m' = d /\ Text.same_fields m m'.
Proof.
  unfold Declared.as_ChatMessage.
  rewrite JsonFacts.get_set_same.
  rewrite !JsonFacts.get_spread_set by discriminate.
  intros H.
  apply and_then_some in H. destruct H as (id_ & Hid & H).
  apply and_then_some in H. destruct H as (content_ & Hcontent & H).
  apply and_then_some in H. destruct H as (sender_ & Hsender & H).
  apply and_then_some in H. destruct H as (date_ & Hdate & H).
  apply and_then_some in H. destruct H as (type_ & Htype & H).
  apply and_then_some in H. destruct H as (category_ & Hcategory & H).
  apply and_then_some in H. destruct H as (metadata_ & Hmetadata & H).
  injection H as <-. injection Hdate as <-.
  split; [reflexivity|]. unfold Text.same_fields.
  cbn [id content sender type category metadata].
  split; [exact (as_string_plain _ _ Hid)|].
  split; [exact (as_string_plain _ _ Hcontent)|].
  split; [exact (as_Sender_plain _ _ Hsender)|].
  split; [exact (optional_plain _ _ (fun t => Json.Str (Text.type_name t)) _ _
                   as_MessageType_plain Htype)|].
  split; [exact (optional_plain _ _ (fun c => Json.Str (category_name c)) _ _
                   as_Category_plain Hcategory)|].
  destruct metadata_ as [d'|].
  - destruct (Json.lookup "metadata" m) as [v|] eqn:E; simpl in Hmetadata.
    + apply and_then_some in Hmetadata. destruct Hmetadata as (b & Hb & [= <-]).
      destruct (as_MessageMetadata_plain (Some v) b Hb) as (props & Hp & Hrest).
      exists props. split; [exact Hp|exact Hrest].
    + discriminate.
  - destruct (Json.lookup "metadata" m) as [v|] eqn:E; simpl in Hmetadata.
    + apply and_then_some in Hmetadata. destruct Hmetadata as (b & _ & H).
      discriminate.
    + reflexivity.
Qed.

(** A message of the backend, converted, is that message of the session:
    nothing but the timestamp has changed. *)
Lemma as_ChatMessage_wire (m : WireMessage) (d : Date) :
  Declared.as_ChatMessage
    (Obj.set "timestamp" (Obj.DateValue d)
             (Obj.spread (Text.WireMessage_json m)))
  = Some (Text.at_date m d).
Proof.
  destruct m as [i c s t ty cat md].
  destruct s, t as [t|], ty as [[]|], cat as [[]|],
    md as [[[mo|] [tk|] [pt|]]|]; reflexivity.
Qed.

Lemma timestamp_of_wire (m : WireMessage) :
  Json.lookup "timestamp" (Text.WireMessage_json m)
  = option_map Json.Str (timestamp m).
Proof.
  destruct m as [i c s t ty cat md]. destruct t as [t|]; [reflexivity|].
  destruct ty as [ty|], cat as [cat|], md as [md|]; reflexivity.
Qed.

Section GetConversation.
Variable St : Type.
Variable API_BASE_URL : string.

Lemma getConversation_answer (id : string) (status : nat) (statusText : string)
      (raw : list Json.Value) :
  answer (getConversation St API_BASE_URL id)
         (Text.success status statusText (Json.Array raw))
  = bind (map_prog (with_timestamp St) raw)
         (declared St (Declared.traverse Declared.as_ChatMessage)).
Proof. reflexivity. Qed.

(** When [getConversation] returns, the messages it returns are those of
    the body, one for one: each with the timestamp that the conversion
    gave it, and with its other fields kept. *)
(** When [getConversation] returns, the messages it returns are those of
    the body, one for one: each is the object that the conversion made of
    the message of the body, read as a message of the session. *)
Lemma getConversation_decoded (id : string) (status : nat)
      (statusText : string) (raw : list Json.Value) (w w' : World St)
      (msgs : list ChatMessage) :
  run (answer (getConversation St API_BASE_URL id)
              (Text.success status statusText (Json.Array raw))) w
  = (w', Finished msgs) ->
  w' = advance (Text.stamps_before (List.length raw) raw) w
  /\ List.length msgs = List.length raw
  /\ forall i m, nth_error raw i = Some m ->
       exists m', nth_error msgs i = Some m'
         /\ Declared.as_ChatMessage (Text.stamped w raw i m) = Some m'.
Proof.
  rewrite getConversation_answer, run_bind.
  destruct (map_with_timestamp St raw w) as [Hnull Hok].
  destruct (null_in_or_not raw) as [Hin|Hin].
  - destruct (Hnull Hin) as [n ->]. discriminate.
  - destruct (Hok Hin) as (objs & -> & Hlen & Hnth).
    rewrite run_declared.
    destruct (Declared.traverse Declared.as_ChatMessage objs) as [r|] eqn:E;
      [|discriminate].
    intros [= <- <-]. split; [reflexivity|].
    destruct (traverse_nth _ _ _ _ _ E) as [Hlen' Hnth'].
    split; [congruence|].
    intros i m Hm. exact (Hnth' i _ (Hnth i m Hm)).
Qed.

(** Each has the timestamp that the conversion gave it, and its other
    fields are kept. *)
Lemma getConversation_returns (id : string) (status : nat)
      (statusText : string) (raw : list Json.Value) (w w' : World St)
      (msgs : list ChatMessage) :
  run (answer (getConversation St API_BASE_URL id)
              (Text.success status statusText (Json.Array raw))) w
  = (w', Finished msgs) ->
  w' = advance (Text.stamps_before (List.length raw) raw) w
  /\ List.length msgs = List.length raw
  /\ forall i m, nth_error raw i = Some m ->
       exists m', nth_error msgs i = Some m'
         /\ timestamp m' = Text.converted_timestamp w raw i m
         /\ Text.same_fields m m'.
Proof.
  intros H.
  destruct (getConversation_decoded id status statusText raw w w' msgs H)
    as (Hw & Hlen & Hnth).
  split; [exact Hw|]. split; [exact Hlen|].
  intros i m Hm. destruct (Hnth i m Hm) as (m' & H1 & H2).
  exists m'. split; [exact H1|].
  apply as_ChatMessage_stamped. exact H2.
Qed.

(** Whatever the response, [getConversation] does nothing but read the
    clock. *)
Lemma getConversation_reads_the_clock (id : string) (o : FetchResult)
      (w w' : World St) (st : Status St (list ChatMessage)) :
  run (answer (getConversation St API_BASE_URL id) o) w = (w', st) ->
  exists n, w' = advance n w.
Proof.
  intros H. exists (reads w' - reads w). revert H.
  assert (Hsame : forall x : World St * Status St (list ChatMessage),
             x = (w, snd x) -> x = (w', st) -> w' = advance (reads w' - reads w) w).
  { intros x Hx Hx'. rewrite Hx in Hx'. injection Hx' as <- _.
    rewrite Nat.sub_diag. symmetry. apply advance_0. }
  assert (Hadv : forall n (x : Status St (list ChatMessage)),
             (advance n w, x) = (w', st) -> w' = advance (reads w' - reads w) w).
  { intros n x [= <- _]. cbn [advance reads]. f_equal. lia. }
  destruct (request_settles St API_BASE_URL "" no_options o) as [[v Hv]|[e He]].
  - destruct (request_returns St API_BASE_URL _ _ o v Hv)
      as (status & statusText & ->).
    destruct v as [| | | |items|]; try (apply Hsame; reflexivity).
    rewrite getConversation_answer, run_bind.
    destruct (map_with_timestamp St items w) as [Hnull Hok].
    destruct (null_in_or_not items) as [Hin|Hin].
    + destruct (Hnull Hin) as [n ->]. apply Hadv.
    + destruct (Hok Hin) as (objs & -> & _). rewrite run_declared. apply Hadv.
  - unfold getConversation.
    rewrite (answer_operation St API_BASE_URL _ _ "" _ no_options), He.
    apply Hsame. reflexivity.
Qed.

(** On the messages of the backend, [getConversation] returns. *)
Lemma getConversation_total (id : string) (status : nat)
      (statusText : string) (wire : list WireMessage) (w : World St) :
  let raw := map Text.WireMessage_json wire in
  exists msgs,
    run (answer (getConversation St API_BASE_URL id)
                (Text.success status statusText (Json.Array raw))) w
    = (advance (Text.stamps_before (List.length raw) raw) w, Finished msgs).
Proof.
  intros raw. rewrite getConversation_answer, run_bind.
  destruct (map_with_timestamp St raw w) as [_ Hok].
  destruct Hok as (objs & -> & Hlen & Hnth).
  { unfold raw. intros H. apply in_map_iff in H.
    destruct H as (m & Hm & _). discriminate. }
  rewrite run_declared.
  destruct (traverse_total _ _ Declared.as_ChatMessage objs) as [r ->].
  - intros o Ho. apply In_nth_error in Ho. destruct Ho as [i Hi].
    assert (Hlt : (i < List.length raw)%nat).
    { rewrite <- Hlen. apply nth_error_Some. congruence. }
    destruct (nth_error raw i) as [m|] eqn:Em;
      [|apply nth_error_None in Em; lia].
    rewrite (Hnth i m Em) in Hi. injection Hi as <-.
    unfold raw in Em. rewrite nth_error_map in Em.
    destruct (nth_error wire i) as [x|]; [|discriminate].
    injection Em as <-. eexists. apply as_ChatMessage_wire.
  - eexists. reflexivity.
Qed.

End GetConversation.

(** C9. Fetching the messages of a conversation turns the wire timestamp
    of each message into a Date: the date its string denotes, and, for a
    message without a timestamp (or with an empty one), the time of the
    clock when the message is converted; every other field of the message
    is kept.  On the messages of the backend (the timestamp a string, or
    left out) the fetch returns, with one message for each, whose id,
    content, sender, type, category and metadata are those of the message
    of the backend; and whatever array the body is, when the fetch returns
    its messages have the fields that the messages of the body have. *)
Theorem getConversation_converts_timestamps :
  forall (St : Type) (API_BASE_URL conversation : string) (status : nat)
         (statusText : string) (w : World St),
    (forall wire : list WireMessage,
        let raw := map Text.WireMessage_json wire in
        exists msgs,
          run (answer (getConversation St API_BASE_URL conversation)
                      (Text.success status statusText (Json.Array raw))) w
          = (advance (Text.stamps_before (List.length raw) raw) w,
             Finished msgs)
          /\ List.length msgs = List.length wire
          /\ forall i m, nth_error wire i = Some m ->
               exists m', nth_error msgs i = Some m'
                 /\ id m' = id m
                 /\ content m' = content m
                 /\ sender m' = sender m
                 /\ type m' = type m
                 /\ category m' = category m
                 /\ metadata m' = metadata m
                 /\ timestamp m'
                    = match timestamp m with
                      | Some (String c s) => DateOfString (String c s)
                      | _ => DateOfTime
                               (clock w (reads w + Text.stamps_before i raw))
                      end)
    /\ (forall (raw : list Json.Value) (w' : World St)
               (msgs : list ChatMessage),
          run (answer (getConversation St API_BASE_URL conversation)
                      (Text.success status statusText (Json.Array raw))) w
          = (w', Finished msgs) ->
          List.length msgs = List.length raw
          /\ forall i m, nth_error raw i = Some m ->
               exists m', nth_error msgs i = Some m'
                 /\ (forall s, Json.lookup "timestamp" m = Some (Json.Str s) ->
                               s <> "" -> timestamp m' = DateOfString s)
                 /\ (Text.no_timestamp m = true ->
                     timestamp m'
                     = DateOfTime (clock w (reads w + Text.stamps_before i raw)))
                 /\ Text.same_fields m m').
Proof.
  intros St base conversation status statusText w. split.
  - intros wire raw.
    destruct (getConversation_total St base conversation status statusText
                                    wire w) as [msgs Hrun].
    exists msgs. split; [exact Hrun|].
    destruct (getConversation_decoded St base conversation status statusText
                                      _ w _ msgs Hrun) as (_ & Hlen & Hnth).
    split; [rewrite Hlen; apply length_map|].
    intros i m Hm.
    assert (Hraw : nth_error raw i = Some (Text.WireMessage_json m)).
    { unfold raw. rewrite nth_error_map, Hm. reflexivity. }
    destruct (Hnth i _ Hraw) as (m' & H1 & H2).
    exists m'. split; [exact H1|].
    unfold Text.stamped in H2. rewrite as_ChatMessage_wire in H2.
    injection H2 as <-. cbn [Text.at_date id content sender type category
                                           metadata timestamp].
    repeat (split; [reflexivity|]).
    unfold Text.converted_timestamp. rewrite timestamp_of_wire.
    destruct (timestamp m) as [[|c s]|]; reflexivity.
  - intros raw w' msgs Hrun.
    destruct (getConversation_returns St base conversation status statusText
                                      raw w w' msgs Hrun) as (_ & Hlen & Hnth).
    split; [exact Hlen|].
    intros i m Hm. destruct (Hnth i m Hm) as (m' & H1 & H2 & H3).
    exists m'. split; [exact H1|].
    unfold Text.converted_timestamp in H2. unfold Text.no_timestamp.
    split; [|split; [|exact H3]].
    + intros s Hs Hne. rewrite Hs in H2.
      destruct s; [contradiction|exact H2].
    + destruct (Json.lookup "timestamp" m) as [v|]; [|intros _; exact H2].
      destruct (Json.truthy v); [discriminate|intros _; exact H2].
Qed.

End ApiFacts.

(** ** The chat session *)

Module ChatFacts.
Import Types Async UseChat AsyncFacts ApiFacts.

Section Session.
Variable API_BASE_URL : string.
Variable options : UseChatOptions.


(** A response that arrives for a send is applied to the session as it is
    then, whatever became of the session in between: the message is
    appended, the flags are set, the handle is cleared. *)
Lemma sendMessage_success (content : string) (category : option Category)
      (context : option App.JsObject) (w w1 : World State)
      (o : FetchResult) (response : ChatResponse) :
  Js.trim content <> "" ->
  answer (ApiService.sendMessage State API_BASE_URL
            (Text.request_of options content category context)) o
    = Ret response ->
  answered (sendMessage API_BASE_URL options false content category context)
           w o w1
  = ({| hook := {| messages := messages (hook w1)
                                ++ [Text.aiMessage_of category response];
                   isLoading := false;
                   isConnected := true;
                   abortControllerRef := None;
                   controllers := controllers (hook w1) |};
        clock := clock w1; reads := reads w1;
        outputs := outputs w1; pending := pending w1 |},
     Finished tt).
Proof.
  intros Hc H. unfold answered, sendMessage.
  destruct (Js.trim content) as [|c0 t0] eqn:Et; [contradiction|].
  cbn [Js.truthy negb orb]. cbv zeta.
  unfold Text.request_of in H. abstract_call H.
  destruct (abortControllerRef (hook w)) eqn:Eref;
    simpl; rewrite Eref; simpl; rewrite H; reflexivity.
Qed.

Lemma sendMessage_failure (content : string) (category : option Category)
      (context : option App.JsObject) (w w1 : World State)
      (o : FetchResult) (e : ApiError) :
  Js.trim content <> "" ->
  answer (ApiService.sendMessage State API_BASE_URL
            (Text.request_of options content category context)) o
    = Throw (ExnApi e) ->
  answered (sendMessage API_BASE_URL options false content category context)
           w o w1
  = ({| hook := {| messages :=
                     messages (hook w1)
                     ++ [Text.error_reply e (clock w1 (reads w1))
                                         (clock w1 (S (reads w1)))];
                   isLoading := false;
                   isConnected := negb (Json.is_string "NETWORK_ERROR" (code e));
                   abortControllerRef := None;
                   controllers := controllers (hook w1) |};
        clock := clock w1; reads := S (S (reads w1));
        outputs := (outputs w1
                    ++ [ConsoleError "Failed to send message:" (ExnApi e)])
                   ++ (if onError options then [OnError e] else []);
        pending := pending w1 |},
     Finished tt).
Proof.
  intros Hc H. unfold answered, sendMessage.
  destruct (Js.trim content) as [|c0 t0] eqn:Et; [contradiction|].
  cbn [Js.truthy negb orb]. cbv zeta.
  unfold Text.request_of in H. abstract_call H.
  destruct (abortControllerRef (hook w)) eqn:Eref;
    simpl; rewrite Eref; simpl; rewrite H; unfold call_onError;
    destruct (onError options); simpl; rewrite ?app_nil_r; reflexivity.
Qed.

(** An error that is not classified is written to the console, and that
    is all: no message is added, and the connection flag is left as it
    is. *)
Lemma sendMessage_unclassified (content : string) (category : option Category)
      (context : option App.JsObject) (w w1 : World State)
      (o : FetchResult) (name : string) :
  Js.trim content <> "" ->
  answer (ApiService.sendMessage State API_BASE_URL
            (Text.request_of options content category context)) o
    = Throw (ExnOther name) ->
  answered (sendMessage API_BASE_URL options false content category context)
           w o w1
  = ({| hook := {| messages := messages (hook w1);
                   isLoading := false;
                   isConnected := isConnected (hook w1);
                   abortControllerRef := None;
                   controllers := controllers (hook w1) |};
        clock := clock w1; reads := reads w1;
        outputs := outputs w1
                   ++ [ConsoleError "Failed to send message:" (ExnOther name)];
        pending := pending w1 |},
     Finished tt).
Proof.
  intros Hc H. unfold answered, sendMessage.
  destruct (Js.trim content) as [|c0 t0] eqn:Et; [contradiction|].
  cbn [Js.truthy negb orb]. cbv zeta.
  unfold Text.request_of in H. abstract_call H.
  destruct (abortControllerRef (hook w)) eqn:Eref;
    simpl; rewrite Eref; simpl; rewrite H; reflexivity.
Qed.

(** A response that is not of its type takes the send out of the
    model. *)
Lemma sendMessage_mistyped (content : string) (category : option Category)
      (context : option App.JsObject) (w w1 : World State)
      (o : FetchResult) :
  Js.trim content <> "" ->
  answer (ApiService.sendMessage State API_BASE_URL
            (Text.request_of options content category context)) o
    = Mistyped ->
  answered (sendMessage API_BASE_URL options false content category context)
           w o w1
  = (w1, Untyped).
Proof.
  intros Hc H. unfold answered, sendMessage.
  destruct (Js.trim content) as [|c0 t0] eqn:Et; [contradiction|].
  cbn [Js.truthy negb orb]. cbv zeta.
  unfold Text.request_of in H. abstract_call H.
  destruct (abortControllerRef (hook w)) eqn:Eref;
    simpl; rewrite Eref; simpl; rewrite H; reflexivity.
Qed.

Lemma loadConversation_failure (id : string)
      (w w1 : World State)
      (o : FetchResult) (e : ApiError) :
  answer (ApiService.getConversation State API_BASE_URL id) o
    = Throw (ExnApi e) ->
  answered (loadConversation API_BASE_URL options id) w o w1
  = ({| hook := {| messages := messages (hook w1);
                   isLoading := false;
                   isConnected := negb (Json.is_string "NETWORK_ERROR" (code e));
                   abortControllerRef := abortControllerRef (hook w1);
                   controllers := controllers (hook w1) |};
        clock := clock w1; reads := reads w1;
        outputs := (outputs w1
                    ++ [ConsoleError "Failed to load conversation:" (ExnApi e)])
                   ++ (if onError options then [OnError e] else []);
        pending := pending w1 |},
     Finished tt).
Proof.
  intros H. unfold answered, loadConversation. abstract_call H.
  simpl. rewrite H. unfold call_onError.
  destruct (onError options); simpl; rewrite ?app_nil_r; reflexivity.
Qed.

Lemma is_string_spec (s : string) (v : Json.Value) :
  Json.is_string s v = true <-> v = Json.Str s.
Proof.
  destruct v; simpl; try (split; [discriminate|intros [=]]).
  destruct (String.eqb_spec s0 s) as [->|E]; split; try tauto; try discriminate.
  intros [= H]. contradiction.
Qed.

Lemma flag_of_code (flag : bool) (e : ApiError) :
  flag = negb (Json.is_string "NETWORK_ERROR" (code e)) ->
  (flag = false <-> code e = Json.Str "NETWORK_ERROR")
  /\ (code e <> Json.Str "NETWORK_ERROR" -> flag = true).
Proof.
  intros ->. pose proof (is_string_spec "NETWORK_ERROR" (code e)) as Hs.
  destruct (Json.is_string "NETWORK_ERROR" (code e)); simpl.
  - split; [split; [intros _; apply Hs; reflexivity|reflexivity]|].
    intros Hn. exfalso. apply Hn. apply Hs. reflexivity.
  - split; [|reflexivity].
    split; [discriminate|]. intros Hc. apply Hs in Hc. discriminate.
Qed.

End Session.




(** C2. When a send or a load fails with a classified error, the
    connection flag becomes false if and only if the code of the error is
    NETWORK_ERROR; with any other code it becomes true. *)
Theorem connection_flag_false_iff_network_error :
  forall (API_BASE_URL : string) (options : UseChatOptions) (e : ApiError),
    (forall (content : string) (category : option Category)
            (context : option App.JsObject)
            (w w1 : World State) (o : FetchResult),
        Js.trim content <> "" ->
        answer (ApiService.sendMessage State API_BASE_URL
                  (Text.request_of options content category context)) o
          = Throw (ExnApi e) ->
        let flag :=
          isConnected (hook (fst (answered
            (sendMessage API_BASE_URL options false content category context)
            w o w1))) in
        (flag = false <-> code e = Json.Str "NETWORK_ERROR")
        /\ (code e <> Json.Str "NETWORK_ERROR" -> flag = true))
    /\ (forall (id : string) (w w1 : World State)
               (o : FetchResult),
          answer (ApiService.getConversation State API_BASE_URL id) o
            = Throw (ExnApi e) ->
          let flag :=
            isConnected (hook (fst (answered
              (loadConversation API_BASE_URL options id) w o w1))) in
          (flag = false <-> code e = Json.Str "NETWORK_ERROR")
          /\ (code e <> Json.Str "NETWORK_ERROR" -> flag = true)).
Proof.
  intros base options e. split.
  - intros content category context w w1 o Hc H flag. apply flag_of_code.
    unfold flag.
    rewrite (sendMessage_failure base options content category context
                                 w w1 o e Hc H).
    reflexivity.
  - intros id w w1 o H flag. apply flag_of_code. unfold flag.
    rewrite (loadConversation_failure base options id w w1 o e H).
    reflexivity.
Qed.

(** A transfer that is rejected disconnects; a 500 with a JSON body that
    names its own code leaves the session connected. *)
Lemma connection_flag_false_iff_network_error_witness :
  let options := {| conversationId := "c1"; onError := true |} in
  let w := Text.fresh_world initial in
  let failure := new_ApiError (Json.Str ApiService.NETWORK_MESSAGE)
                              (Json.Str "NETWORK_ERROR")
                              (DetailsCause "TypeError") in
  isConnected (hook (fst (answered
    (sendMessage "" options false "hello" None None)
    w (FetchRejected "TypeError") w))) = false
  /\ isConnected (hook (fst (answered
       (loadConversation "" options "c1")
       (Text.fresh_world initial)
       (FetchRejected "TypeError")
       (Text.fresh_world initial)))) = false.
Proof.
  intros options w failure.
  pose proof (connection_flag_false_iff_network_error "" options failure)
    as [Hsend Hload].
  split.
  - apply (Hsend "hello" None None w w (FetchRejected "TypeError"));
      [discriminate|reflexivity|reflexivity].
  - apply (Hload "c1" (Text.fresh_world initial) (Text.fresh_world initial)
                 (FetchRejected "TypeError"));
      reflexivity.
Defined.

(** C1, on the code. Two sends pass the guard of one render; the second
    aborts the controller of the first and replaces the handle, but the
    signal is handed to no transfer and no result is compared with the
    handle: when the first response arrives after the second, it is
    appended all the same. *)
Theorem late_first_response_is_appended :
  let options := {| conversationId := "c1"; onError := true |} in
  let final :=
    hook (Text.second_send_then_late_first_response
            "" options "first" "second"
            (Text.ok_response (Text.ChatResponse_json (Text.reply "r1" "answer to first")))
            (Text.ok_response (Text.ChatResponse_json (Text.reply "r2" "answer to second")))
            (Text.fresh_world initial)) in
  messages final
  = [ Text.userMessage_of "first" None 1000 1001;
      Text.userMessage_of "second" None 1002 1003;
      Text.aiMessage_of None (Text.reply "r2" "answer to second");
      Text.aiMessage_of None (Text.reply "r1" "answer to first") ]
  /\ map (fun m => (id m, content m)) (messages final)
     = [ ("user-1000", "first"); ("user-1002", "second");
         ("r2", "answer to second"); ("r1", "answer to first") ]
  /\ controllers final = [true; false]
  /\ abortControllerRef final = None.
Proof. repeat split; vm_compute; reflexivity. Qed.

End ChatFacts.

(** ** The conversation registry *)

Module RegistryFacts.
Import Types Async UseConversations AsyncFacts ApiFacts.

(** *** The query in the address of a search *)

(** Computes the encoding and the UTF-8 of a given character. *)
Ltac encode_char :=
  repeat match goal with
    | |- context [ApiService.form_encode_char ?c] =>
        let e := eval vm_compute in (ApiService.form_encode_char c) in
        change (ApiService.form_encode_char c) with e
    | |- context [Text.utf8_bytes ?c] =>
        let b := eval vm_compute in (Text.utf8_bytes c) in
        change (Text.utf8_bytes c) with b
    end.

Lemma form_bytes_encode_char (c : ascii) (rest : string) :
  Text.form_bytes (ApiService.form_encode_char c ++ rest)
  = option_map (app (Text.utf8_bytes c)) (Text.form_bytes rest).
Proof.
  destruct c as [[] [] [] [] [] [] [] []]; encode_char; simpl;
    destruct (Text.form_bytes rest); reflexivity.
Qed.

Lemma utf8_text_bytes (c : ascii) (bytes : list nat) :
  Text.utf8_text (Text.utf8_bytes c ++ bytes)
  = option_map (String c) (Text.utf8_text bytes).
Proof.
  destruct c as [[] [] [] [] [] [] [] []]; encode_char; simpl;
    destruct (Text.utf8_text bytes); reflexivity.
Qed.

(** The query is read back from what [URLSearchParams] made of it. *)
Lemma form_decode_encode (query : string) :
  Text.form_decode (ApiService.form_encode query) = Some query.
Proof.
  unfold Text.form_decode.
  assert (H : exists bytes,
             Text.form_bytes (ApiService.form_encode query) = Some bytes
             /\ Text.utf8_text bytes = Some query).
  { induction query as [|c query (bytes & Hb & Ht)].
    - exists []. split; reflexivity.
    - cbn [ApiService.form_encode]. rewrite form_bytes_encode_char, Hb.
      eexists. split; [reflexivity|].
      rewrite utf8_text_bytes, Ht. reflexivity. }
  destruct H as (bytes & -> & H). exact H.
Qed.

Section Registry.
Variable API_BASE_URL : string.

Lemma createConversation_success (title : string) (category : Category)
      (w w1 : World State)
      (o : FetchResult) (c : ConversationSummary) :
  answer (ApiService.createConversation State API_BASE_URL title
            (category_name category)) o = Ret c ->
  answered (createConversation API_BASE_URL title category) w o w1
  = ({| hook := {| conversations := c :: conversations (hook w1);
                   isLoading := isLoading (hook w1);
                   error := error (hook w1) |};
        clock := clock w1; reads := reads w1;
        outputs := outputs w1; pending := pending w1 |},
     Finished c).
Proof.
  intros H. unfold answered, createConversation. abstract_call H.
  simpl. rewrite H. reflexivity.
Qed.

Lemma createConversation_failure (title : string) (category : Category)
      (w w1 : World State)
      (o : FetchResult) (e : ApiError) :
  answer (ApiService.createConversation State API_BASE_URL title
            (category_name category)) o = Throw (ExnApi e) ->
  answered (createConversation API_BASE_URL title category) w o w1
  = ({| hook := {| conversations := conversations (hook w1);
                   isLoading := isLoading (hook w1);
                   error := Some (message e) |};
        clock := clock w1; reads := reads w1;
        outputs := outputs w1
                   ++ [ConsoleError "Failed to create conversation:" (ExnApi e)];
        pending := pending w1 |},
     Failed (ExnApi e)).
Proof.
  intros H. unfold answered, createConversation. abstract_call H.
  simpl. rewrite H. reflexivity.
Qed.

Lemma deleteConversation_success (id : string) (w w1 : World State)
      (o : FetchResult) :
  answer (ApiService.deleteConversation State API_BASE_URL id) o = Ret tt ->
  answered (deleteConversation API_BASE_URL id) w o w1
  = ({| hook := {| conversations :=
                     filter (fun conv => negb (String.eqb (conv_id conv) id))
                            (conversations (hook w1));
                   isLoading := isLoading (hook w1);
                   error := error (hook w1) |};
        clock := clock w1; reads := reads w1;
        outputs := outputs w1; pending := pending w1 |},
     Finished tt).
Proof.
  intros H. unfold answered, deleteConversation. abstract_call H.
  simpl. rewrite H. reflexivity.
Qed.

Lemma deleteConversation_failure (id : string) (w w1 : World State)
      (o : FetchResult) (e : ApiError) :
  answer (ApiService.deleteConversation State API_BASE_URL id) o
    = Throw (ExnApi e) ->
  answered (deleteConversation API_BASE_URL id) w o w1
  = ({| hook := {| conversations := conversations (hook w1);
                   isLoading := isLoading (hook w1);
                   error := Some (message e) |};
        clock := clock w1; reads := reads w1;
        outputs := outputs w1
                   ++ [ConsoleError "Failed to delete conversation:" (ExnApi e)];
        pending := pending w1 |},
     Finished tt).
Proof.
  intros H. unfold answered, deleteConversation. abstract_call H.
  simpl. rewrite H. reflexivity.
Qed.

(** Until the response is there, a delete has changed nothing: it has
    issued its request, and that is all. *)
Lemma deleteConversation_waits (id : string) (w : World State) :
  exists k,
    run (deleteConversation API_BASE_URL id) w
    = (w, Suspended (Text.delete_request API_BASE_URL id) k).
Proof. eexists. reflexivity. Qed.

(** The deletion of the client returns, or fails with a classified
    error. *)
Lemma api_deleteConversation_settles (id : string) (o : FetchResult) :
  (exists e, answer (ApiService.deleteConversation State API_BASE_URL id) o
             = Throw (ExnApi e))
  \/ answer (ApiService.deleteConversation State API_BASE_URL id) o = Ret tt.
Proof.
  destruct (request_settles State API_BASE_URL ("/api/conversations/" ++ id)
              {| method := Some "DELETE"; headers := None; body := None |} o)
    as [[v Hv]|[e He]].
  - right.
    change (bind (answer (ApiService.request State API_BASE_URL
                            ("/api/conversations/" ++ id)
                            {| method := Some "DELETE"; headers := None;
                               body := None |}) o)
                 (ApiService.declared State Declared.a_void) = Ret tt).
    rewrite Hv. reflexivity.
  - left. exists e.
    change (bind (answer (ApiService.request State API_BASE_URL
                            ("/api/conversations/" ++ id)
                            {| method := Some "DELETE"; headers := None;
                               body := None |}) o)
                 (ApiService.declared State Declared.a_void)
            = Throw (ExnApi e)).
    rewrite He. reflexivity.
Qed.

Lemma loadConversations_success (w w1 : World State)
      (o : FetchResult)
      (data : list ConversationSummary) :
  answer (ApiService.getConversations State API_BASE_URL) o = Ret data ->
  answered (loadConversations API_BASE_URL) w o w1
  = ({| hook := {| conversations := data; isLoading := false;
                   error := error (hook w1) |};
        clock := clock w1; reads := reads w1;
        outputs := outputs w1; pending := pending w1 |},
     Finished tt).
Proof.
  intros H. unfold answered, loadConversations. abstract_call H.
  simpl. rewrite H. reflexivity.
Qed.

Lemma loadConversations_failure (w w1 : World State)
      (o : FetchResult) (e : ApiError) :
  answer (ApiService.getConversations State API_BASE_URL) o = Throw (ExnApi e) ->
  answered (loadConversations API_BASE_URL) w o w1
  = ({| hook := {| conversations := conversations (hook w1); isLoading := false;
                   error := Some (message e) |};
        clock := clock w1; reads := reads w1;
        outputs := outputs w1
                   ++ [ConsoleError "Failed to load conversations:" (ExnApi e)];
        pending := pending w1 |},
     Finished tt).
Proof.
  intros H. unfold answered, loadConversations. abstract_call H.
  simpl. rewrite H. reflexivity.
Qed.

Lemma loadConversations_waits (w : World State) :
  exists k,
    run (loadConversations API_BASE_URL) w
    = (Text.load_started w, Suspended (Text.load_request API_BASE_URL) k).
Proof. eexists. reflexivity. Qed.

Lemma answered_continuation (R : Type) (p : Prog State R) (w w' w1 : World State)
      (rq : Request) (k : FetchResult -> Prog State R) (o : FetchResult) :
  run p w = (w', Suspended rq k) -> answered p w o w1 = run (k o) w1.
Proof. intros H. unfold answered. rewrite H. reflexivity. Qed.

Lemma searchConversations_waits (query : string) (w : World State) :
  Js.truthy (Js.trim query) = true ->
  exists k,
    run (searchConversations API_BASE_URL query) w
    = (Text.search_started w,
       Suspended (Text.search_request API_BASE_URL
                    (ApiService.form_encode query)) k).
Proof.
  intros Ht. unfold searchConversations. rewrite Ht. cbn [negb].
  eexists. reflexivity.
Qed.

Lemma searchConversations_success (query : string) (w w1 : World State)
      (o : FetchResult) (results : list ConversationSummary) :
  Js.truthy (Js.trim query) = true ->
  answer (ApiService.searchConversations State API_BASE_URL query) o
    = Ret results ->
  answered (searchConversations API_BASE_URL query) w o w1
  = ({| hook := {| conversations := results; isLoading := false;
                   error := error (hook w1) |};
        clock := clock w1; reads := reads w1;
        outputs := outputs w1; pending := pending w1 |},
     Finished tt).
Proof.
  intros Ht H. unfold answered, searchConversations. rewrite Ht. cbn [negb].
  abstract_call H. simpl. rewrite H. reflexivity.
Qed.

Lemma searchConversations_failure (query : string) (w w1 : World State)
      (o : FetchResult) (e : ApiError) :
  Js.truthy (Js.trim query) = true ->
  answer (ApiService.searchConversations State API_BASE_URL query) o
    = Throw (ExnApi e) ->
  answered (searchConversations API_BASE_URL query) w o w1
  = ({| hook := {| conversations := conversations (hook w1);
                   isLoading := false;
                   error := Some (message e) |};
        clock := clock w1; reads := reads w1;
        outputs := outputs w1
                   ++ [ConsoleError "Failed to search conversations:"
                                    (ExnApi e)];
        pending := pending w1 |},
     Finished tt).
Proof.
  intros Ht H. unfold answered, searchConversations. rewrite Ht. cbn [negb].
  abstract_call H. simpl. rewrite H. reflexivity.
Qed.

Lemma filter_other_ids (id : string) (l : list ConversationSummary)
      (c : ConversationSummary) :
  In c (filter (fun conv => negb (String.eqb (conv_id conv) id)) l)
  <-> In c l /\ conv_id c <> id.
Proof.
  rewrite filter_In. destruct (String.eqb_spec (conv_id c) id) as [E|E];
    simpl; intuition congruence.
Qed.

End Registry.

(** C6. A create issues its request and changes nothing until the
    response is there.  A successful create then puts the new summary at
    the front of the cached list, the entries cached before following in
    their order, and returns it; a failed create sets the error string to
    the message of the classified error and throws the error again. *)
Theorem createConversation_prepends_or_rethrows :
  forall (API_BASE_URL title : string) (category : Category)
         (w w1 : World State)
         (o : FetchResult),
    let r := answered (createConversation API_BASE_URL title category) w o w1 in
    fst (run (createConversation API_BASE_URL title category) w) = w
    /\ issued (snd (run (createConversation API_BASE_URL title category) w))
       = Some (Text.create_request API_BASE_URL title category)
    /\
    (forall c,
        answer (ApiService.createConversation State API_BASE_URL title
                  (category_name category)) o = Ret c ->
        snd r = Finished c
        /\ conversations (hook (fst r)) = c :: conversations (hook w1)
        /\ error (hook (fst r)) = error (hook w1))
    /\ (forall e,
          answer (ApiService.createConversation State API_BASE_URL title
                    (category_name category)) o = Throw (ExnApi e) ->
          snd r = Failed (ExnApi e)
          /\ error (hook (fst r)) = Some (message e)
          /\ conversations (hook (fst r)) = conversations (hook w1)).
Proof.
  intros base title category w w1 o r. unfold r.
  split; [reflexivity|]. split; [reflexivity|]. split.
  - intros c H. rewrite (createConversation_success base title category w w1 o c H).
    repeat split.
  - intros e H. rewrite (createConversation_failure base title category w w1 o e H).
    repeat split.
Qed.

Lemma createConversation_prepends_or_rethrows_witness :
  let w := Text.fresh_world
             (Text.registry_with [Text.summary "a" "Older"; Text.summary "b" "Oldest"]) in
  conversations (hook (fst (answered
    (createConversation "" "New Conversation" General)
    w (Text.ok_response
         (Text.ConversationSummary_json (Text.summary "n" "New Conversation")))
    w)))
  = [Text.summary "n" "New Conversation";
     Text.summary "a" "Older"; Text.summary "b" "Oldest"]
  /\ snd (answered (createConversation "" "New Conversation" General)
                   w (Text.error_response 500 "Database is down" "DB_DOWN") w)
     = Failed (ExnApi {| message := "Database is down";
                         code := Json.Str "DB_DOWN";
                         details := DetailsBody
                                      (Text.error_body "Database is down"
                                                       "DB_DOWN") |})
  /\ error (hook (fst (answered
       (createConversation "" "New Conversation" General)
       w (Text.error_response 500 "Database is down" "DB_DOWN") w)))
     = Some "Database is down".
Proof.
  intros w.
  pose proof (createConversation_prepends_or_rethrows
                "" "New Conversation" General w w
                (Text.ok_response
                   (Text.ConversationSummary_json
                      (Text.summary "n" "New Conversation"))))
    as (_ & _ & Hok & _).
  pose proof (createConversation_prepends_or_rethrows
                "" "New Conversation" General w w
                (Text.error_response 500 "Database is down" "DB_DOWN"))
    as (_ & _ & _ & Hfail).
  split; [apply (Hok (Text.summary "n" "New Conversation") eq_refl)|].
  split; [apply (Hfail _ eq_refl)|apply (Hfail _ eq_refl)].
Defined.

(** C8. A delete issues its request and changes nothing until the
    response is there: no entry is removed ahead of it.  A successful
    delete then removes from the cache exactly the entries whose identity
    is the id and keeps the others in their order; a failed delete leaves
    the cache as it was and sets the error string. *)
Theorem deleteConversation_removes_or_keeps :
  forall (API_BASE_URL id : string) (w w1 : World State)
         (o : FetchResult),
    let r := answered (deleteConversation API_BASE_URL id) w o w1 in
    fst (run (deleteConversation API_BASE_URL id) w) = w
    /\ issued (snd (run (deleteConversation API_BASE_URL id) w))
       = Some (Text.delete_request API_BASE_URL id)
    /\
    (answer (ApiService.deleteConversation State API_BASE_URL id) o = Ret tt ->
     conversations (hook (fst r))
     = filter (fun conv => negb (String.eqb (conv_id conv) id))
              (conversations (hook w1))
     /\ (forall c, In c (conversations (hook (fst r)))
                   <-> In c (conversations (hook w1)) /\ conv_id c <> id)
     /\ error (hook (fst r)) = error (hook w1))
    /\ (forall e,
          answer (ApiService.deleteConversation State API_BASE_URL id) o
            = Throw (ExnApi e) ->
          conversations (hook (fst r)) = conversations (hook w1)
          /\ error (hook (fst r)) = Some (message e)
          /\ snd r = Finished tt)
    /\ ((exists e, answer (ApiService.deleteConversation State API_BASE_URL id) o
                     = Throw (ExnApi e))
        \/ answer (ApiService.deleteConversation State API_BASE_URL id) o = Ret tt).
Proof.
  intros base id w w1 o r. unfold r.
  destruct (deleteConversation_waits base id w) as [k Hk].
  split; [rewrite Hk; reflexivity|].
  split; [rewrite Hk; reflexivity|].
  split; [|split].
  - intros H. rewrite (deleteConversation_success base id w w1 o H).
    cbn [fst snd hook conversations error]. split; [reflexivity|].
    split; [|reflexivity]. intros c. apply filter_other_ids.
  - intros e H. rewrite (deleteConversation_failure base id w w1 o e H).
    repeat split.
  - apply api_deleteConversation_settles.
Qed.

Lemma deleteConversation_removes_or_keeps_witness :
  let w : World State :=
    Text.fresh_world
      (Text.registry_with [Text.summary "a" "One"; Text.summary "b" "Two";
                           Text.summary "c" "Three"]) in
  conversations (hook (fst (answered (deleteConversation "" "b")
                                     w (Text.ok_response (Json.Object [])) w)))
  = [Text.summary "a" "One"; Text.summary "c" "Three"]
  /\ conversations (hook (fst (answered (deleteConversation "" "b")
       w (Text.error_response 404 "No such conversation" "NOT_FOUND") w)))
     = [Text.summary "a" "One"; Text.summary "b" "Two"; Text.summary "c" "Three"]
  /\ error (hook (fst (answered (deleteConversation "" "b")
       w (Text.error_response 404 "No such conversation" "NOT_FOUND") w)))
     = Some "No such conversation".
Proof.
  intros w.
  pose proof (deleteConversation_removes_or_keeps
                "" "b" w w (Text.ok_response (Json.Object [])))
    as (_ & _ & Hok & _).
  pose proof (deleteConversation_removes_or_keeps "" "b" w w
                (Text.error_response 404 "No such conversation" "NOT_FOUND"))
    as (_ & _ & _ & Hfail & _).
  split; [apply (Hok eq_refl)|].
  split; apply (Hfail _ eq_refl).
Defined.

(** C7. With an empty or white-space query, Search is a full reload: it
    does what Load does, issues the request of Load and leaves the rest
    of Load waiting for the response, which replaces the cache with the
    list fetched.  With any other query it sets the loading flag and
    issues the request of the search, in whose address the query can be
    read; the results the response brings replace the cache, whatever the
    cache holds then. *)
Theorem searchConversations_reloads_or_replaces :
  forall (API_BASE_URL query : string) (w : World State),
    (Js.all_white query ->
     exists k,
       run (loadConversations API_BASE_URL) w
         = (Text.load_started w, Suspended (Text.load_request API_BASE_URL) k)
       /\ run (searchConversations API_BASE_URL query) w
           = (add_pending (Text.load_request API_BASE_URL, k) (Text.load_started w),
              Finished tt)
       /\ forall o data w1,
            answer (ApiService.getConversations State API_BASE_URL) o = Ret data ->
            conversations (hook (fst (run (k o) w1))) = data)
    /\ (~ Js.all_white query ->
        (exists k encoded,
           run (searchConversations API_BASE_URL query) w
           = (Text.search_started w,
              Suspended (Text.search_request API_BASE_URL encoded) k)
           /\ Text.form_decode encoded = Some query)
        /\ forall o results w1,
             answer (ApiService.searchConversations State API_BASE_URL query) o
               = Ret results ->
             conversations (hook (fst (answered
               (searchConversations API_BASE_URL query) w o w1))) = results).
Proof.
  intros base query w. split.
  - intros Hq. apply JsFacts.truthy_trim in Hq.
    destruct (loadConversations_waits base w) as [k Hk].
    exists k. split; [exact Hk|]. split.
    + unfold searchConversations. rewrite Hq. cbn [negb].
      unfold spawn. cbn [bind run]. rewrite Hk. reflexivity.
    + intros o data w1 H.
      rewrite <- (answered_continuation _ _ _ _ _ _ _ o Hk).
      rewrite (loadConversations_success base w w1 o data H). reflexivity.
  - intros Hq.
    assert (Ht : Js.truthy (Js.trim query) = true).
    { destruct (Js.truthy (Js.trim query)) eqn:Et; [reflexivity|].
      exfalso. apply Hq. apply JsFacts.truthy_trim. exact Et. }
    split.
    + destruct (searchConversations_waits base query w Ht) as [k Hk].
      exists k, (ApiService.form_encode query).
      split; [exact Hk|apply form_decode_encode].
    + intros o results w1 H.
      rewrite (searchConversations_success base query w w1 o results Ht H).
      reflexivity.
Qed.

Lemma searchConversations_reloads_or_replaces_witness :
  let w := Text.fresh_world (Text.registry_with [Text.summary "a" "Found"]) in
  (exists k,
     run (loadConversations "") w
       = (Text.load_started w, Suspended (Text.load_request "") k)
     /\ run (searchConversations "" " ") w
         = (add_pending (Text.load_request "", k) (Text.load_started w), Finished tt)
     /\ conversations (hook (fst (run
          (k (Text.ok_response
                (Text.ConversationSummary_list_json
                   [Text.summary "a" "Found"; Text.summary "b" "Other"])))
          w)))
        = [Text.summary "a" "Found"; Text.summary "b" "Other"])
  /\ conversations (hook (fst (answered
       (searchConversations "" "bug") w
       (Text.ok_response
          (Text.ConversationSummary_list_json [Text.summary "c" "A bug"])) w)))
     = [Text.summary "c" "A bug"].
Proof.
  intros w.
  pose proof (searchConversations_reloads_or_replaces "" " " w) as [Hblank _].
  pose proof (searchConversations_reloads_or_replaces "" "bug" w) as [_ Hquery].
  split.
  - destruct Hblank as (k & H1 & H2 & H3).
    + intros c [<-|[]]; reflexivity.
    + exists k. split; [exact H1|]. split; [exact H2|].
      apply H3. reflexivity.
  - apply Hquery; [|reflexivity].
    intros H. specialize (H "b"%char (or_introl eq_refl)). discriminate.
Defined.

(** The address of the search for "a b&c" carries the query
    form-encoded. *)
Example search_request_of_a_query :
  issued (snd (run (searchConversations "" "a b&c")
                   (Text.fresh_world (Text.registry_with []))))
  = Some (Text.search_request "" "a+b%26c").
Proof. reflexivity. Qed.

End RegistryFacts.


(** ** Strings, again *)

Module StringFacts.

Lemma length_app (s t : string) :
  String.length (s ++ t) = String.length s + String.length t.
Proof. induction s as [|c s IH]; simpl; [reflexivity|]. rewrite IH. reflexivity. Qed.

Lemma app_assoc (s t u : string) : (s ++ t) ++ u = s ++ t ++ u.
Proof. induction s as [|c s IH]; simpl; [reflexivity|]. rewrite IH. reflexivity. Qed.

Lemma app_empty_r (s : string) : s ++ "" = s.
Proof. induction s as [|c s IH]; simpl; [reflexivity|]. rewrite IH. reflexivity. Qed.

Lemma app_inv_head (s t u : string) : s ++ t = s ++ u -> t = u.
Proof.
  induction s as [|c s IH]; simpl; intros H; [exact H|].
  injection H as H. exact (IH H).
Qed.

Lemma substring_prefix (s t : string) :
  substring 0 (String.length s) (s ++ t) = s.
Proof. induction s as [|c s IH]; simpl; [destruct t; reflexivity|]. rewrite IH. reflexivity. Qed.

Lemma substring_skip (pre s : string) (n : nat) :
  substring (String.length pre) n (pre ++ s) = substring 0 n s.
Proof. induction pre as [|c pre IH]; simpl; [reflexivity|exact IH]. Qed.

Lemma consumed_app (pre s : string) : Regex.consumed (pre ++ s) s = pre.
Proof.
  unfold Regex.consumed. rewrite length_app.
  replace (String.length pre + String.length s - String.length s)
    with (String.length pre) by lia.
  apply substring_prefix.
Qed.

Lemma skip_app (pre s : string) : Render.skip (String.length pre) (pre ++ s) = s.
Proof. induction pre as [|c pre IH]; simpl; [destruct s; reflexivity|exact IH]. Qed.

Lemma skip_split (n : nat) (s : string) :
  n <= String.length s ->
  exists pre, s = pre ++ Render.skip n s /\ String.length pre = n.
Proof.
  revert s. induction n as [|n IH]; intros s H.
  - exists "". destruct s; auto.
  - destruct s as [|c s]; simpl in H; [lia|].
    destruct (IH s ltac:(lia)) as (pre & Hs & Hl).
    exists (String c pre). simpl. rewrite <- Hs, Hl. auto.
Qed.

Lemma slice_middle (p q r : string) :
  Render.slice (p ++ q ++ r) (String.length p) (String.length p + String.length q) = q.
Proof.
  unfold Render.slice. rewrite substring_skip.
  replace (String.length p + String.length q - String.length p)
    with (String.length q) by lia.
  apply substring_prefix.
Qed.

End StringFacts.

(** ** The code block pattern *)

Module FenceFacts.
Import Regex Text App RegexFacts AppFacts StringFacts.

Lemma run_lit_shape (R : Type) (w s : string) (caps : captures)
      (k : string -> captures -> option R) (y : R) :
  run (lit w) s caps k = Some y -> exists t, s = w ++ t /\ k t caps = Some y.
Proof.
  revert s. induction w as [|a w IH]; intros s; simpl.
  - eauto.
  - destruct s as [|b s]; [discriminate|].
    destruct (Ascii.eqb_spec a b) as [->|]; [|discriminate].
    intros H. destruct (IH s H) as (t & -> & Ht). eauto.
Qed.

Lemma plus_greedy_shape (R : Type) (p : ascii -> bool) (s : string)
      (k : string -> option R) (y : R) :
  plus_greedy p s k = Some y ->
  exists tag t, tag <> "" /\ all_chars p tag = true /\ s = tag ++ t /\ k t = Some y.
Proof.
  induction s as [|c s IH]; simpl; [discriminate|].
  destruct (p c) eqn:Hc; [|discriminate].
  destruct (plus_greedy p s k) as [x|] eqn:E.
  - intros [= <-]. destruct (IH eq_refl) as (tag & t & _ & Hall & -> & Hk).
    exists (String c tag), t. simpl. rewrite Hc, Hall. repeat split; [discriminate|exact Hk].
  - intros Hk. exists (String c ""), s. simpl. rewrite Hc.
    repeat split; [discriminate|exact Hk].
Qed.

(** The lazy star stops at the first suffix at which what follows
    succeeds. *)
Lemma star_lazy_shape (R : Type) (s : string) (k : string -> option R) (y : R) :
  star_lazy any_char s k = Some y ->
  exists pre s',
    s = pre ++ s' /\ k s' = Some y
    /\ forall a b, pre = a ++ b -> b <> "" -> k (b ++ s') = None.
Proof.
  induction s as [|c s IH]; simpl.
  - destruct (k "") eqn:E; [|discriminate]. intros [= <-].
    exists "", "". repeat split; [exact E|].
    intros a b H Hb. destruct a; destruct b; simpl in H; congruence.
  - destruct (k (String c s)) eqn:E.
    + intros [= <-]. exists "", (String c s). repeat split; [exact E|].
      intros a b H Hb. destruct a; destruct b; simpl in H; congruence.
    + intros H. destruct (IH H) as (pre & s' & -> & Hk & Hmin).
      exists (String c pre), s'. repeat split; [exact Hk|].
      intros a b Hab Hb. destruct a as [|d a]; simpl in Hab.
      * subst b. simpl. exact E.
      * injection Hab as _ Hab. exact (Hmin a b Hab Hb).
Qed.

(** After the opening fence and its tag: the line feed, a body without a
    fence in it, and the closing fence. *)
Lemma fence_rest_shape (R : Type) (s : string) (caps : captures)
      (k : string -> captures -> option R) (y : R) :
  (forall t c, k t c <> None) ->
  run (Seq (char newline) (Seq (Group 2 (StarLazy any_char)) (lit "```")))
      s caps k = Some y ->
  exists snippet rest,
    s = LF ++ snippet ++ "```" ++ rest
    /\ k rest ((2, snippet) :: caps) = Some y
    /\ ~ contains "```" snippet.
Proof.
  intros Hk H. rewrite run_seq in H.
  destruct s as [|c s]; [discriminate|]. cbn [char run] in H.
  destruct (Ascii.eqb_spec newline c) as [<-|]; [|discriminate].
  apply star_lazy_shape in H. destruct H as (pre & s' & -> & H & Hmin).
  apply run_lit_shape in H. destruct H as (rest & -> & H).
  rewrite consumed_app in H.
  exists pre, rest. split; [reflexivity|]. split; [exact H|].
  intros (a & b & Hab).
  specialize (Hmin a ("```" ++ b) Hab ltac:(discriminate)).
  rewrite app_assoc, run_lit_prefix in Hmin. exact (Hk _ _ Hmin).
Qed.

(** A match of the code block pattern at the head of [s]: [s] starts
    with a fenced block, which is the text matched; group 1 is its tag,
    if it has one, and group 2 its body, in which there is no fence. *)
Lemma code_block_here_shape (i : nat) (s : string) (m : match_result) :
  match_here code_block_pattern i s = Some m ->
  exists tag snippet rest,
    s = fenced tag snippet ++ rest
    /\ m = MatchResult i (fenced tag snippet) (fence_groups tag snippet)
    /\ all_chars word_char tag = true
    /\ ~ contains "```" snippet.
Proof.
  unfold match_here, code_block_pattern. rewrite run_seq. intros H.
  apply run_lit_shape in H. destruct H as (t1 & -> & H).
  rewrite run_seq in H. cbn [run] in H.
  set (K := fun s' caps => Some (MatchResult i (consumed ("```" ++ t1) s') caps)) in H.
  assert (HK : forall t c, K t c <> None) by (intros; discriminate).
  match type of H with
  | match ?X with _ => _ end = _ => destruct X as [x|] eqn:E
  end.
  - injection H as ->. apply plus_greedy_shape in E.
    destruct E as (tag & t2 & Htag & Hall & -> & E).
    rewrite consumed_app in E.
    destruct (Nat.eqb_spec (String.length t2) (String.length (tag ++ t2))) as [Hl|_].
    { discriminate. }
    destruct (fence_rest_shape _ _ _ _ _ HK E) as (snippet & rest & -> & Hy & Hno).
    assert (Hs : "```" ++ tag ++ LF ++ snippet ++ "```" ++ rest
                 = fenced tag snippet ++ rest)
      by (unfold fenced; rewrite !app_assoc; reflexivity).
    unfold K in Hy. rewrite Hs, consumed_app in Hy. injection Hy as <-.
    exists tag, snippet, rest. split; [exact Hs|]. split; [|auto].
    destruct tag; [contradiction|reflexivity].
  - destruct (fence_rest_shape _ _ _ _ _ HK H) as (snippet & rest & -> & Hy & Hno).
    assert (Hs : "```" ++ LF ++ snippet ++ "```" ++ rest
                 = fenced "" snippet ++ rest)
      by (unfold fenced; rewrite !app_assoc; reflexivity).
    unfold K in Hy. rewrite Hs, consumed_app in Hy. injection Hy as <-.
    exists "", snippet, rest. split; [exact Hs|]. auto.
Qed.

Lemma match_from_shape (r : regex) (i : nat) (s : string) (m : match_result) :
  match_from r i s = Some m ->
  exists pre t, s = pre ++ t /\ match_here r (i + String.length pre) t = Some m.
Proof.
  revert i. induction s as [|c s IH]; intros i; cbn [match_from].
  - destruct (match_here r i "") eqn:E; [|discriminate].
    intros [= <-]. exists "", "". rewrite Nat.add_0_r. auto.
  - destruct (match_here r i (String c s)) eqn:E.
    + intros [= <-]. exists "", (String c s). rewrite Nat.add_0_r. auto.
    + intros H. destruct (IH _ H) as (pre & t & -> & Ht).
      exists (String c pre), t. simpl. rewrite Nat.add_succ_r. auto.
Qed.

Lemma match_from_found (r : regex) (i : nat) (pre t : string) :
  (forall j, match_here r j t <> None) ->
  match_from r i (pre ++ t) <> None.
Proof.
  intros H. revert i. induction pre as [|c pre IH]; intros i.
  - simpl. destruct t; cbn [match_from]; specialize (H i);
      destruct (match_here r i _); congruence.
  - cbn [append match_from].
    destruct (match_here r i (String c (pre ++ t))); [discriminate|apply IH].
Qed.

(** The greedy tag takes all of a run of word characters that a line feed
    ends. *)
Lemma plus_greedy_tag (R : Type) (tag rest : string) (k : string -> option R) (y : R) :
  tag <> "" -> all_chars word_char tag = true ->
  k (String newline rest) = Some y ->
  plus_greedy word_char (tag ++ String newline rest) k = Some y.
Proof.
  intros Hne Hall Hk. induction tag as [|c tag IH]; [contradiction|].
  simpl in Hall. apply andb_prop in Hall. destruct Hall as [Hc Hall].
  cbn [append plus_greedy]. rewrite Hc.
  destruct tag as [|d tag].
  - cbn [append plus_greedy]. replace (word_char newline) with false by reflexivity.
    exact Hk.
  - rewrite (IH ltac:(discriminate) Hall). reflexivity.
Qed.

(** The pattern matches at the head of every fenced block. *)
Lemma code_block_here_found (i : nat) (tag snippet post : string) :
  all_chars word_char tag = true ->
  match_here code_block_pattern i (fenced tag snippet ++ post) <> None.
Proof.
  intros Hall. unfold match_here, code_block_pattern, fenced.
  rewrite !app_assoc, run_seq, run_lit_prefix.
  set (msg := "```" ++ tag ++ LF ++ snippet ++ "```" ++ post).
  set (K := fun s' caps => Some (MatchResult i (consumed msg s') caps)).
  destruct tag as [|c tag].
  - destruct (fence_body match_result snippet post [] K)
      as (y & sn & t & Hy & _); [discriminate|].
    cbn [append] in Hy |- *. rewrite Hy. discriminate.
  - set (tg := String c tag) in *.
    destruct (fence_body match_result snippet post [(1, tg)] K)
      as (y & sn & t & Hy & _); [discriminate|].
    (* the tagged branch of the optional group succeeds *)
    change (LF ++ snippet ++ "```" ++ post)
      with (String newline (snippet ++ "```" ++ post)) in Hy |- *.
    rewrite run_seq, run_tag_absent in Hy by reflexivity.
    rewrite run_seq. cbn [run].
    erewrite (plus_greedy_tag _ tg _ _ y); [discriminate|discriminate|exact Hall|].
    rewrite consumed_app.
    destruct (Nat.eqb_spec (String.length (String newline (snippet ++ "```" ++ post)))
                           (String.length (tg ++ String newline (snippet ++ "```" ++ post))))
      as [Hl|_].
    { rewrite length_app in Hl. unfold tg in Hl. simpl in Hl. lia. }
    exact Hy.
Qed.

(** [message.match(pattern)] finds a code block exactly in the messages
    that have one. *)
Lemma code_block_match_iff (message : string) :
  str_match message code_block_pattern <> None <-> has_code_block message.
Proof.
  unfold str_match. split.
  - intros H. destruct (match_from code_block_pattern 0 message) as [m|] eqn:E;
      [|congruence].
    apply match_from_shape in E. destruct E as (pre & t & -> & E).
    apply code_block_here_shape in E.
    destruct E as (tag & snippet & rest & -> & _ & Hall & _).
    exists pre, tag, snippet, rest. auto.
  - intros (pre & tag & snippet & post & Hall & ->).
    apply match_from_found. intros j. apply code_block_here_found. exact Hall.
Qed.

End FenceFacts.

(** ** The parts of a rendered message *)

Module RenderFacts.
Import Regex Text App Render RegexFacts AppFacts StringFacts FenceFacts.

Lemma app_inj_length (a b c d : string) :
  a ++ b = c ++ d -> String.length a = String.length c -> a = c /\ b = d.
Proof.
  revert c. induction a as [|x a IH]; intros [|y c] H Hl; simpl in *; try lia.
  - auto.
  - injection H as -> H. destruct (IH c H ltac:(lia)) as [-> ->]. auto.
Qed.

Lemma join_app (l1 l2 : list string) : join (l1 ++ l2) = join l1 ++ join l2.
Proof.
  induction l1 as [|s l1 IH]; simpl; [reflexivity|].
  rewrite IH, app_assoc. reflexivity.
Qed.

Lemma fence_groups_read (tag snippet : string) :
  Js.or_else (capture 1 (fence_groups tag snippet)) "javascript" = language_of tag
  /\ capture 2 (fence_groups tag snippet) = Some snippet.
Proof. destruct tag; simpl; auto. Qed.

Lemma language_of_not_empty (tag : string) : language_of tag <> "".
Proof. destruct tag; simpl; discriminate. Qed.

Lemma fenced_length (tag snippet : string) : 7 <= String.length (fenced tag snippet).
Proof. unfold fenced, LF. rewrite !length_app. simpl. lia. Qed.

(** [exec] from [lastIndex] on: the text before the next fenced block,
    and the block. *)
Lemma exec_shape (content : string) (lastIndex : nat) (m : match_result) :
  exec code_block_pattern content lastIndex = Some m ->
  exists before text tag snippet rest,
    content = before ++ text ++ fenced tag snippet ++ rest
    /\ String.length before = lastIndex
    /\ m = MatchResult (lastIndex + String.length text) (fenced tag snippet)
                       (fence_groups tag snippet)
    /\ ~ contains "```" snippet.
Proof.
  unfold exec. destruct (Nat.ltb_spec (String.length content) lastIndex) as [|Hle];
    [discriminate|].
  intros H. apply match_from_shape in H. destruct H as (text & t & Hskip & H).
  apply code_block_here_shape in H.
  destruct H as (tag & snippet & rest & -> & -> & _ & Hno).
  destruct (skip_split lastIndex content Hle) as (before & Hc & Hl).
  exists before, text, tag, snippet, rest. rewrite Hc, Hskip at 1. auto.
Qed.

Lemma exec_none_without_fence (content : string) (lastIndex : nat) :
  ~ contains "```" content -> exec code_block_pattern content lastIndex = None.
Proof.
  intros Hno. destruct (exec code_block_pattern content lastIndex) as [m|] eqn:E;
    [|reflexivity].
  exfalso. apply Hno. apply exec_shape in E.
  destruct E as (before & text & tag & snippet & rest & -> & _).
  exists (before ++ text), (tag ++ LF ++ snippet ++ "```" ++ rest).
  unfold fenced. rewrite !app_assoc. reflexivity.
Qed.

(** The loop, from a point [before] of the content on: it ends within the
    fuel that the rest of the content gives it, it only adds parts, and
    the parts stand for the text up to the point it has reached. *)
Lemma render_loop_spec (fuel : nat) (content : string) :
  forall (before remaining : string) (parts : list Part) (srcs : list string),
    content = before ++ remaining ->
    String.length remaining < fuel ->
    Forall2 part_source parts srcs ->
    join srcs = before ->
    Forall well_formed_part parts ->
    exists before' remaining' more srcs',
      render_loop fuel content (String.length before) parts
      = Some (String.length before', (parts ++ more)%list)
      /\ content = before' ++ remaining'
      /\ Forall2 part_source (parts ++ more)%list srcs'
      /\ join srcs' = before'
      /\ Forall well_formed_part (parts ++ more)%list
      /\ (exec code_block_pattern content (String.length before) = None ->
          more = [])
      /\ (forall m,
            exec code_block_pattern content (String.length before) = Some m ->
            find is_code_part more
            = Some (CodePart (Js.or_else (capture 1 (groups m)) "javascript")
                             (capture 2 (groups m)))).
Proof.
  induction fuel as [|fuel IH]; intros before remaining parts srcs Hc Hf Hsrc Hj Hwf;
    [lia|].
  cbn [render_loop].
  destruct (exec code_block_pattern content (String.length before)) as [m|] eqn:E.
  - destruct (exec_shape _ _ _ E)
      as (before0 & text & tag & snippet & rest & Hc0 & Hl0 & -> & Hno).
    rewrite Hc in Hc0. destruct (app_inj_length _ _ _ _ Hc0 (eq_sym Hl0)) as [<- Hrem].
    cbn [index matched groups].
    destruct (fence_groups_read tag snippet) as [Hg1 Hg2]. rewrite Hg1, Hg2.
    set (block := CodePart (language_of tag) (Some snippet)).
    assert (Hblock : part_source block (fenced tag snippet))
      by (exists tag, snippet; auto).
    assert (Hwfb : well_formed_part block)
      by (split; [apply language_of_not_empty|eauto]).
    assert (Hnext : content = (before ++ text ++ fenced tag snippet) ++ rest)
      by (rewrite Hc, Hrem, !app_assoc; reflexivity).
    assert (Hlen : String.length before + String.length text
                   + String.length (fenced tag snippet)
                   = String.length (before ++ text ++ fenced tag snippet))
      by (rewrite !length_app; lia).
    assert (Hfuel : String.length rest < fuel).
    { rewrite Hrem in Hf. rewrite !length_app in Hf.
      pose proof (fenced_length tag snippet). lia. }
    rewrite Hlen.
    destruct (Nat.ltb_spec (String.length before)
                           (String.length before + String.length text)) as [Ht|Ht].
    + (* some text before the block *)
      assert (Hslice : slice content (String.length before)
                             (String.length before + String.length text) = text).
      { rewrite Hc, Hrem. apply slice_middle. }
      rewrite Hslice.
      destruct (IH (before ++ text ++ fenced tag snippet) rest
                   ((parts ++ [TextPart text]) ++ [block])%list
                   ((srcs ++ [text]) ++ [fenced tag snippet])%list Hnext Hfuel)
        as (before' & remaining' & more & srcs' & Hrun & Hc' & Hsrc' & Hj' & Hwf' & _).
      * apply Forall2_app; [apply Forall2_app; [exact Hsrc|]|].
        -- constructor; [reflexivity|constructor].
        -- constructor; [exact Hblock|constructor].
      * rewrite !join_app, Hj. simpl. rewrite !app_empty_r, app_assoc. reflexivity.
      * apply Forall_app. split; [apply Forall_app; split; [exact Hwf|]|].
        -- constructor; [|constructor]. simpl.
           destruct text; [simpl in Ht; lia|discriminate].
        -- constructor; [exact Hwfb|constructor].
      * exists before', remaining', ([TextPart text] ++ [block] ++ more)%list, srcs'.
        rewrite Hrun. rewrite <- !List.app_assoc in Hsrc', Hwf' |- *.
        repeat (split; [solve [auto]|]). try (split; [discriminate|]).
        intros m [= <-]. cbn [groups]. rewrite Hg1, Hg2. reflexivity.
    + (* the block starts where the loop is *)
      assert (text = "") as -> by (destruct text; [reflexivity|simpl in Ht; lia]).
      destruct (IH (before ++ "" ++ fenced tag snippet) rest
                   (parts ++ [block])%list (srcs ++ [fenced tag snippet])%list Hnext Hfuel)
        as (before' & remaining' & more & srcs' & Hrun & Hc' & Hsrc' & Hj' & Hwf' & _).
      * apply Forall2_app; [exact Hsrc|].
        constructor; [exact Hblock|constructor].
      * rewrite join_app, Hj. simpl. rewrite app_empty_r. reflexivity.
      * apply Forall_app. split; [exact Hwf|].
        constructor; [exact Hwfb|constructor].
      * exists before', remaining', ([block] ++ more)%list, srcs'.
        rewrite Hrun. rewrite <- !List.app_assoc in Hsrc', Hwf' |- *.
        repeat (split; [solve [auto]|]). try (split; [discriminate|]).
        intros m [= <-]. cbn [groups]. rewrite Hg1, Hg2. reflexivity.
  - exists before, remaining, [], srcs. rewrite List.app_nil_r.
    repeat (split; [solve [auto]|]). try (split; [reflexivity|]). discriminate.
Qed.

Lemma find_code_app (parts more : list Part) (p : Part) :
  find is_code_part parts = Some p ->
  find is_code_part (parts ++ more)%list = Some p.
Proof.
  induction parts as [|q parts IH]; simpl; [discriminate|].
  destruct (is_code_part q); auto.
Qed.

Lemma message_parts_spec (content : string) :
  exists parts srcs,
    message_parts (S (String.length content)) content = Some parts
    /\ parts <> []
    /\ Forall2 part_source parts srcs
    /\ join srcs = content
    /\ (content <> "" -> Forall well_formed_part parts)
    /\ (str_match content code_block_pattern = None ->
        parts = [TextPart content])
    /\ (forall m,
          str_match content code_block_pattern = Some m ->
          find is_code_part parts
          = Some (CodePart (Js.or_else (capture 1 (groups m)) "javascript")
                           (capture 2 (groups m)))).
Proof.
  destruct (render_loop_spec (S (String.length content)) content "" content [] []
              eq_refl ltac:(lia) ltac:(constructor) eq_refl ltac:(constructor))
    as (before & remaining & more & srcs & Hrun & Hc & Hsrc & Hj & Hwf & Hnone & Hsome).
  cbn [List.app] in *.
  change (exec code_block_pattern content (String.length ""))
    with (str_match content code_block_pattern) in Hnone, Hsome.
  unfold message_parts. cbn [String.length] in Hrun. rewrite Hrun.
  destruct (Nat.ltb_spec (String.length before) (String.length content)) as [Hlt|Hge].
  - (* some text is left after the last block *)
    assert (Hskip : skip (String.length before) content = remaining)
      by (rewrite Hc at 1; apply skip_app).
    rewrite Hskip.
    assert (Hrem : remaining <> "").
    { intros ->. rewrite Hc, length_app in Hlt. simpl in Hlt. lia. }
    assert (Hlen : (List.length (more ++ [TextPart remaining]) =? 0)%nat = false)
      by (rewrite List.length_app; simpl; apply Nat.eqb_neq; lia).
    rewrite Hlen.
    exists (more ++ [TextPart remaining])%list, (srcs ++ [remaining])%list.
    split; [reflexivity|].
    split; [intros H; apply (f_equal (@List.length Part)) in H;
            rewrite List.length_app in H; simpl in H; lia|].
    split; [apply Forall2_app; [exact Hsrc|constructor; [reflexivity|constructor]]|].
    split; [rewrite join_app, Hj; simpl; rewrite app_empty_r; symmetry; exact Hc|].
    split; [intros _; apply Forall_app; split;
            [exact Hwf|constructor; [exact Hrem|constructor]]|].
    split.
    + intros Hn. rewrite (Hnone Hn) in *. inversion Hsrc as [Hs|]. subst srcs.
      simpl in Hj. rewrite <- Hj in Hc. simpl in Hc.
      rewrite <- Hc. reflexivity.
    + intros m Hm. apply find_code_app. exact (Hsome m Hm).
  - (* the last block ends the content *)
    assert (remaining = "") as ->.
    { rewrite Hc, length_app in Hge. destruct remaining; [reflexivity|simpl in Hge; lia]. }
    rewrite app_empty_r in Hc. subst before.
    destruct more as [|p more].
    + (* no part at all: the content is empty *)
      inversion Hsrc as [Hs|]. subst srcs. simpl in Hj. subst content. simpl.
      exists [TextPart ""], [""]. split; [reflexivity|].
      split; [discriminate|].
      split; [constructor; [reflexivity|constructor]|].
      split; [reflexivity|].
      split; [congruence|].
      split; [reflexivity|].
      intros m Hm. specialize (Hsome m Hm). discriminate.
    + cbn [List.length Nat.eqb].
      exists (p :: more), srcs.
      split; [reflexivity|]. split; [discriminate|].
      split; [exact Hsrc|]. split; [exact Hj|].
      split; [intros _; exact Hwf|].
      split; [intros Hn; specialize (Hnone Hn); discriminate|exact Hsome].
Qed.

(** X1. [renderMessage] ends for every message, with at least one part,
    and the parts read in order are the content of the message: each
    text part stands for its text, each code part for one fenced block. *)
Theorem renderMessage_parts_cover_content :
  forall message : Types.ChatMessage,
  exists parts srcs,
    renderMessage message = Some parts
    /\ parts <> []
    /\ Forall2 part_source parts srcs
    /\ join srcs = Types.content message.
Proof.
  intros message. unfold renderMessage.
  destruct (message_parts_spec (Types.content message))
    as (parts & srcs & H1 & H2 & H3 & H4 & _).
  exists parts, srcs. auto.
Qed.

(** X2. In the parts of a message that is not empty, no text part is
    empty, and every code part has a language that is not empty and a
    body in which no fence occurs. *)
Theorem renderMessage_parts_well_formed :
  forall (message : Types.ChatMessage) (parts : list Part),
    Types.content message <> "" ->
    renderMessage message = Some parts ->
    Forall well_formed_part parts.
Proof.
  intros message parts Hne H. unfold renderMessage in H.
  destruct (message_parts_spec (Types.content message))
    as (parts' & srcs & H1 & _ & _ & _ & Hwf & _).
  rewrite H1 in H. injection H as <-. exact (Hwf Hne).
Qed.

Lemma renderMessage_parts_well_formed_witness :
  Forall well_formed_part
    [TextPart "try "; CodePart "js" (Some "x=1"); TextPart "` now"].
Proof.
  apply (renderMessage_parts_well_formed
           (userMessage_of ("try ```js" ++ LF ++ "x=1```` now") None 0 0)).
  - discriminate.
  - vm_compute. reflexivity.
Defined.

(** X3. A message without a fence in it is rendered as one text part, the
    whole content. *)
Theorem renderMessage_plain_text :
  forall message : Types.ChatMessage,
    ~ contains "```" (Types.content message) ->
    renderMessage message = Some [TextPart (Types.content message)].
Proof.
  intros message Hno. unfold renderMessage.
  destruct (message_parts_spec (Types.content message))
    as (parts & srcs & H1 & _ & _ & _ & _ & Hnone & _).
  rewrite H1. f_equal. apply Hnone.
  exact (exec_none_without_fence (Types.content message) 0 Hno).
Qed.

Lemma no_fence_in_hello : ~ contains "```" "hello".
Proof.
  intros (pre & post & H).
  repeat (destruct pre as [|? pre]; simpl in H; try discriminate;
          injection H as ? H; subst).
Qed.

Lemma renderMessage_plain_text_witness :
  renderMessage (userMessage_of "hello" None 0 0) = Some [TextPart "hello"].
Proof.
  apply (renderMessage_plain_text (userMessage_of "hello" None 0 0)).
  exact no_fence_in_hello.
Defined.

End RenderFacts.

(** ** Context extraction and rendering together *)

Module ContextFacts.
Import Regex Text App Render RegexFacts AppFacts StringFacts FenceFacts RenderFacts.

Lemma str_match_code_shape (message : string) (m : match_result) :
  str_match message code_block_pattern = Some m ->
  exists pre tag snippet post,
    message = pre ++ fenced tag snippet ++ post
    /\ groups m = fence_groups tag snippet
    /\ all_chars word_char tag = true
    /\ ~ contains "```" snippet.
Proof.
  unfold str_match. intros H. apply match_from_shape in H.
  destruct H as (pre & t & -> & H). apply code_block_here_shape in H.
  destruct H as (tag & snippet & rest & -> & -> & Hall & Hno).
  exists pre, tag, snippet, rest. auto.
Qed.

(** X4. When the extracted context has a code snippet, the snippet is
    the body of a fenced block of the message and has no fence in it,
    and the language is the tag of that block, or javascript when the
    block has no tag. *)
Theorem extractContext_codeSnippet_is_fenced_body :
  forall (message category : string) (ctx : JsObject) (v : option string),
    extractContext message category = Some ctx ->
    get_prop "codeSnippet" ctx = Some v ->
    exists pre tag snippet post,
      v = Some snippet
      /\ message = pre ++ fenced tag snippet ++ post
      /\ all_chars word_char tag = true
      /\ ~ contains "```" snippet
      /\ get_prop "language" ctx = Some (Some (language_of tag)).
Proof.
  intros message category ctx v. unfold extractContext.
  destruct (str_match message code_block_pattern) as [m|] eqn:E.
  - destruct (str_match_code_shape message m E)
      as (pre & tag & snippet & post & Hm & Hg & Hall & Hno).
    rewrite Hg. destruct (fence_groups_read tag snippet) as [-> ->].
    intros H Hv. exists pre, tag, snippet, post.
    destruct (str_match message error_pattern);
      [destruct (String.eqb category "bug-fix")|];
      simpl in H; injection H as <-; simpl in Hv; injection Hv as <-; auto.
  - destruct (str_match message error_pattern);
      [destruct (String.eqb category "bug-fix")|];
      simpl; intros H Hv; try discriminate; injection H as <-; discriminate.
Qed.

Lemma extractContext_codeSnippet_is_fenced_body_witness :
  exists pre tag snippet post,
    Some "x=1" = Some snippet
    /\ "try ```js" ++ LF ++ "x=1```` now" = pre ++ fenced tag snippet ++ post
    /\ all_chars word_char tag = true
    /\ ~ contains "```" snippet
    /\ get_prop "language" [("language", Some "js"); ("codeSnippet", Some "x=1")]
       = Some (Some (language_of tag)).
Proof.
  apply (extractContext_codeSnippet_is_fenced_body
           ("try ```js" ++ LF ++ "x=1```` now") "general"
           [("language", Some "js"); ("codeSnippet", Some "x=1")] (Some "x=1"));
    vm_compute; reflexivity.
Defined.

(** X5. [extractContext] returns no context object exactly when the
    message has no fenced code block and it is not the case that the
    category is bug-fix and the message contains one of the keywords. *)
Theorem extractContext_none_iff :
  forall message category : string,
    extractContext message category = None <->
    ~ has_code_block message
    /\ ~ (category = "bug-fix"
          /\ exists kw, In kw error_keywords /\ contains_ci kw message).
Proof.
  intros message category.
  pose proof (code_block_match_iff message) as Hcode.
  pose proof (error_match_iff message) as Herr.
  unfold extractContext.
  destruct (str_match message code_block_pattern) as [m|].
  - split.
    + destruct (str_match message error_pattern);
        [destruct (String.eqb category "bug-fix")|]; simpl; discriminate.
    + intros [H _]. exfalso. apply H. apply Hcode. discriminate.
  - assert (Hno : ~ has_code_block message)
      by (intros H; apply Hcode in H; congruence).
    destruct (str_match message error_pattern) as [e|].
    + destruct (String.eqb_spec category "bug-fix") as [->|Hne]; simpl.
      * split; [discriminate|]. intros [_ H]. exfalso. apply H.
        split; [reflexivity|]. apply Herr. discriminate.
      * split; [intros _|reflexivity]. split; [exact Hno|]. intros [Hc _]. auto.
    + simpl. split; [intros _|reflexivity]. split; [exact Hno|].
      intros [_ H]. apply Herr in H. congruence.
Qed.

(** X6. The first code part of the rendered message and the extracted
    context agree: the part has the language and the snippet of the
    context, and a message rendered without a code part gives a context
    without a snippet and without a language. *)
Theorem renderMessage_first_block_is_context :
  forall (message : Types.ChatMessage) (category : string),
  exists parts,
    renderMessage message = Some parts
    /\ match find is_code_part parts with
       | Some (CodePart language code) =>
           exists ctx,
             extractContext (Types.content message) category = Some ctx
             /\ get_prop "language" ctx = Some (Some language)
             /\ get_prop "codeSnippet" ctx = Some code
       | _ =>
           match extractContext (Types.content message) category with
           | Some ctx =>
               has_prop "language" ctx = false
               /\ has_prop "codeSnippet" ctx = false
           | None => True
           end
       end.
Proof.
  intros message category. unfold renderMessage.
  destruct (message_parts_spec (Types.content message))
    as (parts & srcs & H1 & _ & _ & _ & _ & Hnone & Hsome).
  exists parts. split; [exact H1|]. unfold extractContext.
  destruct (str_match (Types.content message) code_block_pattern) as [m|].
  - rewrite (Hsome m eq_refl).
    destruct (str_match (Types.content message) error_pattern);
      [destruct (String.eqb category "bug-fix")|];
      simpl; eexists; repeat split.
  - rewrite (Hnone eq_refl). simpl.
    destruct (str_match (Types.content message) error_pattern);
      [destruct (String.eqb category "bug-fix")|]; simpl; auto.
Qed.

End ContextFacts.

(** ** The chat session, further *)

Module ChatMore.
Import Types Async UseChat AsyncFacts ApiFacts ChatFacts.

(** What becomes of the call of the client once the transport has
    answered: it returns a response, or fails with a classified error, or,
    on a success response with the body [null], throws a TypeError; a
    body that is neither [null] nor a response of the chat is not in the
    model. *)
Lemma api_sendMessage_settles (API_BASE_URL : string) (req : ChatRequest)
      (o : FetchResult) :
  (exists v, answer (ApiService.sendMessage State API_BASE_URL req) o = Ret v)
  \/ (exists e, answer (ApiService.sendMessage State API_BASE_URL req) o
               = Throw (ExnApi e))
  \/ (answer (ApiService.sendMessage State API_BASE_URL req) o
      = Throw (ExnOther "TypeError")
      /\ exists status statusText, o = Text.success status statusText Json.Null)
  \/ (answer (ApiService.sendMessage State API_BASE_URL req) o = Mistyped
      /\ exists status statusText body,
           o = Text.success status statusText body /\ body <> Json.Null).
Proof.
  destruct (request_settles State API_BASE_URL "" ApiService.no_options o)
    as [[v Hv]|[e He]].
  - destruct (request_returns State API_BASE_URL _ _ o v Hv)
      as (status & statusText & ->).
    rewrite sendMessage_answer.
    destruct (JsonFacts.null_or_not v) as [->|Hn].
    + right. right. left. split; [reflexivity|]. eauto.
    + rewrite (get_prop_not_null State _ _ Hn). cbn [bind].
      unfold ApiService.declared.
      destruct (Declared.as_ChatResponse _) as [r|].
      * left. exists r. reflexivity.
      * right. right. right. split; [reflexivity|]. eauto.
  - right. left. exists e. unfold ApiService.sendMessage.
    rewrite (answer_operation State API_BASE_URL _ _ "" _ ApiService.no_options).
    rewrite He. reflexivity.
Qed.

Lemma set_flag_length (n : nat) (l : list bool) :
  List.length (set_flag n l) = List.length l.
Proof.
  revert n. induction l as [|b l IH]; intros [|n]; simpl; auto.
Qed.

Lemma sendMessage_suspends :
  forall (API_BASE_URL : string) (options : UseChatOptions) (content : string)
         (category : option Category) (context : option App.JsObject)
         (w : World State),
    Js.trim content <> "" ->
    exists k,
      run (sendMessage API_BASE_URL options false content category context) w
      = (Text.send_started content category w,
         Suspended (Text.chat_request API_BASE_URL options content category context)
                   k).
Proof.
  intros base options content category context w Hc. unfold sendMessage.
  destruct (Js.trim content) as [|c0 t0] eqn:Et; [contradiction|].
  cbn [Js.truthy negb orb]. unfold Text.send_started.
  destruct (abortControllerRef (hook w)) eqn:Eref;
    simpl; rewrite Eref; simpl; rewrite ?set_flag_length; eexists; reflexivity.
Qed.

(** X7. A send with content that is not blank, from a render that is not
    loading, appends the message of the user at once, sets the loading
    flag, aborts the controller of an earlier request, and issues one
    request: POST /api/chat with the content, the conversation, the
    category (general when none is given) and the context. *)
Theorem sendMessage_starts :
  forall (API_BASE_URL : string) (options : UseChatOptions) (content : string)
         (category : option Category) (context : option App.JsObject)
         (w : World State),
    Js.trim content <> "" ->
    exists k,
      run (sendMessage API_BASE_URL options false content category context) w
      = (Text.send_started content category w,
         Suspended (Text.chat_request API_BASE_URL options content category context)
                   k).
Proof. exact sendMessage_suspends. Qed.

Lemma sendMessage_starts_witness :
  exists k,
    run (sendMessage "" {| conversationId := "c1"; onError := true |}
                     false "hello" None None) (Text.fresh_world initial)
    = (Text.send_started "hello" None (Text.fresh_world initial),
       Suspended (Text.chat_request "" {| conversationId := "c1"; onError := true |}
                                    "hello" None None) k).
Proof.
  apply (sendMessage_starts "" {| conversationId := "c1"; onError := true |}
                            "hello" None None (Text.fresh_world initial)).
  discriminate.
Defined.

Lemma run_sendMessage_world (API_BASE_URL : string) (options : UseChatOptions)
      (content : string) (category : option Category)
      (context : option App.JsObject) (w : World State) :
  Js.trim content <> "" ->
  fst (run (sendMessage API_BASE_URL options false content category context) w)
  = Text.send_started content category w.
Proof.
  intros Hc.
  destruct (sendMessage_suspends API_BASE_URL options content category context w Hc)
    as [k ->].
  reflexivity.
Qed.

(** X8. A send and then its response, with nothing in between, grow the
    sequence by exactly two messages: the message of the user and then,
    when the request succeeds, the reply of the assistant (the session is
    then connected), or, when it fails, a message of the assistant whose
    text holds the message of the error.  Either way the session is no
    longer loading and the handle is cleared (as they are whenever the
    response is one the model has: whenever the call returns or throws). *)
Theorem sendMessage_then_response :
  forall (API_BASE_URL : string) (options : UseChatOptions) (content : string)
         (category : option Category) (context : option App.JsObject)
         (w : World State) (o : FetchResult),
    Js.trim content <> "" ->
    let send := sendMessage API_BASE_URL options false content category context in
    let call := ApiService.sendMessage State API_BASE_URL
                  (Text.request_of options content category context) in
    let user := Text.userMessage_of content category
                  (clock w (reads w)) (clock w (S (reads w))) in
    let final := hook (fst (answered send w o (fst (run send w)))) in
    (answer call o <> Mistyped ->
     isLoading final = false /\ abortControllerRef final = None)
    /\ (forall response,
          answer call o = Ret response ->
          messages final
          = (messages (hook w) ++ [user; Text.aiMessage_of category response])%list
          /\ isConnected final = true)
    /\ (forall e,
          answer call o = Throw (ExnApi e) ->
          messages final
          = (messages (hook w)
             ++ [user; Text.error_reply e (clock w (S (S (reads w))))
                                        (clock w (S (S (S (reads w)))))])%list
          /\ Types.content (Text.error_reply e 0 0)
             = "Sorry, I encountered an error: " ++ message e
               ++ ". Please try again.").
Proof.
  intros base options content category context w o Hc send call user final.
  unfold final, send.
  rewrite (run_sendMessage_world base options content category context w Hc).
  destruct (api_sendMessage_settles base
              (Text.request_of options content category context) o)
    as [[v Hv]|[[e He]|[[Ht _]|[Hm _]]]].
  - rewrite (sendMessage_success base options content category context
               w _ o v Hc Hv).
    cbn [fst hook isLoading abortControllerRef messages isConnected Text.send_started].
    split; [split; reflexivity|]. split.
    + intros response H. unfold call in H. rewrite Hv in H. injection H as <-.
      rewrite <- List.app_assoc. auto.
    + intros e H. unfold call in H. rewrite Hv in H. discriminate.
  - rewrite (sendMessage_failure base options content category context
               w _ o e Hc He).
    cbn [fst hook isLoading abortControllerRef messages isConnected Text.send_started
             clock reads].
    split; [split; reflexivity|]. split.
    + intros response H. unfold call in H. rewrite He in H. discriminate.
    + intros e' H. unfold call in H. rewrite He in H. injection H as <-.
      rewrite <- List.app_assoc. auto.
  - rewrite (sendMessage_unclassified base options content category context
               w _ o _ Hc Ht).
    cbn [fst hook isLoading abortControllerRef].
    split; [split; reflexivity|]. split.
    + intros response H. unfold call in H. rewrite Ht in H. discriminate.
    + intros e H. unfold call in H. rewrite Ht in H. discriminate.
  - split; [intros H; contradiction|]. split.
    + intros response H. unfold call in H. rewrite Hm in H. discriminate.
    + intros e H. unfold call in H. rewrite Hm in H. discriminate.
Qed.

Lemma sendMessage_then_response_witness :
  let options := {| conversationId := "c1"; onError := true |} in
  let w := Text.fresh_world initial in
  let send := sendMessage "" options false "hello" None None in
  let final :=
    hook (fst (answered send w
                        (Text.ok_response
                           (Text.ChatResponse_json (Text.reply "r1" "hi")))
                        (fst (run send w)))) in
  isLoading final = false
  /\ messages final
     = [Text.userMessage_of "hello" None 1000 1001;
        Text.aiMessage_of None (Text.reply "r1" "hi")]
  /\ isConnected final = true.
Proof.
  intros options w send final.
  destruct (sendMessage_then_response "" options "hello" None None w
              (Text.ok_response (Text.ChatResponse_json (Text.reply "r1" "hi"))))
    as (H1 & H3 & _); [discriminate|].
  destruct (H3 (Text.reply "r1" "hi") eq_refl) as [H4 H5].
  split; [apply H1; discriminate|]. split; [exact H4|exact H5].
Defined.

(** X9. Whenever the response of a send arrives, the send ends without
    throwing, with the loading flag false and the handle cleared.  When
    the call of the client returns, or fails with a classified error, the
    send has added exactly one message, of the assistant, to the sequence
    as it is then.  When the response is a success with the body [null],
    the call throws a TypeError after the request has returned; the send
    writes it to the console and adds no message at all, and leaves the
    connection flag as it is.  These are all the responses there are, but
    for a success whose body is neither [null] nor a response of the chat,
    which the model does not follow. *)
Theorem sendMessage_settles_with_at_most_one_reply :
  forall (API_BASE_URL : string) (options : UseChatOptions) (content : string)
         (category : option Category) (context : option App.JsObject)
         (w w1 : World State) (o : FetchResult),
    Js.trim content <> "" ->
    let call := ApiService.sendMessage State API_BASE_URL
                  (Text.request_of options content category context) in
    let r := answered (sendMessage API_BASE_URL options false
                                   content category context) w o w1 in
    ((exists response, answer call o = Ret response)
     \/ (exists e, answer call o = Throw (ExnApi e)) ->
     snd r = Finished tt
     /\ (exists reply,
           messages (hook (fst r)) = (messages (hook w1) ++ [reply])%list
           /\ sender reply = Ai)
     /\ isLoading (hook (fst r)) = false
     /\ abortControllerRef (hook (fst r)) = None)
    /\ (forall status statusText,
          o = Text.success status statusText Json.Null ->
          snd r = Finished tt
          /\ messages (hook (fst r)) = messages (hook w1)
          /\ isConnected (hook (fst r)) = isConnected (hook w1)
          /\ isLoading (hook (fst r)) = false
          /\ abortControllerRef (hook (fst r)) = None
          /\ outputs (fst r)
             = (outputs w1 ++ [ConsoleError "Failed to send message:"
                                            (ExnOther "TypeError")])%list)
    /\ ((exists response, answer call o = Ret response)
        \/ (exists e, answer call o = Throw (ExnApi e))
        \/ (exists status statusText,
              o = Text.success status statusText Json.Null)
        \/ (snd r = Untyped
            /\ exists status statusText body,
                 o = Text.success status statusText body
                 /\ body <> Json.Null)).
Proof.
  intros base options content category context w w1 o Hc call r.
  unfold r, call.
  destruct (api_sendMessage_settles base
              (Text.request_of options content category context) o)
    as [[v Hv]|[[e He]|[[Ht (status & statusText & Ho)]|[Hm Ho]]]].
  - rewrite (sendMessage_success base options content category context
               w w1 o v Hc Hv).
    split; [|split].
    + intros _. split; [reflexivity|]. split; [|split; reflexivity].
      eexists. split; reflexivity.
    + intros status statusText ->. rewrite sendMessage_answer in Hv.
      discriminate.
    + left. eauto.
  - rewrite (sendMessage_failure base options content category context
               w w1 o e Hc He).
    split; [|split].
    + intros _. split; [reflexivity|]. split; [|split; reflexivity].
      eexists. split; reflexivity.
    + intros status statusText ->. rewrite sendMessage_answer in He.
      discriminate.
    + right. left. eauto.
  - rewrite (sendMessage_unclassified base options content category context
               w w1 o _ Hc Ht).
    split; [|split].
    + intros [[v Hv]|[e He]]; rewrite Ht in *; discriminate.
    + intros status' statusText' _. repeat split.
    + right. right. left. eauto.
  - rewrite (sendMessage_mistyped base options content category context
               w w1 o Hc Hm).
    split; [|split].
    + intros [[v Hv]|[e He]]; rewrite Hm in *; discriminate.
    + intros status statusText ->. rewrite sendMessage_answer in Hm.
      discriminate.
    + right. right. right. split; [reflexivity|exact Ho].
Qed.

Lemma sendMessage_settles_with_at_most_one_reply_witness :
  let r := answered (sendMessage "" {| conversationId := "c1"; onError := false |}
                                 false "hello" None None)
                    (Text.fresh_world initial)
                    (Text.success 200 "OK" Json.Null)
                    (Text.fresh_world initial) in
  snd r = Finished tt
  /\ messages (hook (fst r)) = []
  /\ isLoading (hook (fst r)) = false
  /\ outputs (fst r)
     = [ConsoleError "Failed to send message:" (ExnOther "TypeError")].
Proof.
  intros r.
  destruct (sendMessage_settles_with_at_most_one_reply
              "" {| conversationId := "c1"; onError := false |} "hello" None None
              (Text.fresh_world initial) (Text.fresh_world initial)
              (Text.success 200 "OK" Json.Null))
    as (_ & H & _); [discriminate|].
  destruct (H 200 "OK" eq_refl) as (H1 & H2 & _ & H4 & _ & H6).
  split; [exact H1|]. split; [exact H2|]. split; [exact H4|exact H6].
Defined.

End ChatMore.

(** ** Loading a conversation *)

Module ChatLoad.
Import Types Async UseChat AsyncFacts ApiFacts ChatFacts.

Section Load.
Variable API_BASE_URL : string.
Variable options : UseChatOptions.

Lemma loadConversation_waits (id : string) (w : World State) :
  exists k,
    run (loadConversation API_BASE_URL options id) w
    = (Text.chat_loading w,
       Suspended (Text.messages_request API_BASE_URL id) k).
Proof. eexists. reflexivity. Qed.

(** When the call of the client returns, its messages replace the
    sequence. *)
Lemma loadConversation_returned (id : string) (w w1 w2 : World State)
      (o : FetchResult) (msgs : list ChatMessage) :
  run (answer (ApiService.getConversation State API_BASE_URL id) o) w1
    = (w2, Finished msgs) ->
  answered (loadConversation API_BASE_URL options id) w o w1
  = ({| hook := {| messages := msgs;
                   isLoading := false;
                   isConnected := true;
                   abortControllerRef := abortControllerRef (hook w2);
                   controllers := controllers (hook w2) |};
        clock := clock w2; reads := reads w2;
        outputs := outputs w2; pending := pending w2 |},
     Finished tt).
Proof.
  intros H. unfold answered, loadConversation. abstract_call H.
  cbn [run try_finally try_catch bind snd resume setIsLoading update].
  rewrite run_try_finally, run_try_catch, run_bind, H. reflexivity.
Qed.

(** When it throws, the sequence is left alone. *)
Lemma loadConversation_thrown (id : string) (w w1 w2 : World State)
      (o : FetchResult) (e : Exn) :
  run (answer (ApiService.getConversation State API_BASE_URL id) o) w1
    = (w2, Failed e) ->
  let r := answered (loadConversation API_BASE_URL options id) w o w1 in
  snd r = Finished tt
  /\ messages (hook (fst r)) = messages (hook w2)
  /\ isLoading (hook (fst r)) = false.
Proof.
  intros H r. unfold r, answered, loadConversation. abstract_call H.
  cbn [run try_finally try_catch bind snd resume setIsLoading update].
  rewrite run_try_finally, run_try_catch, run_bind, H.
  destruct e as [a|name]; unfold call_onError; destruct (onError options);
    repeat split.
Qed.

Lemma loadConversation_mistyped (id : string) (w w1 w2 : World State)
      (o : FetchResult) :
  run (answer (ApiService.getConversation State API_BASE_URL id) o) w1
    = (w2, Untyped) ->
  snd (answered (loadConversation API_BASE_URL options id) w o w1) = Untyped.
Proof.
  intros H. unfold answered, loadConversation. abstract_call H.
  cbn [run try_finally try_catch bind snd resume setIsLoading update].
  rewrite run_try_finally, run_try_catch, run_bind, H. reflexivity.
Qed.

End Load.

(** X10. A load sets the loading flag and asks for the messages of the
    conversation, and touches nothing else until the response is there.
    When the call of the client then returns, the load ends without
    throwing, the session is connected and no longer loading, and the
    sequence is replaced by the messages returned; for a body that is an
    array these are the messages of the body, one for one and in order,
    each with its fields kept and its timestamp made a Date.  When the
    call throws, a classified error or not, the load ends without
    throwing and with the loading flag false, and the sequence is as it
    was when the response arrived. *)
Theorem loadConversation_replaces_or_keeps :
  forall (API_BASE_URL : string) (options : UseChatOptions) (id : string)
         (w w1 : World State) (o : FetchResult),
    let load := loadConversation API_BASE_URL options id in
    let call := ApiService.getConversation State API_BASE_URL id in
    let r := answered load w o w1 in
    fst (run load w) = Text.chat_loading w
    /\ issued (snd (run load w)) = Some (Text.messages_request API_BASE_URL id)
    /\ (forall w2 msgs,
          run (answer call o) w1 = (w2, Finished msgs) ->
          snd r = Finished tt
          /\ messages (hook (fst r)) = msgs
          /\ isConnected (hook (fst r)) = true
          /\ isLoading (hook (fst r)) = false
          /\ forall status statusText raw,
               o = Text.success status statusText (Json.Array raw) ->
               List.length msgs = List.length raw
               /\ forall i m, nth_error raw i = Some m ->
                    exists m', nth_error msgs i = Some m'
                      /\ timestamp m' = Text.converted_timestamp w1 raw i m
                      /\ Text.same_fields m m')
    /\ (forall w2 e,
          run (answer call o) w1 = (w2, Failed e) ->
          snd r = Finished tt
          /\ messages (hook (fst r)) = messages (hook w1)
          /\ isLoading (hook (fst r)) = false).
Proof.
  intros base options id w w1 o load call r. unfold r, load, call.
  destruct (loadConversation_waits base options id w) as [k Hk].
  split; [rewrite Hk; reflexivity|].
  split; [rewrite Hk; reflexivity|].
  split.
  - intros w2 msgs H.
    rewrite (loadConversation_returned base options id w w1 w2 o msgs H).
    cbn [fst snd hook messages isConnected isLoading].
    repeat (split; [reflexivity|]).
    intros status statusText raw ->.
    destruct (getConversation_returns State base id status statusText raw
                                      w1 w2 msgs H) as (_ & Hlen & Hnth).
    split; [exact Hlen|exact Hnth].
  - intros w2 e H.
    destruct (loadConversation_thrown base options id w w1 w2 o e H)
      as (H1 & H2 & H3).
    destruct (getConversation_reads_the_clock State base id o w1 w2 _ H)
      as [n ->].
    split; [exact H1|]. split; [exact H2|exact H3].
Qed.

End ChatLoad.

(** ** The API client and the registry, further *)

Module RegistryMore.
Import Types Async UseConversations AsyncFacts ApiFacts RegistryFacts.

Lemma of_Z_not_empty (z : Z) : Js.of_Z z <> "".
Proof.
  unfold Js.of_Z, NilZero.string_of_int.
  destruct (Z.to_int z) as [d|d]; [|discriminate].
  destruct d; discriminate.
Qed.

(** Of the truthy values, only an array can have an empty text. *)
Lemma truthy_text_empty (v : Json.Value) :
  Json.truthy v = true -> Json.to_string v = "" ->
  exists items, v = Json.Array items.
Proof.
  destruct v as [|b|n|s|items|props]; simpl; intros Ht He;
    try discriminate.
  - destruct b; discriminate.
  - exfalso. exact (of_Z_not_empty n He).
  - subst s. discriminate.
  - exists items. reflexivity.
Qed.

Lemma or_else_is_truthy (a : option Json.Value) (b : Json.Value) :
  Json.truthy b = true -> Json.truthy (Json.or_else a b) = true.
Proof.
  intros Hb. unfold Json.or_else. destruct a as [v|]; [|exact Hb].
  destruct (Json.truthy v) eqn:E; [exact E|exact Hb].
Qed.

Lemma or_else_array (a : option Json.Value) (s : string)
      (items : list Json.Value) :
  Json.or_else a (Json.Str s) = Json.Array items -> a = Some (Json.Array items).
Proof.
  unfold Json.or_else. destruct a as [v|]; [|discriminate].
  destruct (Json.truthy v); [congruence|discriminate].
Qed.

Lemma request_failure_filled :
  forall (St : Type) (API_BASE_URL endpoint : string) (options : RequestInit)
         (o : FetchResult) (e : ApiError),
    answer (ApiService.request St API_BASE_URL endpoint options) o
      = Throw (ExnApi e) ->
    Json.truthy (code e) = true
    /\ (message e = "" ->
        exists r body items,
          o = FetchResolved r /\ ok r = false /\ json r = Some body
          /\ Json.lookup "message" body = Some (Json.Array items)).
Proof.
  intros St base endpoint options o e.
  outcome_cases o.
  - rewrite request_rejected. intros [= <-]. split; [reflexivity|discriminate].
  - rewrite request_ok. discriminate.
  - rewrite request_ok_unparsed. intros [= <-].
    split; [reflexivity|discriminate].
  - destruct (JsonFacts.null_or_not payload) as [->|Hn].
    + rewrite request_error_null. intros [= <-].
      split; [reflexivity|discriminate].
    + rewrite (request_error_body _ _ _ _ _ _ _ Hn). intros [= <-].
      cbn [code message new_ApiError]. split.
      * apply or_else_is_truthy. reflexivity.
      * intros He.
        assert (Hh : Json.truthy (Json.Str (Text.http_message status_ statusText_))
                     = true) by reflexivity.
        destruct (truthy_text_empty _ (or_else_is_truthy _ _ Hh) He)
          as [items Hi].
        apply or_else_array in Hi.
        eexists. exists payload, items. simpl. auto.
  - rewrite request_error_unparsed. intros [= <-].
    split; [reflexivity|discriminate].
Qed.

(** X11. The code of every failure of [request] is truthy: what the body
    of the error does not supply is filled in.  So is the message, text
    that is not empty, with one exception: an error body whose message is
    an array (which is truthy) with an empty text, as [[]] is. *)
Theorem request_failure_blank_only_from_array :
  forall (St : Type) (API_BASE_URL endpoint : string) (options : RequestInit)
         (o : FetchResult) (e : ApiError),
    answer (ApiService.request St API_BASE_URL endpoint options) o
      = Throw (ExnApi e) ->
    Json.truthy (code e) = true
    /\ (message e = "" ->
        exists r body items,
          o = FetchResolved r /\ ok r = false /\ json r = Some body
          /\ Json.lookup "message" body = Some (Json.Array items)).
Proof. exact request_failure_filled. Qed.

(** A 500 whose body is [{message: [], code: []}]: the message of the
    failure is empty, and its code is the array. *)
Lemma request_failure_blank_only_from_array_witness :
  let body := Json.Object [("message", Json.Array []); ("code", Json.Array [])] in
  let e := {| message := ""; code := Json.Array [];
              details := DetailsBody body |} in
  Json.truthy (code e) = true
  /\ (message e = "" ->
      exists r body' items,
        FetchResolved {| ok := false; status := 500;
                         statusText := "Internal Server Error";
                         json := Some body |} = FetchResolved r
        /\ ok r = false /\ json r = Some body'
        /\ Json.lookup "message" body' = Some (Json.Array items)).
Proof.
  intros body e.
  apply (request_failure_blank_only_from_array
           unit "" "/api/health" ApiService.no_options
           (FetchResolved {| ok := false; status := 500;
                             statusText := "Internal Server Error";
                             json := Some body |}) e).
  reflexivity.
Defined.

Section Registry.
Variable API_BASE_URL : string.

Lemma api_getConversations_settles (o : FetchResult) :
  (exists v, answer (ApiService.getConversations State API_BASE_URL) o = Ret v)
  \/ (exists e, answer (ApiService.getConversations State API_BASE_URL) o
               = Throw (ExnApi e))
  \/ answer (ApiService.getConversations State API_BASE_URL) o = Mistyped.
Proof. apply declared_operation_settles. Qed.

Lemma api_searchConversations_settles (query : string) (o : FetchResult) :
  (exists v, answer (ApiService.searchConversations State API_BASE_URL query) o
             = Ret v)
  \/ (exists e, answer (ApiService.searchConversations State API_BASE_URL query) o
               = Throw (ExnApi e))
  \/ answer (ApiService.searchConversations State API_BASE_URL query) o
     = Mistyped.
Proof. apply declared_operation_settles. Qed.

End Registry.

(** X12. A load and then its response: when the call of the client
    returns or fails, the load ends without throwing and with the loading
    flag false.  When the request succeeds the cache is the list fetched
    and the error string is cleared; when it fails the cache is the one
    from before the load and the error string is the message of the
    error. *)
Theorem loadConversations_then_response :
  forall (API_BASE_URL : string) (w : World State) (o : FetchResult),
    let load := loadConversations API_BASE_URL in
    let call := ApiService.getConversations State API_BASE_URL in
    let r := answered load w o (fst (run load w)) in
    (answer call o <> Mistyped ->
     snd r = Finished tt /\ isLoading (hook (fst r)) = false)
    /\ (forall data,
          answer call o = Ret data ->
          conversations (hook (fst r)) = data
          /\ error (hook (fst r)) = None)
    /\ (forall e,
          answer call o = Throw (ExnApi e) ->
          conversations (hook (fst r)) = conversations (hook w)
          /\ error (hook (fst r)) = Some (message e)).
Proof.
  intros base w o load call r. unfold r, load, call.
  destruct (api_getConversations_settles base o) as [[v Hv]|[[e He]|Hm]].
  - rewrite (loadConversations_success base w _ o v Hv).
    split; [split; reflexivity|]. split.
    + intros data H. rewrite Hv in H. injection H as <-. split; reflexivity.
    + intros e H. rewrite Hv in H. discriminate.
  - rewrite (loadConversations_failure base w _ o e He).
    split; [split; reflexivity|]. split.
    + intros data H. rewrite He in H. discriminate.
    + intros e' H. rewrite He in H. injection H as <-. split; reflexivity.
  - split; [intros H; contradiction|]. split.
    + intros data H. rewrite Hm in H. discriminate.
    + intros e H. rewrite Hm in H. discriminate.
Qed.

(** X13. A search with a query that is not blank, and then its response:
    when the call of the client returns or fails, the search ends without
    throwing and with the loading flag false.  When the request fails,
    the cache is the one from before the search and the error string is
    the message of the error; when it succeeds, the error string is left
    as it was before the search (a search does not clear it, as a load
    does). *)
Theorem searchConversations_then_response :
  forall (API_BASE_URL query : string) (w : World State) (o : FetchResult),
    ~ Js.all_white query ->
    let search := searchConversations API_BASE_URL query in
    let call := ApiService.searchConversations State API_BASE_URL query in
    let r := answered search w o (fst (run search w)) in
    (answer call o <> Mistyped ->
     snd r = Finished tt /\ isLoading (hook (fst r)) = false)
    /\ (forall results,
          answer call o = Ret results ->
          error (hook (fst r)) = error (hook w))
    /\ (forall e,
          answer call o = Throw (ExnApi e) ->
          conversations (hook (fst r)) = conversations (hook w)
          /\ error (hook (fst r)) = Some (message e)).
Proof.
  intros base query w o Hq search call r. unfold r, search, call.
  assert (Ht : Js.truthy (Js.trim query) = true).
  { destruct (Js.truthy (Js.trim query)) eqn:E; [reflexivity|].
    exfalso. apply Hq. apply JsFacts.truthy_trim. exact E. }
  destruct (searchConversations_waits base query w Ht) as [k Hk].
  destruct (api_searchConversations_settles base query o)
    as [[v Hv]|[[e He]|Hm]].
  - rewrite (searchConversations_success base query w _ o v Ht Hv), Hk.
    split; [split; reflexivity|]. split.
    + intros; reflexivity.
    + intros e H. rewrite Hv in H. discriminate.
  - rewrite (searchConversations_failure base query w _ o e Ht He), Hk.
    split; [split; reflexivity|]. split.
    + intros results H. rewrite He in H. discriminate.
    + intros e' H. rewrite He in H. injection H as <-. split; reflexivity.
  - split; [intros H; contradiction|]. split.
    + intros results H. rewrite Hm in H. discriminate.
    + intros e H. rewrite Hm in H. discriminate.
Qed.

Lemma searchConversations_then_response_witness :
  let stale := {| conversations := [Text.summary "a" "One"];
                  isLoading := false; error := Some "Earlier failure" |} in
  let search := searchConversations "" "bug" in
  let w : World State := Text.fresh_world stale in
  error (hook (fst (answered search w
                      (Text.ok_response
                         (Text.ConversationSummary_list_json
                            [Text.summary "c" "A bug"]))
                      (fst (run search w)))))
  = Some "Earlier failure"
  /\ conversations (hook (fst (answered search w
        (Text.error_response 500 "Index is down" "SEARCH_DOWN")
        (fst (run search w)))))
     = [Text.summary "a" "One"].
Proof.
  intros stale search w.
  assert (Hq : ~ Js.all_white "bug").
  { intros H. specialize (H "b"%char (or_introl eq_refl)). discriminate. }
  split.
  - destruct (searchConversations_then_response
                "" "bug" w
                (Text.ok_response
                   (Text.ConversationSummary_list_json [Text.summary "c" "A bug"]))
                Hq)
      as (_ & H & _).
    exact (H [Text.summary "c" "A bug"] eq_refl).
  - destruct (searchConversations_then_response
                "" "bug" w (Text.error_response 500 "Index is down" "SEARCH_DOWN") Hq)
      as (_ & _ & H).
    exact (proj1 (H _ eq_refl)).
Defined.

End RegistryMore.

(** ** The handlers of the page *)

Module PageFacts.
Import Types Async Page AsyncFacts ApiFacts.

(** X14. New Conversation and then the response: the handler never
    throws (whenever the call of the client returns or fails).  When the
    create succeeds, the new conversation is first in
    the cache and is the active one, and the message sequence is empty;
    when it fails, the active conversation, the messages and the cache
    are as they were, the notice of the page is the fixed text of the
    handler and the error string of the registry is the message of the
    error. *)
Theorem handleNewConversation_then_response :
  forall (API_BASE_URL : string) (w : World State)
         (o : FetchResult),
    let handler := handleNewConversation API_BASE_URL in
    let call := ApiService.createConversation UseConversations.State API_BASE_URL
                  "New Conversation" (category_name General) in
    let r := answered handler w o (fst (run handler w)) in
    let before := hook w in
    let after := hook (fst r) in
    (answer call o <> Mistyped -> snd r = Finished tt)
    /\ (forall c,
          answer call o = Ret c ->
          UseConversations.conversations (registry after)
          = c :: UseConversations.conversations (registry before)
          /\ activeConversation (app after) = Some (conv_id c)
          /\ UseChat.messages (chat after) = []
          /\ error (app after) = error (app before))
    /\ (forall e,
          answer call o = Throw (ExnApi e) ->
          activeConversation (app after) = activeConversation (app before)
          /\ UseChat.messages (chat after) = UseChat.messages (chat before)
          /\ UseConversations.conversations (registry after)
             = UseConversations.conversations (registry before)
          /\ error (app after) = Some "Failed to create new conversation"
          /\ UseConversations.error (registry after) = Some (message e)).
Proof.
  intros base w o handler call r before after.
  unfold after, before, r, call, handler, answered, handleNewConversation,
    UseConversations.createConversation.
  destruct (declared_operation_settles UseConversations.State base
              ConversationSummary "/api/conversations"
              {| method := Some "POST"; headers := None;
                 body := Some (JsonCreate "New Conversation"
                                          (category_name General)) |}
              Declared.a_ConversationSummary o)
    as [[c Hc]|[[e He]|Hm]].
  - change (answer (ApiService.createConversation UseConversations.State base
                      "New Conversation" (category_name General)) o = Ret c)
      in Hc.
    abstract_call Hc. simpl. rewrite Hc. simpl.
    split; [reflexivity|]. split.
    + intros c' [= <-]. repeat split.
    + intros e [=].
  - change (answer (ApiService.createConversation UseConversations.State base
                      "New Conversation" (category_name General)) o
            = Throw (ExnApi e)) in He.
    abstract_call He. simpl. rewrite He. simpl.
    split; [reflexivity|]. split.
    + intros c [=].
    + intros e' [= <-]. repeat split.
  - change (answer (ApiService.createConversation UseConversations.State base
                      "New Conversation" (category_name General)) o
            = Mistyped) in Hm.
    abstract_call Hm. simpl. rewrite Hm. simpl.
    split; [intros H; contradiction|]. split.
    + intros c [=].
    + intros e [=].
Qed.

(** X15. Delete and then the response: the handler never throws and never
    sets the notice of the page, whether the deletion succeeded or not.
    When the conversation deleted was not the active one of the render,
    the active conversation is left alone; when it was, the active
    conversation becomes the first conversation of the list as the
    render had it, if that list had more than one entry, and none
    otherwise.  So when the first of several conversations is deleted
    while active, it stays the active one. *)
Theorem handleDeleteConversation_selection :
  forall (API_BASE_URL : string) (activeConversation_ : option string)
         (conversations_ : list ConversationSummary) (id : string)
         (w : World State) (o : FetchResult),
    let handler := handleDeleteConversation API_BASE_URL activeConversation_
                                            conversations_ id in
    let r := answered handler w o (fst (run handler w)) in
    let after := hook (fst r) in
    snd r = Finished tt
    /\ error (app after) = error (app (hook w))
    /\ activeConversation (app after)
       = (if is_active activeConversation_ id
          then match conversations_ with
               | c :: _ :: _ => Some (conv_id c)
               | _ => None
               end
          else activeConversation (app (hook w)))
    /\ (forall c c' rest,
          conversations_ = c :: c' :: rest ->
          conv_id c = id ->
          activeConversation_ = Some id ->
          activeConversation (app after) = Some id).
Proof.
  intros base active convs id w o handler r after.
  assert (H : snd r = Finished tt
              /\ error (app after) = error (app (hook w))
              /\ activeConversation (app after)
                 = (if is_active active id
                    then match convs with
                         | c :: _ :: _ => Some (conv_id c)
                         | _ => None
                         end
                    else activeConversation (app (hook w)))).
  { unfold after, r, handler, answered, handleDeleteConversation,
      UseConversations.deleteConversation.
    destruct (RegistryFacts.api_deleteConversation_settles base id o)
      as [[e He]|Hv].
    - abstract_call He. simpl. rewrite He. simpl.
      destruct (is_active active id);
        destruct convs as [|first [|second others]]; simpl; repeat split.
    - abstract_call Hv. simpl. rewrite Hv. simpl.
      destruct (is_active active id);
        destruct convs as [|first [|second others]]; simpl; repeat split. }
  destruct H as (H1 & H2 & H3). repeat (split; [assumption|]).
  intros c c' rest -> <- ->. rewrite H3. simpl. rewrite String.eqb_refl. reflexivity.
Qed.

End PageFacts.

